(** * TransCity: a shallow embedding of [src/trans_city/TransCity.cc]

    The engine object is a record; every member function becomes a function
    from the engine state (and its arguments and caller buffers) to a
    [result].  Three kinds of outcome are kept apart: normal return,
    [LOG(FATAL)] (the process aborts with a message) and behaviour the C++
    standard leaves undefined at the memory level (reading a caller buffer
    past its end, dereferencing or freeing a deleted agent, dividing by
    zero).

    Conventions.
    - [int] is a 32-bit two's-complement integer carried in [Z]; arithmetic
      wraps ([CInt.wrap]), which is what the supported compilers produce.
    - [float] is IEEE binary32 as a [spec_float]; the engine only stores
      zeros, converted integers and agent rewards, no float arithmetic.
    - Agents live on a heap addressed by locations; the engine's [agents]
      vector holds locations, so that [delete] and the vector's length are
      independent, as in the source.
    - The [omp parallel for] loops are run in index order.
    - Memory behind a [void *] is the list of the caller's bytes; a typed
      read is a bounds-checked read of the object representation (x86:
      little-endian, two's complement). The aliasing rules of the language
      are not modelled.
    - The renderer is outside the file: [render] and [render_next_file] are
      the calls they make on it. *)

From Stdlib Require Import ZArith Lia List.
From Stdlib Require Import Floats.SpecFloat.
From Stdlib Require Strings.Byte.
From stdpp Require Import base option list gmap strings.

Local Open Scope Z_scope.

(** ** 32-bit integers *)

Module CInt.

Definition INT_MIN : Z := -2147483648.
Definition INT_MAX : Z := 2147483647.

Definition in_int (z : Z) : Prop := INT_MIN <= z <= INT_MAX.

(** Reduction of a mathematical integer to the [int] with the same low 32
    bits; also the meaning of [static_cast<int>] and [(int)] on an unsigned
    value. *)
Definition wrap (z : Z) : Z := (z + 2147483648) mod 4294967296 - 2147483648.

Definition add (a b : Z) : Z := wrap (a + b).
Definition sub (a b : Z) : Z := wrap (a - b).
Definition mul (a b : Z) : Z := wrap (a * b).

End CInt.

(** ** Outcomes of a call *)

Inductive result (A : Type) : Type :=
  | Ok (a : A)
  | Fatal (msg : string)
  | Undefined.
Arguments Ok {A} a.
Arguments Fatal {A} msg.
Arguments Undefined {A}.

#[global] Instance result_eq_dec {A} `{EqDecision A} : EqDecision (result A).
Proof. solve_decision. Defined.

#[global] Instance result_ret : MRet result := fun A a => Ok a.
#[global] Instance result_bind : MBind result := fun A B f r =>
  match r with
  | Ok a => f a
  | Fatal msg => Fatal msg
  | Undefined => Undefined
  end.

(** [%] on [int]: truncating remainder; a zero divisor traps, and so does
    the one quotient that does not fit. *)
Definition int_rem (a b : Z) : result Z :=
  if decide (b = 0) then Undefined
  else if decide (a = CInt.INT_MIN /\ b = -1) then Undefined
  else Ok (Z.rem a b).

(** ** binary32 values *)

Definition float : Type := spec_float.
Definition float_zero : float := S754_zero false.
(** Conversion [int -> float], round to nearest even. *)
Definition float_of_int (z : Z) : float := binary_normalize 24 128 z 0 false.

(** ** Raw buffers

    A caller buffer is the list of its cells; an access outside it is
    undefined. Indices are [int]s. *)

Definition buf_read {A} (b : list A) (i : Z) : result A :=
  if decide (0 <= i) then
    match b !! Z.to_nat i with
    | Some v => Ok v
    | None => Undefined
    end
  else Undefined.

Definition buf_write {A} (b : list A) (i : Z) (v : A) : result (list A) :=
  if decide (0 <= i < Z.of_nat (length b)) then Ok (<[Z.to_nat i := v]> b)
  else Undefined.

(** [memset(p, 0, sizeof(float) * n)] on a float buffer. *)
Definition buf_zero (b : list float) (n : Z) : result (list float) :=
  if decide (0 <= n <= Z.of_nat (length b)) then
    Ok (replicate (Z.to_nat n) float_zero ++ drop (Z.to_nat n) b)
  else Undefined.

(** ** Memory behind a [void *]

    [set_config] receives a pointer to a caller object of unknown type and
    reads it as a [float], as an [int], as a [bool] and as a C string. The
    caller's object is the list of its bytes. *)

Definition byte_val (b : Byte.byte) : Z := Z.of_N (Byte.to_N b).

(** The first [n] bytes at the pointer; fewer bytes there, and the read
    leaves the caller's object. *)
Definition read_bytes (p : list Byte.byte) (n : nat) : result (list Byte.byte) :=
  if decide (n <= length p)%nat then Ok (take n p) else Undefined.

(** The [int] with a given object representation. *)
Definition int_of_bytes (bs : list Byte.byte) : Z :=
  CInt.wrap (foldr (fun b acc => byte_val b + 256 * acc) 0 bs).

(** The read of [p] as a pointer to [int]. *)
Definition read_int (p : list Byte.byte) : result Z :=
  bs ← read_bytes p 4; Ok (int_of_bytes bs).

(** The C string at [p]: the characters before the first NUL; without one
    the read runs past the caller's object. *)
Fixpoint c_string (p : list Byte.byte) : result string :=
  match p with
  | [] => Undefined
  | b :: p' =>
      if decide (byte_val b = 0) then Ok EmptyString
      else s ← c_string p'; Ok (String (Ascii.ascii_of_byte b) s)
  end.

(** What a caller passes: the object representation of an [int], and a
    NUL-terminated string. *)
Definition byte_of_Z (z : Z) : Byte.byte :=
  match Byte.of_N (Z.to_N (z mod 256)) with
  | Some b => b
  | None => Byte.x00
  end.

Definition bytes_of_int (z : Z) : list Byte.byte :=
  [byte_of_Z z; byte_of_Z (z / 256); byte_of_Z (z / 65536);
   byte_of_Z (z / 16777216)].

Definition bytes_of_string (str : string) : list Byte.byte :=
  String.list_byte_of_string str ++ [Byte.x00].

(** ** Plain data of the city

    The structs below are declared in headers that are not part of the
    translated file; their shape is read off the constructor calls and
    accessors that [TransCity.cc] makes. *)

Record Position : Type := mkPosition { pos_x : Z; pos_y : Z }.

#[global] Instance Position_eq_dec : EqDecision Position.
Proof. solve_decision. Defined.

(** [Position{v}]: brace initialisation with a single initialiser; the second
    member is value-initialised. *)
Definition Position_single (v : Z) : Position := mkPosition v 0.

Record TrafficLight : Type := mkTrafficLight {
  light_pos : Position;
  light_orientation : Z;
  light_offset : Z;
  light_interval : Z
}.

Record Park : Type := mkPark { park_pos : Position; park_w : Z; park_h : Z }.

Record Building : Type :=
  mkBuilding { building_pos : Position; building_w : Z; building_h : Z }.

(** What the absent headers fix and this file cannot see: the size of the
    action enumeration and the number of view channels (both already [int]
    values, so the casts to [int] at their uses are the identity), the
    content of an agent's embedding (component [k] of the agent with a
    given id), and the word that a two-dimensional [NDPointer] finds when
    asked for a third dimension. Every definition below is parametric in
    them. *)
Class Headers : Type := {
  ACT_NUM : Z;
  CHANNEL_NUM : Z;
  embedding_component : Z -> nat -> float;
  dim_beyond : Z
}.

(** *** Agents *)

(** The members of [Agent] (city_def.h) that the engine reads or writes
    through [get_id], [set_pos]/[get_pos], [get_goal],
    [set_action]/[get_action], [get_last_reward], [get_reward] and
    [is_dead]. *)
Record Agent : Type := mkAgent {
  agent_id : Z;
  agent_pos : Position;
  agent_goal : Position;
  agent_action : Z;
  agent_last_reward : float;
  agent_reward : float;
  agent_dead : bool
}.

(** Modelled from the spec: the constructor [Agent::Agent(int &id_counter)]
    (city_def.h) is missing from the sources. The spec gives every agent a
    "unique monotonically increasing id (assigned at creation, never
    reused)", and the call site [new Agent(id_counter)] never touches the
    counter itself, so the constructor takes the counter by reference, keeps
    its value as the id and advances it. A new agent is alive, with a
    neutral reward; position and goal are set by the caller. *)
Definition Agent_new (id_counter : Z) : Agent * Z :=
  (mkAgent id_counter (mkPosition 0 0) (mkPosition 0 0) 0 float_zero float_zero false,
   CInt.add id_counter 1).

Definition set_pos (a : Agent) (p : Position) : Agent :=
  mkAgent (agent_id a) p (agent_goal a) (agent_action a)
          (agent_last_reward a) (agent_reward a) (agent_dead a).

Definition Agent_set_action (a : Agent) (act : Z) : Agent :=
  mkAgent (agent_id a) (agent_pos a) (agent_goal a) act
          (agent_last_reward a) (agent_reward a) (agent_dead a).

(** Modelled from the spec: [Agent::init_reward] is missing from the
    sources; the spec has the survivors' "reward accumulator reset to a
    neutral value for the next tick". *)
Definition init_reward (a : Agent) : Agent :=
  mkAgent (agent_id a) (agent_pos a) (agent_goal a) (agent_action a)
          (agent_last_reward a) float_zero (agent_dead a).

Definition is_dead (a : Agent) : bool := agent_dead a.

(** Modelled from the spec: [Agent::get_embedding(float *, int)] is missing
    from the sources; the spec calls the embedding "a fixed-size opaque
    embedding (agent-specific side information independent of position)".
    It fills [size] consecutive cells starting at [off]. *)
Fixpoint get_embedding_from `{Headers} (a : Agent) (b : list float) (off : Z)
    (k count : nat) : result (list float) :=
  match count with
  | O => Ok b
  | S count' =>
      b' ← buf_write b (off + Z.of_nat k) (embedding_component (agent_id a) k);
      get_embedding_from a b' off (S k) count'
  end.

Definition get_embedding `{Headers} (a : Agent) (b : list float) (off size : Z)
    : result (list float) :=
  get_embedding_from a b off 0%nat (Z.to_nat size).

(** *** The heap of agents *)

Definition loc : Type := nat.

Record Heap : Type := mkHeap { objs : gmap loc Agent; next_loc : loc }.

Definition heap_empty : Heap := mkHeap ∅ 0%nat.

(** [new Agent(...)] *)
Definition heap_new (h : Heap) (a : Agent) : loc * Heap :=
  (next_loc h, mkHeap (<[next_loc h := a]> (objs h)) (S (next_loc h))).

(** [*p] *)
Definition heap_get (h : Heap) (p : loc) : result Agent :=
  match objs h !! p with
  | Some a => Ok a
  | None => Undefined
  end.

(** [*p = a] *)
Definition heap_set (h : Heap) (p : loc) (a : Agent) : result Heap :=
  match objs h !! p with
  | Some _ => Ok (mkHeap (<[p := a]> (objs h)) (next_loc h))
  | None => Undefined
  end.

(** [delete p] *)
Definition heap_delete (h : Heap) (p : loc) : result Heap :=
  match objs h !! p with
  | Some _ => Ok (mkHeap (delete p (objs h)) (next_loc h))
  | None => Undefined
  end.

(** *** NDPointer *)

(** Modelled from the spec: the class template [NDPointer] (utility.h) is
    missing from the sources; the spec describes the descriptor buffers as
    "flat, row-major". [at] with as many indices as dimensions is row-major
    addressing. [at] with three indices on a two-dimensional pointer, which
    the wall branch of [add_object] calls, multiplies by a third dimension
    that the pointer does not have: [dim_beyond]. *)

Record NDPointer (A : Type) : Type := mkND { nd_data : list A; nd_dim : list Z }.
Arguments mkND {A} nd_data nd_dim.
Arguments nd_data {A} _.
Arguments nd_dim {A} _.

Definition nd_dim_at `{Headers} {A} (p : NDPointer A) (k : nat) : Z :=
  match nd_dim p !! k with
  | Some d => d
  | None => dim_beyond
  end.

Definition index2 `{Headers} {A} (p : NDPointer A) (i j : Z) : Z :=
  CInt.add (CInt.mul i (nd_dim_at p 1)) j.

Definition index3 `{Headers} {A} (p : NDPointer A) (i j k : Z) : Z :=
  CInt.add
    (CInt.add (CInt.mul (CInt.mul i (nd_dim_at p 1)) (nd_dim_at p 2))
              (CInt.mul j (nd_dim_at p 2)))
    k.

Definition at2 `{Headers} {A} (p : NDPointer A) (i j : Z) : result A :=
  buf_read (nd_data p) (index2 p i j).

Definition at3 `{Headers} {A} (p : NDPointer A) (i j k : Z) : result A :=
  buf_read (nd_data p) (index3 p i j k).

(** *** The random engine and the spatial map

    Both are members of the engine whose classes are declared elsewhere;
    they are interfaces here. [engine_call e] is [e()]: the raw value and
    the advanced engine. *)

Class EngineOps (Engine : Type) : Type := {
  engine_default : Engine;
  engine_seed : Engine -> Z -> Engine;
  engine_call : Engine -> Z * Engine
}.

Class MapOps (Map Engine : Type) : Type := {
  map_default : Map;
  map_reset : Map -> list Position -> Z -> Z -> result Map;
  map_add_wall : Map -> Position -> result Map;
  map_add_light : Map -> Position -> Z -> Z -> result Map;
  map_add_park : Map -> Position -> result Map;
  map_add_agent : Map -> loc -> Agent -> result Map;
  map_get_random_blank : Map -> Engine -> result (Position * Engine);
  map_extract_view :
    Map -> Agent -> list float -> Z -> Z -> Z -> Z -> result (list float)
}.

(** [for (int i = from; i < from + count; i++) body], threading the state. *)
Fixpoint for_loop {S : Type} (from : Z) (count : nat)
    (body : Z -> S -> result S) (s : S) : result S :=
  match count with
  | O => Ok s
  | S count' => s' ← body from s; for_loop (from + 1) count' body s'
  end.

(** Values an info buffer holds: [get_info] views the caller's [void *]
    as an array of [int] or of [bool], depending on the query. *)
Inductive info_cell : Type :=
  | IntCell (z : Z)
  | BoolCell (b : bool).

(** ** The engine *)

Module TransCity.

Section Engine.

Context `{Hdr : Headers} {Map Engine : Type}.
Context `{EO : !EngineOps Engine} `{MO : !MapOps Map Engine}.

Record state : Type := mkState {
  map : Map;
  heap : Heap;
  agents : list loc;
  walls : list Position;
  lights : list TrafficLight;
  parks : list Park;
  buildings : list Building;
  id_counter : Z;
  first_render : bool;
  width : Z;
  height : Z;
  view_width : Z;
  view_height : Z;
  embedding_size : Z;
  interval_min : Z;
  interval_max : Z;
  render_dir : string;
  random_engine : Engine
}.

Definition with_map (s : state) (m : Map) : state :=
  mkState m (heap s) (agents s) (walls s) (lights s) (parks s) (buildings s)
    (id_counter s) (first_render s) (width s) (height s) (view_width s)
    (view_height s) (embedding_size s) (interval_min s) (interval_max s)
    (render_dir s) (random_engine s).

Definition with_heap (s : state) (h : Heap) : state :=
  mkState (map s) h (agents s) (walls s) (lights s) (parks s) (buildings s)
    (id_counter s) (first_render s) (width s) (height s) (view_width s)
    (view_height s) (embedding_size s) (interval_min s) (interval_max s)
    (render_dir s) (random_engine s).

Definition with_agents (s : state) (l : list loc) : state :=
  mkState (map s) (heap s) l (walls s) (lights s) (parks s) (buildings s)
    (id_counter s) (first_render s) (width s) (height s) (view_width s)
    (view_height s) (embedding_size s) (interval_min s) (interval_max s)
    (render_dir s) (random_engine s).

Definition with_walls (s : state) (l : list Position) : state :=
  mkState (map s) (heap s) (agents s) l (lights s) (parks s) (buildings s)
    (id_counter s) (first_render s) (width s) (height s) (view_width s)
    (view_height s) (embedding_size s) (interval_min s) (interval_max s)
    (render_dir s) (random_engine s).

Definition with_lights (s : state) (l : list TrafficLight) : state :=
  mkState (map s) (heap s) (agents s) (walls s) l (parks s) (buildings s)
    (id_counter s) (first_render s) (width s) (height s) (view_width s)
    (view_height s) (embedding_size s) (interval_min s) (interval_max s)
    (render_dir s) (random_engine s).

Definition with_parks (s : state) (l : list Park) : state :=
  mkState (map s) (heap s) (agents s) (walls s) (lights s) l (buildings s)
    (id_counter s) (first_render s) (width s) (height s) (view_width s)
    (view_height s) (embedding_size s) (interval_min s) (interval_max s)
    (render_dir s) (random_engine s).

Definition with_buildings (s : state) (l : list Building) : state :=
  mkState (map s) (heap s) (agents s) (walls s) (lights s) (parks s) l
    (id_counter s) (first_render s) (width s) (height s) (view_width s)
    (view_height s) (embedding_size s) (interval_min s) (interval_max s)
    (render_dir s) (random_engine s).

Definition with_id_counter (s : state) (c : Z) : state :=
  mkState (map s) (heap s) (agents s) (walls s) (lights s) (parks s)
    (buildings s) c (first_render s) (width s) (height s) (view_width s)
    (view_height s) (embedding_size s) (interval_min s) (interval_max s)
    (render_dir s) (random_engine s).

Definition with_random_engine (s : state) (e : Engine) : state :=
  mkState (map s) (heap s) (agents s) (walls s) (lights s) (parks s)
    (buildings s) (id_counter s) (first_render s) (width s) (height s)
    (view_width s) (view_height s) (embedding_size s) (interval_min s)
    (interval_max s) (render_dir s) e.

(** The scalar options that [set_config] writes. *)
Record options : Type := mkOptions {
  o_width : Z; o_height : Z; o_view_width : Z; o_view_height : Z;
  o_embedding_size : Z; o_interval_min : Z; o_interval_max : Z;
  o_render_dir : string
}.

Definition get_options (s : state) : options :=
  mkOptions (width s) (height s) (view_width s) (view_height s)
    (embedding_size s) (interval_min s) (interval_max s) (render_dir s).

Definition with_options (s : state) (o : options) : state :=
  mkState (map s) (heap s) (agents s) (walls s) (lights s) (parks s)
    (buildings s) (id_counter s) (first_render s) (o_width o) (o_height o)
    (o_view_width o) (o_view_height o) (o_embedding_size o)
    (o_interval_min o) (o_interval_max o) (o_render_dir o) (random_engine s).

(** [TransCity::TransCity()]. The constructor leaves [id_counter],
    [first_render] and the view size unset; their initial values are
    arguments here. *)
Definition construct (id_counter0 : Z) (first_render0 : bool)
    (view_width0 view_height0 : Z) : state :=
  mkState map_default heap_empty [] [] [] [] [] id_counter0 first_render0
    100 100 view_width0 view_height0 16 10 20 EmptyString
    (engine_seed engine_default 0).

(** [for (int i = 0; i < agents.size(); i++) delete agents[i];] *)
Fixpoint delete_all (h : Heap) (ps : list loc) : result Heap :=
  match ps with
  | [] => Ok h
  | p :: ps' => h' ← heap_delete h p; delete_all h' ps'
  end.

(** [TransCity::reset()]: the counter restarts, the map is rebuilt from the
    recorded walls, every agent object is deleted. The [agents] vector
    itself is not touched. *)
Definition reset (s : state) : result state :=
  let s1 := with_id_counter s 0 in
  m ← map_reset (map s1) (walls s1) (width s1) (height s1);
  let s2 := with_map s1 m in
  h ← delete_all (heap s2) (agents s2);
  Ok (with_heap s2 h).

(** [TransCity::set_config(key, p_value)]. The three typed reads of
    [*p_value] come first, whatever the key; [fvalue] and [bvalue] are
    never used afterwards. [strvalue] is only the pointer: the string is
    read where the renderer takes it. Modelled from the spec: the class of
    [render_generator] is missing from the sources; [render_dir] is a
    "string, forwarded to the external renderer", kept here as the last
    string forwarded. *)
Definition set_config (s : state) (key : string) (p_value : list Byte.byte)
    : result state :=
  _ ← read_bytes p_value 4;
  ivalue ← read_int p_value;
  _ ← read_bytes p_value 1;
  let o := get_options s in
  if decide (key = "map_width") then
    Ok (with_options s (mkOptions ivalue (o_height o) (o_view_width o)
          (o_view_height o) (o_embedding_size o) (o_interval_min o)
          (o_interval_max o) (o_render_dir o)))
  else if decide (key = "map_height") then
    Ok (with_options s (mkOptions (o_width o) ivalue (o_view_width o)
          (o_view_height o) (o_embedding_size o) (o_interval_min o)
          (o_interval_max o) (o_render_dir o)))
  else if decide (key = "view_width") then
    Ok (with_options s (mkOptions (o_width o) (o_height o) ivalue
          (o_view_height o) (o_embedding_size o) (o_interval_min o)
          (o_interval_max o) (o_render_dir o)))
  else if decide (key = "view_height") then
    Ok (with_options s (mkOptions (o_width o) (o_height o) (o_view_width o)
          ivalue (o_embedding_size o) (o_interval_min o)
          (o_interval_max o) (o_render_dir o)))
  else if decide (key = "interval_min") then
    Ok (with_options s (mkOptions (o_width o) (o_height o) (o_view_width o)
          (o_view_height o) (o_embedding_size o) ivalue
          (o_interval_max o) (o_render_dir o)))
  else if decide (key = "interval_max") then
    Ok (with_options s (mkOptions (o_width o) (o_height o) (o_view_width o)
          (o_view_height o) (o_embedding_size o) (o_interval_min o)
          ivalue (o_render_dir o)))
  else if decide (key = "embedding_size") then
    Ok (with_options s (mkOptions (o_width o) (o_height o) (o_view_width o)
          (o_view_height o) ivalue (o_interval_min o)
          (o_interval_max o) (o_render_dir o)))
  else if decide (key = "render_dir") then
    strvalue ← c_string p_value;
    Ok (with_options s (mkOptions (o_width o) (o_height o) (o_view_width o)
          (o_view_height o) (o_embedding_size o) (o_interval_min o)
          (o_interval_max o) strvalue))
  else if decide (key = "seed") then
    Ok (with_random_engine s (engine_seed (random_engine s) ivalue))
  else
    Fatal (String.append "invalid argument in TransCity::set_config: " key).

(** The phase interval of a new light, from the raw value of one engine
    call: [static_cast<int>(raw) % (interval_max - interval_min) +
    interval_min]. *)
Definition draw_interval (raw imin imax : Z) : result Z :=
  r ← int_rem (CInt.wrap raw) (CInt.sub imax imin);
  Ok (CInt.add r imin).

(** One iteration of each loop of [add_object]. *)

Definition add_wall_row (buf : NDPointer Z) (i : Z) (s : state) : result state :=
  x ← at2 buf i 0;
  y ← at2 buf i 1;
  m ← map_add_wall (map s) (mkPosition x y);
  let s := with_map s m in
  k ← at2 buf i 1;
  v ← at3 buf i 0 k;
  Ok (with_walls s (walls s ++ [Position_single v])).

Definition add_light_row (buf : NDPointer Z) (i : Z) (s : state) : result state :=
  x ← at2 buf i 0;
  y ← at2 buf i 1;
  let pos := mkPosition x y in
  o ← at2 buf i 2;
  f ← at2 buf i 3;
  m ← map_add_light (map s) pos o f;
  let s := with_map s m in
  let (raw, e) := engine_call (random_engine s) in
  let s := with_random_engine s e in
  interval ← draw_interval raw (interval_min s) (interval_max s);
  o ← at2 buf i 2;
  f ← at2 buf i 3;
  Ok (with_lights s (lights s ++ [mkTrafficLight pos o f interval])).

Definition add_park_row (buf : NDPointer Z) (i : Z) (s : state) : result state :=
  x ← at2 buf i 0;
  y ← at2 buf i 1;
  m ← map_add_park (map s) (mkPosition x y);
  let s := with_map s m in
  x ← at2 buf i 0;
  y ← at2 buf i 1;
  w ← at2 buf i 2;
  h ← at2 buf i 3;
  Ok (with_parks s (parks s ++ [mkPark (mkPosition x y) w h])).

Definition add_building_row (buf : NDPointer Z) (i : Z) (s : state) : result state :=
  x0 ← at2 buf i 0;
  y0 ← at2 buf i 1;
  w ← at2 buf i 2;
  h ← at2 buf i 3;
  s ← for_loop x0 (Z.to_nat (CInt.add x0 w - x0)) (fun x s =>
         for_loop y0 (Z.to_nat (CInt.add y0 h - y0)) (fun y s =>
           m ← map_add_wall (map s) (mkPosition x y);
           Ok (with_map s m)) s) s;
  Ok (with_buildings s (buildings s ++ [mkBuilding (mkPosition x0 y0) w h])).

(** [new Agent(id_counter)], then the placement, then registration in the
    map and in the vector. *)
Definition spawn (s : state) (place : state -> result (Position * state))
    : result state :=
  let (a, c) := Agent_new (id_counter s) in
  let s := with_id_counter s c in
  let (p, h) := heap_new (heap s) a in
  let s := with_heap s h in
  '(pos, s) ← place s;
  a ← heap_get (heap s) p;
  let a := set_pos a pos in
  h ← heap_set (heap s) p a;
  let s := with_heap s h in
  m ← map_add_agent (map s) p a;
  let s := with_map s m in
  Ok (with_agents s (agents s ++ [p])).

Definition place_random (s : state) : result (Position * state) :=
  '(pos, e) ← map_get_random_blank (map s) (random_engine s);
  Ok (pos, with_random_engine s e).

Definition place_custom (buf : NDPointer Z) (i : Z) (s : state)
    : result (Position * state) :=
  x ← at2 buf i 0;
  y ← at2 buf i 1;
  Ok (mkPosition x y, s).

(** [TransCity::add_object(obj_id, n, method, linear_buffer)] *)
Definition add_object (s : state) (obj_id n : Z) (method : string)
    (linear_buffer : list Z) : result state :=
  if decide (obj_id = -1) then
    if decide (method = "custom") then
      for_loop 0 (Z.to_nat n) (add_wall_row (mkND linear_buffer [n; 2])) s
    else Ok s
  else if decide (obj_id = -2) then
    if decide (method = "custom") then
      for_loop 0 (Z.to_nat n) (add_light_row (mkND linear_buffer [n; 4])) s
    else Ok s
  else if decide (obj_id = -3) then
    if decide (method = "custom") then
      for_loop 0 (Z.to_nat n) (add_park_row (mkND linear_buffer [n; 4])) s
    else Ok s
  else if decide (obj_id = -4) then
    if decide (method = "custom") then
      for_loop 0 (Z.to_nat n) (add_building_row (mkND linear_buffer [n; 4])) s
    else Ok s
  else if decide (obj_id = 0) then
    if decide (method = "random") then
      for_loop 0 (Z.to_nat n) (fun _ s => spawn s place_random) s
    else if decide (method = "custom") then
      for_loop 0 (Z.to_nat n)
        (fun i s => spawn s (place_custom (mkND linear_buffer [n; 2]) i)) s
    else
      Fatal (String.append "unsupported method in TransCity::add_object: " method)
  else Ok s.

(** [TransCity::get_feature_size_(group)]:
    embedding + last_action + last_reward + goal. *)
Definition get_feature_size_ (s : state) (group : Z) : Z :=
  CInt.add (CInt.add (CInt.add (embedding_size s) ACT_NUM) 1) 2.

(** One iteration of the loop of [get_observation], on the pair of output
    buffers. *)
Definition observe_agent (s : state) (feature_size : Z) (i : Z)
    (bufs : list float * list float) : result (list float * list float) :=
  let (view, feat) := bufs in
  let n_channel := CHANNEL_NUM in
  let n_action := ACT_NUM in
  let fb := mkND feat [-1; feature_size] in
  p ← buf_read (agents s) i;
  agent ← heap_get (heap s) p;
  view ← map_extract_view (map s) agent view
           (CInt.mul (CInt.mul (CInt.mul i (view_height s)) (view_width s)) n_channel)
           (view_height s) (view_width s) n_channel;
  feat ← get_embedding agent feat (CInt.mul i feature_size) (embedding_size s);
  feat ← buf_write feat
           (index2 fb i (CInt.add (embedding_size s) (agent_action agent)))
           (float_of_int 1);
  feat ← buf_write feat
           (index2 fb i (CInt.add (embedding_size s) n_action))
           (agent_last_reward agent);
  let pos := agent_pos agent in
  let goal := agent_goal agent in
  feat ← buf_write feat
           (index2 fb i (CInt.add (CInt.add (embedding_size s) n_action) 1))
           (float_of_int (CInt.sub (pos_x pos) (pos_x goal)));
  feat ← buf_write feat
           (index2 fb i (CInt.add (CInt.add (embedding_size s) n_action) 2))
           (float_of_int (CInt.sub (pos_y pos) (pos_y goal)));
  Ok (view, feat).

(** [TransCity::get_observation(group, linear_buffers)]: [view] is
    [linear_buffers[0]], [feat] is [linear_buffers[1]]. *)
Definition get_observation (s : state) (group : Z) (view feat : list float)
    : result (list float * list float) :=
  let n_channel := CHANNEL_NUM in
  let feature_size := get_feature_size_ s group in
  let agent_size := Z.of_nat (length (agents s)) in
  view ← buf_zero view
           (agent_size * view_height s * view_width s * n_channel);
  feat ← buf_zero feat (agent_size * feature_size);
  for_loop 0 (length (agents s)) (observe_agent s feature_size) (view, feat).

(** [TransCity::set_action(group, actions)] *)
Definition set_action (s : state) (group : Z) (actions : list Z) : result state :=
  for_loop 0 (length (agents s)) (fun i s =>
    p ← buf_read (agents s) i;
    agent ← heap_get (heap s) p;
    act ← buf_read actions i;
    h ← heap_set (heap s) p (Agent_set_action agent act);
    Ok (with_heap s h)) s.

(** [TransCity::step(done)]: the body is empty; [done] is the content of the
    caller's cell before and after the call. *)
Definition step (s : state) (done : Z) : result (state * Z) := Ok (s, done).

(** [TransCity::get_reward(group, buffer)] *)
Definition get_reward (s : state) (group : Z) (buffer : list float)
    : result (list float) :=
  for_loop 0 (length (agents s)) (fun i buffer =>
    p ← buf_read (agents s) i;
    agent ← heap_get (heap s) p;
    buf_write buffer i (agent_reward agent)) buffer.

(** The loop state of [clear_dead]: the heap, the vector being compacted in
    place, and the write cursor [pt]. *)
Record compaction : Type :=
  mkCompaction { c_heap : Heap; c_agents : list loc; c_pt : Z }.

Definition clear_dead_body (j : Z) (c : compaction) : result compaction :=
  p ← buf_read (c_agents c) j;
  agent ← heap_get (c_heap c) p;
  if is_dead agent then
    h ← heap_delete (c_heap c) p;
    Ok (mkCompaction h (c_agents c) (c_pt c))
  else
    h ← heap_set (c_heap c) p (init_reward agent);
    v ← buf_write (c_agents c) (c_pt c) p;
    Ok (mkCompaction h v (c_pt c + 1)).

(** [TransCity::clear_dead()]; [agents.resize(pt)] only ever shrinks. *)
Definition clear_dead (s : state) : result state :=
  c ← for_loop 0 (length (agents s)) clear_dead_body
        (mkCompaction (heap s) (agents s) 0);
  Ok (with_agents (with_heap s (c_heap c)) (take (Z.to_nat (c_pt c)) (c_agents c))).

(** [TransCity::get_info(group, name, void_buffer)] *)
Definition get_info (s : state) (group : Z) (name : string)
    (buffer : list info_cell) : result (list info_cell) :=
  if decide (name = "id") then
    for_loop 0 (length (agents s)) (fun i buffer =>
      p ← buf_read (agents s) i;
      agent ← heap_get (heap s) p;
      buf_write buffer i (IntCell (agent_id agent))) buffer
  else if decide (name = "num") then
    if decide (group = 0) then
      buf_write buffer 0 (IntCell (CInt.wrap (Z.of_nat (length (agents s)))))
    else if decide (group = -1) then
      buf_write buffer 0 (IntCell 0)
    else Ok buffer
  else if decide (name = "alive") then
    for_loop 0 (length (agents s)) (fun i buffer =>
      p ← buf_read (agents s) i;
      agent ← heap_get (heap s) p;
      buf_write buffer i (BoolCell (negb (is_dead agent)))) buffer
  else if decide (name = "action_space") then
    buf_write buffer 0 (IntCell ACT_NUM)
  else if decide (name = "view_space") then
    buffer ← buf_write buffer 0 (IntCell (view_height s));
    buffer ← buf_write buffer 1 (IntCell (view_width s));
    buf_write buffer 2 (IntCell CHANNEL_NUM)
  else if decide (name = "feature_space") then
    buf_write buffer 0 (IntCell (get_feature_size_ s group))
  else
    Fatal (String.append "unsupported info name in TransCity::get_info : " name).

(** The calls a driver makes between two resets that the population
    invariants are about. *)
Inductive call : Type :=
  | AddObject (obj_id n : Z) (method : string) (linear_buffer : list Z)
  | ClearDead.

Definition run_call (s : state) (c : call) : result state :=
  match c with
  | AddObject obj_id n method linear_buffer =>
      add_object s obj_id n method linear_buffer
  | ClearDead => clear_dead s
  end.

Fixpoint run (s : state) (cs : list call) : result state :=
  match cs with
  | [] => Ok s
  | c :: cs' => s' ← run_call s c; run s' cs'
  end.

End Engine.

Arguments state Map Engine : clear implicits.

End TransCity.

(** ** A concrete city, for running the engine

    The classes behind the two interfaces are not in the sources; the
    general results below hold for every implementation, and the examples
    run on the following one. *)

(** [std::minstd_rand0], the engine that [std::default_random_engine] names
    in libstdc++: x' = 16807 x mod (2^31 - 1). [seed(int)] first converts
    its argument to the engine's [result_type], [uint_fast32_t], a 64-bit
    unsigned integer on LP64 Linux; the state is that value modulo
    2^31 - 1, and 1 when this is 0. *)
Definition minstd_rand0 : Type := Z.

Definition minstd_rand0_seed (v : Z) : minstd_rand0 :=
  let u := v mod 18446744073709551616 in
  if decide (u mod 2147483647 = 0) then 1 else u mod 2147483647.

#[global] Instance minstd_rand0_ops : EngineOps minstd_rand0 := {|
  engine_default := 1;
  engine_seed _ v := minstd_rand0_seed v;
  engine_call e := let x := (16807 * e) mod 2147483647 in (x, x)
|}.

Inductive tag : Type :=
  | TagWall
  | TagPark
  | TagLight (orientation offset : Z)
  | TagAgent (p : loc).

#[global] Instance tag_eq_dec : EqDecision tag.
Proof. solve_decision. Defined.

(** Modelled from the spec: class [Map] is missing from the sources. Per
    the spec's contract of the Spatial Map, a cell holds at most one
    occupant tag; placing a static object is idempotent and fails on a cell
    taken by something else; [add_agent] fails unless the cell is empty;
    [get_random_blank] samples with the supplied engine and a bounded
    number of retries; [reset] reseeds the map from the wall list; the view
    marks one channel per category and treats cells outside the grid as
    wall. *)
Record GridMap : Type :=
  mkGrid { cells : gmap (Z * Z) tag; grid_w : Z; grid_h : Z }.

Definition cell_key (p : Position) : Z * Z := (pos_x p, pos_y p).

Definition grid_place (m : GridMap) (p : Position) (t : tag) : result GridMap :=
  match cells m !! cell_key p with
  | None => Ok (mkGrid (<[cell_key p := t]> (cells m)) (grid_w m) (grid_h m))
  | Some t' =>
      if decide (t' = t) then Ok m
      else Fatal "Map: the cell is occupied"
  end.

Definition grid_add_agent (m : GridMap) (p : loc) (a : Agent) : result GridMap :=
  match cells m !! cell_key (agent_pos a) with
  | None =>
      Ok (mkGrid (<[cell_key (agent_pos a) := TagAgent p]> (cells m))
            (grid_w m) (grid_h m))
  | Some _ => Fatal "Map::add_agent: the cell is not empty"
  end.

Definition grid_reset (m : GridMap) (ws : list Position) (w h : Z)
    : result GridMap :=
  Ok (mkGrid (list_to_map ((fun p => (cell_key p, TagWall)) <$> ws)) w h).

Fixpoint grid_sample `{EngineOps Engine} (m : GridMap) (e : Engine)
    (retries : nat) : result (Position * Engine) :=
  match retries with
  | O => Fatal "Map::get_random_blank: no blank cell found"
  | S retries' =>
      let (rx, e1) := engine_call e in
      let (ry, e2) := engine_call e1 in
      let pos := mkPosition (rx mod grid_w m) (ry mod grid_h m) in
      match cells m !! cell_key pos with
      | None => Ok (pos, e2)
      | Some _ => grid_sample m e2 retries'
      end
  end.

Definition grid_get_random_blank `{EngineOps Engine} (m : GridMap) (e : Engine)
    : result (Position * Engine) :=
  if decide (0 < grid_w m /\ 0 < grid_h m) then grid_sample m e 64
  else Fatal "Map::get_random_blank: empty grid".

Definition grid_channel (m : GridMap) (x y : Z) : option Z :=
  if decide (0 <= x < grid_w m /\ 0 <= y < grid_h m) then
    match cells m !! (x, y) with
    | None => None
    | Some TagWall => Some 0
    | Some TagPark => Some 1
    | Some (TagLight _ _) => Some 2
    | Some (TagAgent _) => Some 3
    end
  else Some 0.

Definition grid_extract_view (m : GridMap) (a : Agent) (view : list float)
    (off vh vw nch : Z) : result (list float) :=
  for_loop 0 (Z.to_nat vh) (fun r view =>
    for_loop 0 (Z.to_nat vw) (fun c view =>
      match grid_channel m (pos_x (agent_pos a) - vw / 2 + c)
                           (pos_y (agent_pos a) - vh / 2 + r) with
      | Some ch =>
          if decide (ch < nch) then
            buf_write view (off + (r * vw + c) * nch + ch) (float_of_int 1)
          else Ok view
      | None => Ok view
      end) view) view.

#[global] Instance GridMap_ops `{EngineOps Engine} : MapOps GridMap Engine := {|
  map_default := mkGrid ∅ 0 0;
  map_reset := grid_reset;
  map_add_wall m p := grid_place m p TagWall;
  map_add_light m p o f := grid_place m p (TagLight o f);
  map_add_park m p := grid_place m p TagPark;
  map_add_agent := grid_add_agent;
  map_get_random_blank := grid_get_random_blank;
  map_extract_view := grid_extract_view
|}.

(** Five actions, four view channels, the binary digits of the id as
    embedding; [d] is the stray third dimension. *)
Definition city_headers (d : Z) : Headers := {|
  ACT_NUM := 5;
  CHANNEL_NUM := 4;
  embedding_component id k := float_of_int (Z.land (Z.shiftr id (Z.of_nat k)) 1);
  dim_beyond := d
|}.

(** A freshly constructed and reset engine over the concrete city, on the
    default 100 x 100 grid with a 3 x 3 view. *)
Definition city0 : result (TransCity.state GridMap minstd_rand0) :=
  TransCity.reset (TransCity.construct 0 true 3 3).

Import TransCity.

(** ** Vocabulary of the statements *)

(** The flag of the object behind a pointer; a dangling pointer is neither
    a survivor nor a dead agent. *)
Definition survives (h : Heap) (p : loc) : bool :=
  match objs h !! p with
  | Some a => negb (is_dead a)
  | None => false
  end.

Definition dead_at (h : Heap) (p : loc) : bool :=
  match objs h !! p with
  | Some a => is_dead a
  | None => false
  end.

(** What [clear_dead] makes of one agent object. *)
Definition compacted (a : Agent) : option Agent :=
  if is_dead a then None else Some (init_reward a).

(** The state of the loop of [clear_dead] after [k] iterations over the
    vector [l0] on the heap [h0]. *)
Definition compaction_at (h0 : Heap) (l0 : list loc) (k : nat)
    (c : compaction) : Prop :=
  let kept := filter (fun p => survives h0 p) (take k l0) in
  c_pt c = Z.of_nat (length kept) /\
  length (c_agents c) = length l0 /\
  take (length kept) (c_agents c) = kept /\
  drop k (c_agents c) = drop k l0 /\
  next_loc (c_heap c) = next_loc h0 /\
  forall p, objs (c_heap c) !! p =
    if decide (p ∈ take k l0) then objs h0 !! p ≫= compacted
    else objs h0 !! p.

Section Vocabulary.

Context {Map Engine : Type}.

Local Abbreviation state := (TransCity.state Map Engine).

(** Every pointer of the vector is distinct and points to a live object. *)
Definition population_valid (s : state) : Prop :=
  NoDup (agents s) /\
  forall p, p ∈ agents s -> is_Some (objs (heap s) !! p).

Definition survivors (s : state) : list loc :=
  filter (fun p => survives (heap s) p) (agents s).

Definition live_count (s : state) : nat := length (survivors s).

Definition dead_count (s : state) : nat :=
  length (filter (fun p => dead_at (heap s) p) (agents s)).

(** The id discipline: valid pointers, all allocated below the heap's
    cursor; every id below the counter; one id, one agent. *)
Definition ids_wellformed (s : state) : Prop :=
  population_valid s /\
  CInt.in_int (id_counter s) /\
  (forall p, p ∈ agents s -> (p < next_loc (heap s))%nat) /\
  (forall p a, p ∈ agents s -> objs (heap s) !! p = Some a ->
     agent_id a < id_counter s) /\
  (forall p q a b, p ∈ agents s -> q ∈ agents s ->
     objs (heap s) !! p = Some a -> objs (heap s) !! q = Some b ->
     agent_id a = agent_id b -> p = q).

(** How the population of [s'] relates to that of an earlier [s]: the
    counter has not gone back, and every agent either was already there,
    with the id it has now, or carries an id handed out since. *)
Definition kept_or_fresh (s s' : state) : Prop :=
  id_counter s <= id_counter s' /\
  forall p a', p ∈ agents s' -> objs (heap s') !! p = Some a' ->
    (p ∈ agents s /\
     exists a, objs (heap s) !! p = Some a /\ agent_id a' = agent_id a) \/
    id_counter s <= agent_id a' < id_counter s'.

(** The engine after one call, and the raw value of its [j]-th next call. *)
Definition advance `{EngineOps Engine} (e : Engine) : Engine := (engine_call e).2.

Definition nth_raw `{EngineOps Engine} (e : Engine) (j : nat) : Z :=
  (engine_call (Nat.iter j advance e)).1.

(** The lights appended to [s] are [new], one engine call each, in order. *)
Definition lights_drawn `{EngineOps Engine} (s s1 : state)
    (new : list TrafficLight) : Prop :=
  lights s1 = lights s ++ new /\
  interval_min s1 = interval_min s /\
  interval_max s1 = interval_max s /\
  random_engine s1 = Nat.iter (length new) advance (random_engine s) /\
  forall j l, new !! j = Some l ->
    draw_interval (nth_raw (random_engine s) j) (interval_min s) (interval_max s)
    = Ok (light_interval l).

(** The tail of agent [i]'s slice of the feature buffer: the cell after the
    action one-hot holds the last reward, the last two cells hold the
    position minus the goal, coordinate by coordinate. *)
Definition goal_entries `{Headers} (s : state) (feat : list float) (i : Z)
    (a : Agent) : Prop :=
  let fs := embedding_size s + ACT_NUM + 1 + 2 in
  buf_read feat (i * fs + embedding_size s + ACT_NUM)
    = Ok (agent_last_reward a) /\
  buf_read feat ((i + 1) * fs - 2)
    = Ok (float_of_int (CInt.sub (pos_x (agent_pos a)) (pos_x (agent_goal a)))) /\
  buf_read feat ((i + 1) * fs - 1)
    = Ok (float_of_int (CInt.sub (pos_y (agent_pos a)) (pos_y (agent_goal a)))).

(** A placement touches neither the heap, nor the vector, nor the counter. *)
Definition place_frame (place : state -> result (Position * state)) : Prop :=
  forall s pos s1, place s = Ok (pos, s1) ->
    heap s1 = heap s /\ agents s1 = agents s /\ id_counter s1 = id_counter s.

(** The part of the state that only the car branch and [clear_dead] touch. *)
Definition population (s : state) : Heap * list loc * Z :=
  (heap s, agents s, id_counter s).

End Vocabulary.

(** Number of cars that a list of calls asks for. *)
Definition cars_requested (cs : list call) : Z :=
  foldr (fun c acc =>
           match c with
           | AddObject obj_id n _ _ =>
               if decide (obj_id = 0) then Z.of_nat (Z.to_nat n) + acc else acc
           | ClearDead => acc
           end) 0 cs.

(** ** The remaining members, and further vocabulary *)

(** The keys that [set_config] knows, and the names that [get_info] knows. *)
Definition config_keys : list string :=
  ["map_width"; "map_height"; "view_width"; "view_height"; "interval_min";
   "interval_max"; "embedding_size"; "render_dir"; "seed"].

Definition info_names : list string :=
  ["id"; "num"; "alive"; "action_space"; "view_space"; "feature_space"].

(** What a gathering loop ([get_info("id")], [get_info("alive")],
    [get_reward]) collects: [f] of the object behind each pointer, in the
    order of the vector. *)
Definition gathered {A} (h : Heap) (l : list loc) (f : Agent -> A) : list A :=
  omap (fun p => f <$> objs h !! p) l.

(** The calls that the engine makes on its [render_generator], whose class
    is outside the translated file; a frame is handed the five vectors. *)
Inductive render_call : Type :=
  | GenConfig (w h : Z)
  | RenderFrame (ags : list loc) (ws : list Position) (ls : list TrafficLight)
                (ps : list Park) (bs : list Building)
  | NextFile.

Section Lifecycle.

Context {Map Engine : Type}.

Local Abbreviation state := (TransCity.state Map Engine).

(** [TransCity::~TransCity()]: [for (auto agent : agents) delete agent;];
    what is left of the heap. *)
Definition destroy (s : state) : result Heap := delete_all (heap s) (agents s).

Definition with_first_render (s : state) (b : bool) : state :=
  mkState (map s) (heap s) (agents s) (walls s) (lights s) (parks s)
    (buildings s) (id_counter s) b (width s) (height s) (view_width s)
    (view_height s) (embedding_size s) (interval_min s) (interval_max s)
    (render_dir s) (random_engine s).

(** [TransCity::render()]: the new state and the calls made on the
    renderer, in order. *)
Definition render (s : state) : state * list render_call :=
  let frame s :=
    RenderFrame (agents s) (walls s) (lights s) (parks s) (buildings s) in
  if first_render s then
    let s := with_first_render s false in
    (s, [GenConfig (width s) (height s); frame s])
  else (s, [frame s]).

(** [TransCity::render_next_file()] *)
Definition render_next_file (s : state) : state * list render_call :=
  (s, [NextFile]).

(** [k] calls of [render] in a row. *)
Fixpoint render_times (k : nat) (s : state) : state * list render_call :=
  match k with
  | O => (s, [])
  | S k' =>
      let (s1, out1) := render s in
      let (s2, out2) := render_times k' s1 in
      (s2, out1 ++ out2)
  end.

(** The registries and options that a call may or may not touch. *)
Definition scenery (s : state)
    : list Position * list TrafficLight * list Park * list Building :=
  (walls s, lights s, parks s, buildings s).

End Lifecycle.

(** The raw values, among the [len] consecutive ones from [lo], from which
    a new light gets the interval [v]. *)
Definition raws_giving (imin imax v lo len : Z) : list Z :=
  filter (fun raw => draw_interval raw imin imax = Ok v) (seqZ lo len).

(** The draw is uniform over a range of raw values when every interval of
    [imin, imax) comes from equally many of them. *)
Definition evenly_drawn (imin imax lo len : Z) : Prop :=
  forall v1 v2, imin <= v1 < imax -> imin <= v2 < imax ->
    length (raws_giving imin imax v1 lo len)
    = length (raws_giving imin imax v2 lo len).

(** The values that [std::minstd_rand0] returns: [min()] to [max()]. *)
Definition minstd_rand0_min : Z := 1.
Definition minstd_rand0_max : Z := 2147483646.

(** The states of [std::minstd_rand0], 1 to 2^31 - 2, from which the next
    light gets the interval [v]. *)
Definition states_giving (imin imax v : Z) : list minstd_rand0 :=
  filter (fun e => draw_interval (engine_call e).1 imin imax = Ok v)
         (seqZ 1 2147483646).

(** The cells that a building covers, in the order in which the building
    branch of [add_object] walks them: column by column. *)
Definition footprint (b : Building) : list Position :=
  x ← seqZ (pos_x (building_pos b)) (building_w b);
  (fun y => mkPosition x y) <$> seqZ (pos_y (building_pos b)) (building_h b).

Section Walls.

Context {Map Engine : Type} `{MO : !MapOps Map Engine}.

(** [map.add_wall] on a list of cells, one after the other. *)
Fixpoint add_walls (m : Map) (ps : list Position) : result Map :=
  match ps with
  | [] => Ok m
  | p :: ps' => m' ← map_add_wall m p; add_walls m' ps'
  end.

End Walls.

(** Cell [c] of the feature slice that [get_observation] writes for agent
    [a]: the embedding, then the one-hot of the action, then the last
    reward, then position minus goal. *)
Definition feature_cell `{Headers} {Map Engine : Type}
    (s : TransCity.state Map Engine) (a : Agent) (c : Z) : float :=
  if decide (c < embedding_size s) then
    embedding_component (agent_id a) (Z.to_nat c)
  else if decide (c < embedding_size s + ACT_NUM) then
    if decide (c = embedding_size s + agent_action a) then float_of_int 1
    else float_zero
  else if decide (c = embedding_size s + ACT_NUM) then agent_last_reward a
  else if decide (c = embedding_size s + ACT_NUM + 1) then
    float_of_int (CInt.sub (pos_x (agent_pos a)) (pos_x (agent_goal a)))
  else
    float_of_int (CInt.sub (pos_y (agent_pos a)) (pos_y (agent_goal a))).

(** ** Scenarios *)

Definition city := state GridMap minstd_rand0.

(** Two cars placed by hand on the fresh city. *)
Definition two_cars : result city :=
  s ← city0;
  add_object (Hdr := city_headers 0) s 0 2 "custom" [3; 1; 4; 4].

(** One light and one car, the car then flagged dead (the flag is a member
    of the agent; nothing in the translated file sets it). *)
Definition kill (s : city) (p : loc) : result city :=
  a ← heap_get (heap s) p;
  h ← heap_set (heap s) p
        (mkAgent (agent_id a) (agent_pos a) (agent_goal a) (agent_action a)
                 (agent_last_reward a) (agent_reward a) true);
  Ok (with_heap s h).

Definition light_and_dead_car : result city :=
  s ← city0;
  s ← add_object (Hdr := city_headers 0) s (-2) 1 "custom" [1; 1; 0; 0];
  s ← add_object (Hdr := city_headers 0) s 0 1 "custom" [2; 2];
  kill s 0%nat.

(** One car at (3, 1) whose goal is then set to (5, 7) (the goal is a member
    of the agent; nothing in the translated file sets it). *)
Definition set_goal (s : city) (p : loc) (g : Position) : result city :=
  a ← heap_get (heap s) p;
  h ← heap_set (heap s) p
        (mkAgent (agent_id a) (agent_pos a) g (agent_action a)
                 (agent_last_reward a) (agent_reward a) (agent_dead a));
  Ok (with_heap s h).

Definition car_with_goal : result city :=
  s ← city0;
  s ← add_object (Hdr := city_headers 0) s 0 1 "custom" [3; 1];
  set_goal s 0%nat (mkPosition 5 7).

(** The engine state a scenario ends in. *)
Definition outcome (r : result city) : city :=
  match r with
  | Ok s => s
  | _ => construct 0 true 3 3
  end.

Definition fresh_city : city := outcome city0.

(** A reward credited to a car (likewise a member that only the absent
    step logic would write). *)
Definition credit (s : city) (p : loc) (r : float) : result city :=
  a ← heap_get (heap s) p;
  h ← heap_set (heap s) p
        (mkAgent (agent_id a) (agent_pos a) (agent_goal a) (agent_action a)
                 (agent_last_reward a) r (agent_dead a));
  Ok (with_heap s h).

(** Two cars, the first one flagged dead, the second one holding a reward
    of 3. *)
Definition mixed_city : city :=
  outcome (s ← two_cars; s ← kill s 0%nat; credit s 1%nat (float_of_int 3)).

(** Compaction, one more car at a sampled cell, one wall. *)
Definition busy_calls : list call :=
  [ClearDead; AddObject 0 1 "random" []; AddObject (-1) 1 "custom" [9; 1]].

Definition busy_city : city :=
  outcome (run (Hdr := city_headers 0) mixed_city busy_calls).

Definition goal_city : city := outcome car_with_goal.

Definition two_lights : list Z := [1; 1; 0; 0; 2; 2; 1; 0].

Definition lit_city : city :=
  outcome (add_object (Hdr := city_headers 0) fresh_city (-2) 2 "custom" two_lights).

(** What [get_observation] writes for the car with a goal, into zeroed
    buffers of the exact sizes. *)
Definition goal_observation : list float * list float :=
  match get_observation (Hdr := city_headers 0) goal_city 0
          (replicate 36 float_zero) (replicate 24 float_zero) with
  | Ok bufs => bufs
  | _ => ([], [])
  end.

(** One car; then the same city after the car is flagged dead, compacted
    away, the engine reset and a second car injected. *)
Definition first_car : result city :=
  s ← city0;
  add_object (Hdr := city_headers 0) s 0 1 "custom" [3; 1].

Definition second_car : result city :=
  s ← first_car;
  s ← kill s 0%nat;
  s ← clear_dead s;
  s ← reset s;
  add_object (Hdr := city_headers 0) s 0 1 "custom" [4; 4].

(** Further states of the concrete city. *)
Definition wide_city : city :=
  outcome (set_config fresh_city "map_width" (bytes_of_int 50)).

Definition mixed_reset : city := outcome (reset mixed_city).

Definition mixed_compacted : city := outcome (clear_dead mixed_city).

Definition walled_city : city :=
  outcome (add_object (Hdr := city_headers 0) fresh_city (-1) 1 "custom" [3; 0]).

Definition flat_city : city :=
  outcome (set_config fresh_city "interval_max" (bytes_of_int 10)).

Definition two_car_city : city := outcome two_cars.

Definition park_city : city :=
  outcome (add_object (Hdr := city_headers 0) fresh_city (-3) 1 "custom" [5; 5; 2; 3]).

Definition built_city : city :=
  outcome (add_object (Hdr := city_headers 0) fresh_city (-4) 1 "custom" [6; 6; 2; 2]).

Definition acted_city : city := outcome (set_action goal_city 0 [2]).

Definition acted_observation : list float * list float :=
  match get_observation (Hdr := city_headers 0) acted_city 0
          (replicate 36 float_zero) (replicate 24 float_zero) with
  | Ok bufs => bufs
  | _ => ([], [])
  end.

(** * Facts *)

(** ** Integers, outcomes, buffers *)

Lemma wrap_id z : CInt.in_int z -> CInt.wrap z = z.
Proof.
  unfold CInt.in_int, CInt.wrap, CInt.INT_MIN, CInt.INT_MAX. intros Hz.
  rewrite Z.mod_small by lia. lia.
Qed.

Lemma bind_Ok {A B} (f : A -> result B) (r : result A) (b : B) :
  r ≫= f = Ok b <-> exists a, r = Ok a /\ f a = Ok b.
Proof.
  destruct r as [a| |]; simpl; split.
  - intros H. exists a. split; [reflexivity | exact H].
  - intros (a' & Ha & Hf). inversion Ha; subst. exact Hf.
  - discriminate.
  - intros (a' & Ha & _). discriminate.
  - discriminate.
  - intros (a' & Ha & _). discriminate.
Qed.

Lemma buf_write_read_eq {A} (b b' : list A) i v :
  buf_write b i v = Ok b' -> buf_read b' i = Ok v.
Proof.
  unfold buf_write, buf_read. case_decide as Hi; [|discriminate].
  intros [= <-]. rewrite decide_True by lia.
  rewrite list_lookup_insert_eq by lia. reflexivity.
Qed.

Lemma buf_write_read_ne {A} (b b' : list A) i j v :
  buf_write b i v = Ok b' -> i <> j -> buf_read b' j = buf_read b j.
Proof.
  unfold buf_write, buf_read. case_decide as Hi; [|discriminate].
  intros [= <-] Hne. case_decide; [|reflexivity].
  rewrite list_lookup_insert_ne by lia. reflexivity.
Qed.


Lemma for_loop_invariant {St : Type} (P : nat -> St -> Prop)
    (body : Z -> St -> result St) (n : nat) :
  forall (from : Z) (s s' : St),
    P 0%nat s ->
    (forall (k : nat) s1 s2, (k < n)%nat -> P k s1 ->
       body (from + Z.of_nat k) s1 = Ok s2 -> P (S k) s2) ->
    for_loop from n body s = Ok s' -> P n s'.
Proof.
  revert P. induction n as [|n IH]; intros P from s s' H0 Hstep Hrun.
  - simpl in Hrun. injection Hrun as <-. exact H0.
  - simpl in Hrun. apply bind_Ok in Hrun as (s1 & Hb & Hrest).
    apply (IH (fun k => P (S k)) (from + 1) s1 s'); [| |exact Hrest].
    + apply (Hstep 0%nat s s1); [lia|exact H0|].
      rewrite Z.add_0_r. exact Hb.
    + intros k t1 t2 Hk HP Hbody. apply (Hstep (S k) t1 t2); [lia|exact HP|].
      rewrite <- Hbody. f_equal. lia.
Qed.

Lemma for_loop_total {St : Type} (P : nat -> St -> Prop)
    (body : Z -> St -> result St) (n : nat) :
  forall (from : Z) (s : St),
    P 0%nat s ->
    (forall (k : nat) s1, (k < n)%nat -> P k s1 ->
       exists s2, body (from + Z.of_nat k) s1 = Ok s2 /\ P (S k) s2) ->
    exists s', for_loop from n body s = Ok s' /\ P n s'.
Proof.
  revert P. induction n as [|n IH]; intros P from s H0 Hstep.
  - exists s. split; [reflexivity|exact H0].
  - destruct (Hstep 0%nat s ltac:(lia) H0) as (s1 & Hb & H1).
    rewrite Z.add_0_r in Hb.
    destruct (IH (fun k => P (S k)) (from + 1) s1 H1) as (s' & Hrun & Hn).
    + intros k t1 Hk HP.
      destruct (Hstep (S k) t1 ltac:(lia) HP) as (t2 & Hbody & HP2).
      exists t2. split; [|exact HP2]. rewrite <- Hbody. f_equal. lia.
    + exists s'. split; [|exact Hn]. simpl. rewrite Hb. exact Hrun.
Qed.

(** ** The engine *)

Section EngineFacts.

Context `{Hdr : Headers} {Map Engine : Type}.
Context `{EO : !EngineOps Engine} `{MO : !MapOps Map Engine}.

Local Abbreviation state := (TransCity.state Map Engine).

(** C3 (as amended). [step] is a stub: every call returns normally and
    leaves both the whole simulation state (lights included) and the
    caller's [done] cell exactly as they were. *)
Theorem step_is_identity (s : state) (done : Z) :
  step s done = Ok (s, done).
Proof. reflexivity. Qed.

Lemma add_object_other_category (s : state) obj_id n method linear_buffer :
  obj_id <> -1 -> obj_id <> -2 -> obj_id <> -3 -> obj_id <> -4 -> obj_id <> 0 ->
  add_object s obj_id n method linear_buffer = Ok s.
Proof.
  intros. unfold add_object. repeat (rewrite decide_False by assumption).
  reflexivity.
Qed.

Lemma add_object_static_other_method (s : state) obj_id n method linear_buffer :
  obj_id = -1 \/ obj_id = -2 \/ obj_id = -3 \/ obj_id = -4 ->
  method <> "custom" ->
  add_object s obj_id n method linear_buffer = Ok s.
Proof.
  intros Hc Hm. unfold add_object.
  destruct Hc as [-> | [-> | [-> | ->]]]; repeat case_decide; try reflexivity;
    congruence || lia.
Qed.

Lemma add_object_car_other_method (s : state) n method linear_buffer :
  method <> "random" -> method <> "custom" ->
  add_object s 0 n method linear_buffer =
  Fatal (String.append "unsupported method in TransCity::add_object: " method).
Proof.
  intros H1 H2. unfold add_object.
  repeat case_decide; try reflexivity; congruence || lia.
Qed.

(** C7 (the code at the failing inputs). An unknown category id, and an
    unknown placement method of a static category, make [add_object] return
    normally with the engine untouched; only the car branch aborts on an
    unknown method. *)
Theorem add_object_unknown_is_silent (s : state) (n : Z) (linear_buffer : list Z) :
  add_object s 5 n "custom" linear_buffer = Ok s /\
  add_object s (-1) n "random" linear_buffer = Ok s /\
  add_object s 0 n "nowhere" linear_buffer =
    Fatal "unsupported method in TransCity::add_object: nowhere".
Proof.
  split; [|split].
  - apply add_object_other_category; lia.
  - apply add_object_static_other_method; [left; reflexivity|discriminate].
  - apply add_object_car_other_method; discriminate.
Qed.

Lemma feature_size_exact (s : state) (group : Z) :
  CInt.in_int (embedding_size s) -> 0 <= ACT_NUM ->
  embedding_size s + ACT_NUM + 1 + 2 <= CInt.INT_MAX ->
  get_feature_size_ s group = embedding_size s + ACT_NUM + 1 + 2.
Proof.
  unfold get_feature_size_, CInt.add, CInt.in_int, CInt.INT_MIN, CInt.INT_MAX.
  intros He Ha Hs.
  rewrite (wrap_id (embedding_size s + ACT_NUM))
    by (unfold CInt.in_int, CInt.INT_MIN, CInt.INT_MAX; lia).
  rewrite (wrap_id (embedding_size s + ACT_NUM + 1))
    by (unfold CInt.in_int, CInt.INT_MIN, CInt.INT_MAX; lia).
  apply wrap_id. unfold CInt.in_int, CInt.INT_MIN, CInt.INT_MAX. lia.
Qed.

Lemma index2_exact {A} (data : list A) (d0 d1 i j : Z) :
  0 <= i -> 0 <= j < d1 -> (i + 1) * d1 <= CInt.INT_MAX ->
  index2 (mkND data [d0; d1]) i j = i * d1 + j.
Proof.
  intros Hi Hj Hb. unfold index2, nd_dim_at, CInt.add, CInt.mul. simpl.
  unfold CInt.INT_MAX in Hb.
  rewrite (wrap_id (i * d1))
    by (unfold CInt.in_int, CInt.INT_MIN, CInt.INT_MAX; nia).
  apply wrap_id. unfold CInt.in_int, CInt.INT_MIN, CInt.INT_MAX. nia.
Qed.

Lemma clear_dead_body_step (h0 : Heap) (l0 : list loc) (k : nat) (c : compaction) :
  NoDup l0 -> (forall p, p ∈ l0 -> is_Some (objs h0 !! p)) ->
  (k < length l0)%nat -> compaction_at h0 l0 k c ->
  exists c', clear_dead_body (0 + Z.of_nat k) c = Ok c' /\
             compaction_at h0 l0 (S k) c'.
Proof.
  intros Hnd Hlive Hk (Hpt & Hlen & Htake & Hdrop & Hnext & Hheap).
  destruct (lookup_lt_is_Some_2 l0 k Hk) as [p Hp].
  set (kept := filter (fun p => survives h0 p) (take k l0)) in *.
  assert (Hkept : (length kept <= k)%nat).
  { unfold kept. etransitivity; [apply length_filter|].
    rewrite length_take. lia. }
  assert (Hcur : c_agents c !! k = Some p).
  { apply (f_equal (fun l => l !! 0%nat)) in Hdrop.
    rewrite !lookup_drop, Nat.add_0_r in Hdrop. congruence. }
  assert (Hfresh : p ∉ take k l0).
  { intros (i & Hi & Hlt)%elem_of_take.
    pose proof (NoDup_lookup l0 i k p Hnd Hi Hp). lia. }
  destruct (Hlive p (list_elem_of_lookup_2 _ _ _ Hp)) as [a Ha].
  assert (Hobj : objs (c_heap c) !! p = Some a).
  { rewrite Hheap, decide_False by exact Hfresh. exact Ha. }
  assert (Htk : take (S k) l0 = take k l0 ++ [p]) by (apply take_S_r; exact Hp).
  assert (Hdrop' : forall v, drop k v = drop k l0 -> drop (S k) v = drop (S k) l0).
  { intros v Hv. replace (S k) with (k + 1)%nat by lia.
    rewrite <- !drop_drop, Hv. reflexivity. }
  unfold clear_dead_body, buf_read.
  rewrite decide_True by lia.
  replace (Z.to_nat (0 + Z.of_nat k)) with k by lia.
  rewrite Hcur. simpl. unfold heap_get. rewrite Hobj. simpl.
  destruct (is_dead a) eqn:Hdead.
  - unfold heap_delete. rewrite Hobj. simpl. eexists. split; [reflexivity|].
    unfold compaction_at. simpl. rewrite Htk, filter_app.
    assert (Hnil : filter (fun p => survives h0 p) [p] = []).
    { apply filter_singleton_False; [exact []|].
      unfold survives. rewrite Ha, Hdead. simpl. tauto. }
    rewrite Hnil, app_nil_r. fold kept.
    repeat split; try assumption.
    + apply Hdrop'. exact Hdrop.
    + intros q. destruct (decide (q = p)) as [->|Hne].
      * rewrite lookup_delete_eq, decide_True
          by (apply elem_of_app; right; apply list_elem_of_singleton; reflexivity).
        rewrite Ha. simpl. unfold compacted. rewrite Hdead. reflexivity.
      * rewrite lookup_delete_ne by congruence. rewrite Hheap.
        destruct (decide (q ∈ take k l0)) as [Hin|Hnin].
        -- rewrite decide_True by (apply elem_of_app; left; exact Hin).
           reflexivity.
        -- rewrite decide_False; [reflexivity|].
           intros [Hin|Hin%list_elem_of_singleton]%elem_of_app; tauto.
  - unfold heap_set. rewrite Hobj. simpl. unfold buf_write.
    rewrite decide_True by lia. simpl. eexists. split; [reflexivity|].
    unfold compaction_at. simpl. rewrite Htk, filter_app.
    assert (Hone : filter (fun p => survives h0 p) [p] = [p]).
    { apply filter_singleton_True; [exact []|].
      unfold survives. rewrite Ha, Hdead. simpl. tauto. }
    rewrite Hone. fold kept. rewrite length_app. simpl.
    rewrite Hpt. replace (Z.to_nat (Z.of_nat (length kept))) with (length kept) by lia.
    repeat split.
    + lia.
    + rewrite length_insert. exact Hlen.
    + replace (length kept + 1)%nat with (S (length kept)) by lia.
      rewrite (take_S_r _ _ p) by (apply list_lookup_insert_eq; lia).
      rewrite take_insert_ge by lia. rewrite Htake. reflexivity.
    + rewrite drop_insert_lt by lia. apply Hdrop'. exact Hdrop.
    + exact Hnext.
    + intros q. destruct (decide (q = p)) as [->|Hne].
      * rewrite lookup_insert_eq, decide_True
          by (apply elem_of_app; right; apply list_elem_of_singleton; reflexivity).
        rewrite Ha. simpl. unfold compacted. rewrite Hdead. reflexivity.
      * rewrite lookup_insert_ne by congruence. rewrite Hheap.
        destruct (decide (q ∈ take k l0)) as [Hin|Hnin].
        -- rewrite decide_True by (apply elem_of_app; left; exact Hin).
           reflexivity.
        -- rewrite decide_False; [reflexivity|].
           intros [Hin|Hin%list_elem_of_singleton]%elem_of_app; tauto.
Qed.

Lemma clear_dead_loop (h0 : Heap) (l0 : list loc) :
  NoDup l0 -> (forall p, p ∈ l0 -> is_Some (objs h0 !! p)) ->
  exists c, for_loop 0 (length l0) clear_dead_body (mkCompaction h0 l0 0) = Ok c /\
            compaction_at h0 l0 (length l0) c.
Proof.
  intros Hnd Hlive.
  apply (for_loop_total (compaction_at h0 l0)).
  - unfold compaction_at. simpl. rewrite take_0, drop_0. simpl.
    do 5 (split; [reflexivity|]). intros p. reflexivity.
  - intros k c Hk Hc. apply clear_dead_body_step; assumption.
Qed.

Lemma clear_dead_spec (s : state) :
  population_valid s ->
  exists s', clear_dead s = Ok s' /\
    agents s' = survivors s /\
    id_counter s' = id_counter s /\
    next_loc (heap s') = next_loc (heap s) /\
    forall p, objs (heap s') !! p =
      if decide (p ∈ agents s) then objs (heap s) !! p ≫= compacted
      else objs (heap s) !! p.
Proof.
  intros [Hnd Hlive].
  destruct (clear_dead_loop (heap s) (agents s) Hnd Hlive) as (c & Hrun & Hc).
  destruct Hc as (Hpt & Hlen & Htake & Hdrop & Hnext & Hheap).
  assert (Hfull : take (length (agents s)) (agents s) = agents s)
    by (apply take_ge; lia).
  rewrite Hfull in Hpt, Htake, Hheap.
  exists (with_agents (with_heap s (c_heap c))
            (take (Z.to_nat (c_pt c)) (c_agents c))).
  split; [unfold clear_dead; rewrite Hrun; reflexivity|].
  simpl. rewrite Hpt, Nat2Z.id, Htake. repeat split; assumption.
Qed.

Lemma survives_or_dead (h : Heap) (l : list loc) :
  (forall p, p ∈ l -> is_Some (objs h !! p)) ->
  (length (filter (fun p => survives h p) l)
   + length (filter (fun p => dead_at h p) l) = length l)%nat.
Proof.
  induction l as [|p l IH]; intros Hlive; [reflexivity|].
  destruct (Hlive p ltac:(left)) as [a Ha].
  assert (IH' := IH (fun q Hq => Hlive q ltac:(right; exact Hq))).
  assert (Hs : survives h p = negb (is_dead a))
    by (unfold survives; rewrite Ha; reflexivity).
  assert (Hd : dead_at h p = is_dead a)
    by (unfold dead_at; rewrite Ha; reflexivity).
  destruct (is_dead a).
  - rewrite (filter_cons_False (fun p => survives h p))
      by (rewrite Hs; simpl; tauto).
    rewrite (filter_cons_True (fun p => dead_at h p)) by (rewrite Hd; exact I).
    simpl. lia.
  - rewrite (filter_cons_True (fun p => survives h p)) by (rewrite Hs; exact I).
    rewrite (filter_cons_False (fun p => dead_at h p))
      by (rewrite Hd; simpl; tauto).
    simpl. lia.
Qed.

Lemma filter_all {A} (P : A -> Prop) `{forall x, Decision (P x)} (l : list A) :
  (forall x, x ∈ l -> P x) -> filter P l = l.
Proof.
  induction l as [|x l IH]; intros Hall; [reflexivity|].
  rewrite filter_cons_True by (apply Hall; left).
  f_equal. apply IH. intros y Hy. apply Hall. right. exact Hy.
Qed.

Lemma get_info_num (s : state) (c : info_cell) (rest : list info_cell) :
  get_info s 0 "num" (c :: rest) =
  Ok (IntCell (CInt.wrap (Z.of_nat (length (agents s)))) :: rest).
Proof.
  unfold get_info. rewrite decide_False by discriminate.
  rewrite decide_True by reflexivity. rewrite decide_True by reflexivity.
  unfold buf_write. simpl length. rewrite decide_True by lia. reflexivity.
Qed.

Lemma size_fits_int (n : nat) :
  Z.of_nat n <= CInt.INT_MAX -> CInt.wrap (Z.of_nat n) = Z.of_nat n.
Proof.
  intros Hn. apply wrap_id. unfold CInt.in_int, CInt.INT_MIN. lia.
Qed.

(** C4. On a population whose pointers are distinct and valid,
    [clear_dead] returns; the vector becomes the dead-free subsequence of
    the old one, in the old order; the object of every dead-flagged agent
    is gone from the heap; every survivor is the same object with its
    reward accumulator reset to zero; and the new size, also as reported by
    [get_info(car, "num")], is the old size minus the number of
    dead-flagged agents. *)
Theorem clear_dead_compacts (s : state) (c : info_cell) (rest : list info_cell) :
  population_valid s ->
  Z.of_nat (length (agents s)) <= CInt.INT_MAX ->
  exists s', clear_dead s = Ok s' /\
    agents s' = filter (fun p => survives (heap s) p) (agents s) /\
    (forall p, p ∈ agents s -> dead_at (heap s) p ->
       objs (heap s') !! p = None) /\
    (forall p, p ∈ agents s' ->
       exists a, objs (heap s) !! p = Some a /\
                 objs (heap s') !! p = Some (init_reward a) /\
                 agent_reward (init_reward a) = float_zero) /\
    length (agents s') = (length (agents s) - dead_count s)%nat /\
    get_info s' 0 "num" (c :: rest) =
      Ok (IntCell (Z.of_nat (length (agents s)) - Z.of_nat (dead_count s)) :: rest).
Proof.
  intros Hvalid Hsize.
  destruct (clear_dead_spec s Hvalid) as (s' & Hrun & Hag & _ & _ & Hheap).
  destruct Hvalid as [Hnd Hlive].
  pose proof (survives_or_dead (heap s) (agents s) Hlive) as Hcount.
  fold (survivors s) in Hcount. fold (dead_count s) in Hcount.
  exists s'. split; [exact Hrun|]. split; [exact Hag|].
  split; [|split; [|split]].
  - intros p Hp Hdead. rewrite Hheap, decide_True by exact Hp.
    unfold dead_at in Hdead. destruct (objs (heap s) !! p) as [a|]; [|reflexivity].
    simpl. unfold compacted. destruct (is_dead a); [reflexivity|contradiction].
  - intros p Hp. rewrite Hag in Hp.
    apply list_elem_of_filter in Hp as [Hsurv Hp].
    unfold survives in Hsurv. destruct (objs (heap s) !! p) as [a|] eqn:Ha;
      [|contradiction].
    exists a. split; [reflexivity|]. split; [|reflexivity].
    rewrite Hheap, decide_True by exact Hp. rewrite Ha. simpl.
    unfold compacted. destruct (is_dead a); [contradiction|reflexivity].
  - rewrite Hag. fold (survivors s). lia.
  - rewrite get_info_num, Hag. fold (survivors s).
    rewrite size_fits_int by lia. do 3 f_equal. lia.
Qed.

(** C10. [get_info(car, "num")] writes the length of the agent vector. On
    a valid population that length is the number of live agents plus the
    number of dead-flagged ones, so it exceeds the live count as soon as
    one agent is flagged; after [clear_dead] the reported number is the
    live count, and every remaining agent is alive. *)
Theorem num_counts_the_vector (s : state) (c : info_cell) (rest : list info_cell) :
  population_valid s ->
  Z.of_nat (length (agents s)) <= CInt.INT_MAX ->
  get_info s 0 "num" (c :: rest) =
    Ok (IntCell (Z.of_nat (length (agents s))) :: rest) /\
  length (agents s) = (live_count s + dead_count s)%nat /\
  ((exists p, p ∈ agents s /\ dead_at (heap s) p) ->
     (live_count s < length (agents s))%nat) /\
  exists s', clear_dead s = Ok s' /\
    get_info s' 0 "num" (c :: rest) = Ok (IntCell (Z.of_nat (live_count s)) :: rest) /\
    live_count s' = live_count s /\
    live_count s' = length (agents s').
Proof.
  intros Hvalid Hsize.
  destruct (clear_dead_spec s Hvalid) as (s' & Hrun & Hag & _ & _ & Hheap).
  destruct Hvalid as [Hnd Hlive].
  pose proof (survives_or_dead (heap s) (agents s) Hlive) as Hcount.
  fold (survivors s) in Hcount. fold (live_count s) in Hcount.
  fold (dead_count s) in Hcount.
  assert (Hall : survivors s' = agents s').
  { unfold survivors. apply filter_all. intros p Hp. rewrite Hag in Hp.
    apply list_elem_of_filter in Hp as [Hsurv Hp].
    unfold survives in *. rewrite Hheap, decide_True by exact Hp.
    destruct (objs (heap s) !! p) as [a|]; [|contradiction]. simpl.
    unfold compacted. destruct (is_dead a) eqn:Hd; [contradiction|].
    simpl. unfold is_dead in *. simpl. rewrite Hd. exact I. }
  split; [|split; [|split]].
  - rewrite get_info_num, size_fits_int by exact Hsize. reflexivity.
  - lia.
  - intros (p & Hp & Hdead). unfold live_count, survivors.
    apply (length_filter_lt _ _ p); [exact Hp|].
    unfold survives, dead_at in *.
    destruct (objs (heap s) !! p) as [a|]; [|contradiction].
    destruct (is_dead a); [simpl; tauto|contradiction].
  - exists s'. split; [exact Hrun|].
    assert (Hlc : live_count s' = live_count s).
    { unfold live_count. rewrite Hall, Hag. reflexivity. }
    split; [|split].
    + rewrite get_info_num, size_fits_int.
      * rewrite Hag. reflexivity.
      * rewrite Hag. fold (survivors s). fold (live_count s). lia.
    + exact Hlc.
    + unfold live_count. rewrite Hall. reflexivity.
Qed.

Lemma spawn_spec (place : state -> result (Position * state)) (s s' : state) :
  place_frame place -> spawn s place = Ok s' ->
  exists pos,
    agents s' = agents s ++ [next_loc (heap s)] /\
    objs (heap s') =
      <[next_loc (heap s) :=
          mkAgent (id_counter s) pos (mkPosition 0 0) 0 float_zero float_zero false]>
        (objs (heap s)) /\
    next_loc (heap s') = S (next_loc (heap s)) /\
    id_counter s' = CInt.add (id_counter s) 1.
Proof.
  intros Hf H. unfold spawn in H. simpl in H.
  apply bind_Ok in H as ([pos s1] & Hp & H).
  apply Hf in Hp as (Hh & Ha & Hc). simpl in Hh, Ha, Hc.
  apply bind_Ok in H as (a & Hget & H).
  apply bind_Ok in H as (h & Hset & H).
  apply bind_Ok in H as (m & _ & H). injection H as <-. simpl.
  unfold heap_get in Hget. rewrite Hh in Hget. simpl in Hget.
  rewrite lookup_insert_eq in Hget. injection Hget as <-.
  unfold heap_set in Hset. rewrite Hh in Hset. simpl in Hset.
  rewrite lookup_insert_eq in Hset. injection Hset as <-. simpl.
  exists pos. rewrite insert_insert_eq, Ha, Hc. repeat split.
Qed.

Lemma kept_or_fresh_refl (s : state) :
  (forall p, p ∈ agents s -> is_Some (objs (heap s) !! p)) -> kept_or_fresh s s.
Proof.
  intros Hlive. split; [lia|]. intros p a' Hp Ha. left. split; [exact Hp|].
  exists a'. split; [exact Ha|reflexivity].
Qed.

Lemma kept_or_fresh_trans (s s1 s2 : state) :
  kept_or_fresh s s1 -> kept_or_fresh s1 s2 -> kept_or_fresh s s2.
Proof.
  intros [Hc1 H1] [Hc2 H2]. split; [lia|].
  intros p a2 Hp Ha2. destruct (H2 p a2 Hp Ha2) as [(Hp1 & a1 & Ha1 & Hid)|Hnew].
  - destruct (H1 p a1 Hp1 Ha1) as [(Hp0 & a & Ha & Hid0)|Hnew].
    + left. split; [exact Hp0|]. exists a. split; [exact Ha|congruence].
    + right. lia.
  - right. lia.
Qed.

Lemma spawn_ids (place : state -> result (Position * state)) (s s' : state) :
  place_frame place -> ids_wellformed s -> id_counter s < CInt.INT_MAX ->
  spawn s place = Ok s' ->
  ids_wellformed s' /\ kept_or_fresh s s' /\ id_counter s' = id_counter s + 1.
Proof.
  intros Hf ([Hnd Hlive] & Hint & Hlt & Hbelow & Hinj) Hroom Hrun.
  destruct (spawn_spec place s s' Hf Hrun) as (pos & Hag & Hobj & Hnext & Hctr).
  set (pn := next_loc (heap s)) in *.
  set (anew := mkAgent (id_counter s) pos (mkPosition 0 0) 0 float_zero
                       float_zero false) in *.
  assert (Hctr' : id_counter s' = id_counter s + 1).
  { rewrite Hctr. apply wrap_id.
    unfold CInt.in_int, CInt.INT_MIN, CInt.INT_MAX in *. lia. }
  assert (Hold : forall p, p ∈ agents s -> p <> pn).
  { intros p Hp. specialize (Hlt p Hp). lia. }
  assert (Hcase : forall p a', p ∈ agents s' -> objs (heap s') !! p = Some a' ->
            (p ∈ agents s /\ objs (heap s) !! p = Some a') \/
            (p = pn /\ a' = anew)).
  { intros p a'. rewrite Hag, Hobj.
    intros [Hp|Hp%list_elem_of_singleton]%elem_of_app Ha.
    - left. rewrite lookup_insert_ne in Ha by (apply not_eq_sym, Hold, Hp).
      split; assumption.
    - right. subst p. rewrite lookup_insert_eq in Ha.
      split; [reflexivity|congruence]. }
  split; [|split; [|exact Hctr']].
  - split; [split|split; [|split; [|split]]].
    + rewrite Hag. apply NoDup_app. split; [exact Hnd|]. split.
      * intros p Hp Hin%list_elem_of_singleton. exact (Hold p Hp Hin).
      * apply NoDup_singleton.
    + intros p. rewrite Hag, Hobj.
      intros [Hp|Hp%list_elem_of_singleton]%elem_of_app.
      * rewrite lookup_insert_ne by (apply not_eq_sym, Hold, Hp).
        apply Hlive, Hp.
      * subst p. rewrite lookup_insert_eq. eexists. reflexivity.
    + rewrite Hctr'. unfold CInt.in_int, CInt.INT_MIN, CInt.INT_MAX in *. lia.
    + intros p. rewrite Hag, Hnext.
      intros [Hp|Hp%list_elem_of_singleton]%elem_of_app.
      * specialize (Hlt p Hp). lia.
      * subst p. lia.
    + intros p a' Hp Ha.
      destruct (Hcase p a' Hp Ha) as [[Hp0 Ha0]|[-> ->]].
      * specialize (Hbelow p a' Hp0 Ha0). lia.
      * simpl. lia.
    + intros p q a b Hp Hq Ha Hb Hid.
      destruct (Hcase p a Hp Ha) as [[Hp0 Ha0]|[-> ->]];
        destruct (Hcase q b Hq Hb) as [[Hq0 Hb0]|[-> ->]].
      * exact (Hinj p q a b Hp0 Hq0 Ha0 Hb0 Hid).
      * specialize (Hbelow p a Hp0 Ha0). simpl in Hid. lia.
      * specialize (Hbelow q b Hq0 Hb0). simpl in Hid. lia.
      * reflexivity.
  - split; [lia|]. intros p a' Hp Ha.
    destruct (Hcase p a' Hp Ha) as [[Hp0 Ha0]|[-> ->]].
    + left. split; [exact Hp0|]. exists a'. split; [exact Ha0|reflexivity].
    + right. simpl. lia.
Qed.

Lemma spawn_loop_ids (body : Z -> state -> result state) (n : nat) (s s' : state) :
  (forall i s1 s2, ids_wellformed s1 -> id_counter s1 < CInt.INT_MAX ->
     body i s1 = Ok s2 ->
     ids_wellformed s2 /\ kept_or_fresh s1 s2 /\ id_counter s2 = id_counter s1 + 1) ->
  ids_wellformed s -> id_counter s + Z.of_nat n <= CInt.INT_MAX ->
  for_loop 0 n body s = Ok s' ->
  ids_wellformed s' /\ kept_or_fresh s s' /\
  id_counter s' = id_counter s + Z.of_nat n.
Proof.
  intros Hbody Hwf Hroom Hrun.
  apply (for_loop_invariant
           (fun k s1 => ids_wellformed s1 /\ kept_or_fresh s s1 /\
                        id_counter s1 = id_counter s + Z.of_nat k)
           body n 0 s s'); [| |exact Hrun].
  - split; [exact Hwf|]. split; [|lia].
    apply kept_or_fresh_refl. apply Hwf.
  - intros k s1 s2 Hk (Hwf1 & Hkf1 & Hc1) Hb.
    destruct (Hbody _ s1 s2 Hwf1 ltac:(lia) Hb) as (Hwf2 & Hkf2 & Hc2).
    split; [exact Hwf2|]. split; [|lia].
    exact (kept_or_fresh_trans s s1 s2 Hkf1 Hkf2).
Qed.

Lemma clear_dead_ids (s s' : state) :
  ids_wellformed s -> clear_dead s = Ok s' ->
  ids_wellformed s' /\ kept_or_fresh s s' /\ id_counter s' = id_counter s.
Proof.
  intros (Hvalid & Hint & Hlt & Hbelow & Hinj) Hrun.
  destruct (clear_dead_spec s Hvalid) as (s'' & Hrun' & Hag & Hctr & Hnext & Hheap).
  rewrite Hrun in Hrun'. injection Hrun' as <-.
  destruct Hvalid as [Hnd Hlive].
  assert (Hsurv : forall p a', p ∈ agents s' -> objs (heap s') !! p = Some a' ->
            p ∈ agents s /\
            exists a, objs (heap s) !! p = Some a /\ a' = init_reward a).
  { intros p a' Hp Ha'. rewrite Hag in Hp.
    apply list_elem_of_filter in Hp as [_ Hp]. split; [exact Hp|].
    rewrite Hheap, decide_True in Ha' by exact Hp.
    destruct (objs (heap s) !! p) as [a|]; [|discriminate].
    exists a. split; [reflexivity|]. simpl in Ha'. unfold compacted in Ha'.
    destruct (is_dead a); congruence. }
  split; [|split; [|exact Hctr]].
  - split; [split|split; [|split; [|split]]].
    + rewrite Hag. apply NoDup_filter, Hnd.
    + intros p Hp. rewrite Hag in Hp.
      apply list_elem_of_filter in Hp as [Hs Hp].
      rewrite Hheap, decide_True by exact Hp. unfold survives in Hs.
      destruct (objs (heap s) !! p) as [a|]; [|contradiction]. simpl.
      unfold compacted. destruct (is_dead a); [contradiction|]. eexists. reflexivity.
    + rewrite Hctr. exact Hint.
    + intros p Hp. rewrite Hnext. apply Hlt. rewrite Hag in Hp.
      apply list_elem_of_filter in Hp as [_ Hp]. exact Hp.
    + intros p a' Hp Ha'. destruct (Hsurv p a' Hp Ha') as (Hp0 & a & Ha & ->).
      rewrite Hctr. exact (Hbelow p a Hp0 Ha).
    + intros p q a' b' Hp Hq Ha' Hb' Hid.
      destruct (Hsurv p a' Hp Ha') as (Hp0 & a & Ha & ->).
      destruct (Hsurv q b' Hq Hb') as (Hq0 & b & Hb & ->).
      exact (Hinj p q a b Hp0 Hq0 Ha Hb Hid).
  - split; [lia|]. intros p a' Hp Ha'. left.
    destruct (Hsurv p a' Hp Ha') as (Hp0 & a & Ha & ->).
    split; [exact Hp0|]. exists a. split; [exact Ha|reflexivity].
Qed.

Lemma for_loop_population (body : Z -> state -> result state) (n : nat) :
  (forall i s1 s2, body i s1 = Ok s2 -> population s2 = population s1) ->
  forall from s s', for_loop from n body s = Ok s' -> population s' = population s.
Proof.
  intros Hbody from s s' Hrun.
  apply (for_loop_invariant (fun _ s1 => population s1 = population s)
           body n from s s'); [reflexivity| |exact Hrun].
  intros k s1 s2 _ H1 Hb. rewrite (Hbody _ _ _ Hb). exact H1.
Qed.

Lemma add_wall_row_population (buf : NDPointer Z) (i : Z) (s s' : state) :
  add_wall_row buf i s = Ok s' -> population s' = population s.
Proof.
  unfold add_wall_row. intros H.
  do 5 (apply bind_Ok in H as (? & _ & H)). injection H as <-. reflexivity.
Qed.

Lemma add_light_row_population (buf : NDPointer Z) (i : Z) (s s' : state) :
  add_light_row buf i s = Ok s' -> population s' = population s.
Proof.
  unfold add_light_row. intros H.
  do 5 (apply bind_Ok in H as (? & _ & H)).
  destruct (engine_call _) as [raw e].
  do 3 (apply bind_Ok in H as (? & _ & H)). injection H as <-. reflexivity.
Qed.

Lemma add_park_row_population (buf : NDPointer Z) (i : Z) (s s' : state) :
  add_park_row buf i s = Ok s' -> population s' = population s.
Proof.
  unfold add_park_row. intros H.
  do 7 (apply bind_Ok in H as (? & _ & H)). injection H as <-. reflexivity.
Qed.

Lemma add_building_row_population (buf : NDPointer Z) (i : Z) (s s' : state) :
  add_building_row buf i s = Ok s' -> population s' = population s.
Proof.
  unfold add_building_row. intros H.
  do 4 (apply bind_Ok in H as (? & _ & H)).
  apply bind_Ok in H as (s1 & Hloop & H). injection H as <-.
  transitivity (population s1); [reflexivity|].
  revert Hloop. apply for_loop_population. intros cx s2 s3.
  apply for_loop_population. intros cy s4 s5 Hb.
  apply bind_Ok in Hb as (m & _ & Hb). injection Hb as <-. reflexivity.
Qed.

Lemma add_object_static_population (s s' : state) obj_id n method linear_buffer :
  obj_id <> 0 ->
  add_object s obj_id n method linear_buffer = Ok s' ->
  population s' = population s.
Proof.
  intros Hcar. unfold add_object.
  repeat case_decide; try contradiction;
    try (intros [= <-]; reflexivity); try discriminate.
  - apply for_loop_population, add_wall_row_population.
  - apply for_loop_population, add_light_row_population.
  - apply for_loop_population, add_park_row_population.
  - apply for_loop_population, add_building_row_population.
Qed.

Lemma population_ids (s s' : state) :
  population s' = population s -> ids_wellformed s ->
  ids_wellformed s' /\ kept_or_fresh s s' /\ id_counter s' = id_counter s.
Proof.
  unfold population. intros [= Hh Ha Hc] Hwf.
  split; [|split; [|exact Hc]].
  - unfold ids_wellformed, population_valid in *. rewrite Hh, Ha, Hc. exact Hwf.
  - unfold kept_or_fresh. rewrite Hh, Ha, Hc. split; [lia|].
    intros p a' Hp Hl. left. split; [exact Hp|]. exists a'.
    split; [exact Hl|reflexivity].
Qed.

Lemma place_random_frame : place_frame place_random.
Proof.
  intros s pos s1 H. unfold place_random in H.
  apply bind_Ok in H as ([pos' e] & _ & H). injection H as <- <-.
  repeat split.
Qed.

Lemma place_custom_frame (buf : NDPointer Z) (i : Z) :
  place_frame (place_custom (Map := Map) (Engine := Engine) buf i).
Proof.
  intros s pos s1 H. unfold place_custom in H.
  do 2 (apply bind_Ok in H as (? & _ & H)). injection H as <- <-.
  repeat split.
Qed.

Lemma add_object_ids (s s' : state) obj_id n method linear_buffer :
  ids_wellformed s ->
  id_counter s + cars_requested [AddObject obj_id n method linear_buffer]
    <= CInt.INT_MAX ->
  add_object s obj_id n method linear_buffer = Ok s' ->
  ids_wellformed s' /\ kept_or_fresh s s' /\
  id_counter s' =
    id_counter s + cars_requested [AddObject obj_id n method linear_buffer].
Proof.
  intros Hwf Hroom Hrun. simpl in *.
  destruct (decide (obj_id = 0)) as [->|Hcar].
  - rewrite Z.add_0_r in *. unfold add_object in Hrun.
    repeat (rewrite decide_False in Hrun by lia).
    rewrite decide_True in Hrun by reflexivity.
    destruct (decide (method = "random")).
    + revert Hrun. apply spawn_loop_ids; [|exact Hwf|exact Hroom].
      intros i s1 s2 Hwf1 Hlt. apply spawn_ids; [apply place_random_frame|..];
        assumption.
    + destruct (decide (method = "custom")); [|discriminate].
      revert Hrun. apply spawn_loop_ids; [|exact Hwf|exact Hroom].
      intros i s1 s2 Hwf1 Hlt. apply spawn_ids; [apply place_custom_frame|..];
        assumption.
  - rewrite Z.add_0_r.
    apply population_ids; [|exact Hwf].
    exact (add_object_static_population _ _ _ _ _ _ Hcar Hrun).
Qed.

Lemma cars_requested_nonneg (cs : list call) : 0 <= cars_requested cs.
Proof.
  induction cs as [|[obj_id n method buf|] cs IH]; simpl; [lia| |exact IH].
  case_decide; lia.
Qed.

Lemma run_ids (cs : list call) :
  forall s s' : state,
    ids_wellformed s ->
    id_counter s + cars_requested cs <= CInt.INT_MAX ->
    run s cs = Ok s' ->
    ids_wellformed s' /\ kept_or_fresh s s' /\
    id_counter s' = id_counter s + cars_requested cs.
Proof.
  induction cs as [|c cs IH]; intros s s' Hwf Hroom Hrun.
  - simpl in *. injection Hrun as <-. split; [exact Hwf|]. split; [|lia].
    apply kept_or_fresh_refl. apply Hwf.
  - simpl in Hrun. apply bind_Ok in Hrun as (s1 & Hc & Hrest).
    pose proof (cars_requested_nonneg cs) as Hnn.
    assert (Hone : ids_wellformed s1 /\ kept_or_fresh s s1 /\
                   id_counter s1 + cars_requested cs
                   = id_counter s + cars_requested (c :: cs)).
    { destruct c as [obj_id n method buf|]; simpl in Hc.
      - destruct (add_object_ids s s1 obj_id n method buf Hwf) as (H1 & H2 & H3);
          [simpl in *; case_decide; lia|exact Hc|].
        split; [exact H1|]. split; [exact H2|]. simpl in *. case_decide; lia.
      - destruct (clear_dead_ids s s1 Hwf Hc) as (H1 & H2 & H3).
        split; [exact H1|]. split; [exact H2|]. simpl. lia. }
    destruct Hone as (Hwf1 & Hkf1 & Hctr1).
    destruct (IH s1 s' Hwf1 ltac:(lia) Hrest) as (Hwf2 & Hkf2 & Hctr2).
    split; [exact Hwf2|]. split; [|lia].
    exact (kept_or_fresh_trans s s1 s' Hkf1 Hkf2).
Qed.

(** C1 (as amended). Between two resets ids are unique, increasing and
    stable. Start from a population that respects the id discipline (such
    as the empty one) and run any sequence of [add_object] and
    [clear_dead] calls that returns, with room left below [INT_MAX] for the
    cars requested. Then the discipline still holds: the ids of the agents
    in the vector are pairwise distinct and all below the counter. The
    counter has advanced by exactly the number of cars created, and every
    agent of the final population either was in the initial one, at the
    same pointer with the same id (stable across compaction), or carries
    an id at or above the initial counter, which no agent of this run had
    before. ([reset] puts the counter back to 0.) *)
Theorem ids_unique_and_stable (s s' : state) (cs : list call) :
  ids_wellformed s ->
  id_counter s + cars_requested cs <= CInt.INT_MAX ->
  run s cs = Ok s' ->
  ids_wellformed s' /\
  (forall p q a b, p ∈ agents s' -> q ∈ agents s' -> p <> q ->
     objs (heap s') !! p = Some a -> objs (heap s') !! q = Some b ->
     agent_id a <> agent_id b) /\
  id_counter s' = id_counter s + cars_requested cs /\
  (forall p a', p ∈ agents s' -> objs (heap s') !! p = Some a' ->
     (p ∈ agents s /\
      exists a, objs (heap s) !! p = Some a /\ agent_id a' = agent_id a /\
                agent_id a' < id_counter s) \/
     id_counter s <= agent_id a' < id_counter s').
Proof.
  intros Hwf Hroom Hrun.
  destruct (run_ids cs s s' Hwf Hroom Hrun) as (Hwf' & [Hle Hkf] & Hctr).
  split; [exact Hwf'|]. split; [|split; [exact Hctr|]].
  - intros p q a b Hp Hq Hne Ha Hb Hid.
    destruct Hwf' as (_ & _ & _ & _ & Hinj).
    exact (Hne (Hinj p q a b Hp Hq Ha Hb Hid)).
  - intros p a' Hp Ha'. destruct (Hkf p a' Hp Ha') as [(Hp0 & a & Ha & Hid)|Hnew].
    + left. split; [exact Hp0|]. exists a. split; [exact Ha|]. split; [exact Hid|].
      destruct Hwf as (_ & _ & _ & Hbelow & _). rewrite Hid.
      exact (Hbelow p a Hp0 Ha).
    + right. exact Hnew.
Qed.

Lemma add_light_row_spec (buf : NDPointer Z) (i : Z) (s s' : state) :
  add_light_row buf i s = Ok s' ->
  exists l, lights s' = lights s ++ [l] /\
    interval_min s' = interval_min s /\ interval_max s' = interval_max s /\
    random_engine s' = advance (random_engine s) /\
    draw_interval (engine_call (random_engine s)).1 (interval_min s)
      (interval_max s) = Ok (light_interval l).
Proof.
  unfold add_light_row, advance. intros H.
  do 5 (apply bind_Ok in H as (? & _ & H)). simpl in H.
  destruct (engine_call (random_engine s)) as [raw e].
  apply bind_Ok in H as (v & Hv & H). simpl in Hv.
  do 2 (apply bind_Ok in H as (? & _ & H)). injection H as <-.
  eexists. simpl. repeat split. exact Hv.
Qed.

Lemma add_light_loop (buf : NDPointer Z) (n : nat) (s s' : state) :
  for_loop 0 n (add_light_row buf) s = Ok s' ->
  exists new, length new = n /\ lights_drawn s s' new.
Proof.
  apply (for_loop_invariant
           (fun k s1 => exists new, length new = k /\ lights_drawn s s1 new)).
  - exists []. split; [reflexivity|]. unfold lights_drawn. simpl.
    rewrite app_nil_r. repeat split. intros j l Hl. discriminate.
  - intros k s1 s2 _ (new & Hlen & Hl & Hmin & Hmax & Heng & Hdraw) Hrow.
    destruct (add_light_row_spec _ _ _ _ Hrow) as (l & Hl2 & Hmin2 & Hmax2 & Heng2 & Hd2).
    exists (new ++ [l]). split; [rewrite length_app; simpl; lia|].
    unfold lights_drawn. rewrite Hl2, Hl, Hmin2, Hmax2, Heng2, Heng, length_app.
    rewrite <- app_assoc. simpl. split; [reflexivity|]. split; [exact Hmin|].
    split; [exact Hmax|]. split.
    + replace (length new + 1)%nat with (S (length new)) by lia. reflexivity.
    + intros j l' Hj. destruct (decide (j < length new)%nat) as [Hlt|Hge].
      * rewrite lookup_app_l in Hj by exact Hlt. exact (Hdraw j l' Hj).
      * rewrite lookup_app_r in Hj by lia.
        destruct (j - length new)%nat as [|m] eqn:Hm; [|destruct m; discriminate].
        injection Hj as <-. assert (j = length new) as -> by lia.
        unfold nth_raw. rewrite <- Heng, <- Hmin, <- Hmax. exact Hd2.
Qed.

Lemma wrap_high (z : Z) :
  2147483648 <= z < 4294967296 -> CInt.wrap z = z - 4294967296.
Proof.
  intros Hz. unfold CInt.wrap.
  replace (z + 2147483648) with ((z - 2147483648) + 1 * 4294967296) by lia.
  rewrite Z.mod_add by lia. rewrite Z.mod_small by lia. lia.
Qed.

Lemma draw_interval_range (raw imin imax : Z) :
  0 <= raw <= CInt.INT_MAX -> CInt.in_int imin -> CInt.in_int imax ->
  imin < imax ->
  exists v, draw_interval raw imin imax = Ok v /\ imin <= v < imax.
Proof.
  unfold CInt.in_int, CInt.INT_MIN, CInt.INT_MAX. intros Hraw Hmin Hmax Hlt.
  unfold draw_interval, CInt.sub, CInt.add, int_rem.
  rewrite (wrap_id raw) by (unfold CInt.in_int, CInt.INT_MIN, CInt.INT_MAX; lia).
  destruct (decide (imax - imin <= 2147483647)) as [Hsmall|Hbig].
  - rewrite (wrap_id (imax - imin))
      by (unfold CInt.in_int, CInt.INT_MIN, CInt.INT_MAX; lia).
    rewrite decide_False by lia.
    rewrite decide_False by (unfold CInt.INT_MIN; lia). simpl.
    pose proof (Z.rem_bound_pos raw (imax - imin) ltac:(lia) ltac:(lia)) as Hr.
    eexists. split; [reflexivity|].
    rewrite wrap_id by (unfold CInt.in_int, CInt.INT_MIN, CInt.INT_MAX; lia). lia.
  - rewrite (wrap_high (imax - imin)) by lia.
    rewrite decide_False by lia.
    rewrite decide_False by (unfold CInt.INT_MIN; lia). simpl.
    replace (imax - imin - 4294967296) with (- (4294967296 - (imax - imin))) by lia.
    rewrite Z.rem_opp_r by lia.
    pose proof (Z.rem_bound_pos raw (4294967296 - (imax - imin))
                  ltac:(lia) ltac:(lia)) as Hr.
    pose proof (Z.rem_le raw (4294967296 - (imax - imin))
                  ltac:(lia) ltac:(lia)) as Hle.
    eexists. split; [reflexivity|].
    rewrite wrap_id by (unfold CInt.in_int, CInt.INT_MIN, CInt.INT_MAX; lia). lia.
Qed.

Lemma draw_interval_block (imin imax q v : Z) :
  CInt.in_int imin -> CInt.in_int imax -> imin < imax ->
  imax - imin <= CInt.INT_MAX ->
  0 <= q -> (q + 1) * (imax - imin) - 1 <= CInt.INT_MAX ->
  imin <= v < imax ->
  draw_interval (q * (imax - imin) + (v - imin)) imin imax = Ok v /\
  forall raw, q * (imax - imin) <= raw < (q + 1) * (imax - imin) ->
    draw_interval raw imin imax = Ok v -> raw = q * (imax - imin) + (v - imin).
Proof.
  unfold CInt.in_int, CInt.INT_MIN, CInt.INT_MAX.
  intros Hmin Hmax Hlt Hfit Hq Hblock Hv.
  set (k := imax - imin) in *.
  assert (Hk : 0 < k <= 2147483647) by (unfold k in *; lia).
  assert (Hdraw : forall raw, q * k <= raw < (q + 1) * k ->
            draw_interval raw imin imax = Ok (raw - q * k + imin)).
  { intros raw Hraw. unfold draw_interval, CInt.sub, CInt.add, int_rem. fold k.
    rewrite (wrap_id raw) by (unfold CInt.in_int, CInt.INT_MIN, CInt.INT_MAX; nia).
    rewrite (wrap_id k) by (unfold CInt.in_int, CInt.INT_MIN, CInt.INT_MAX; lia).
    rewrite decide_False by lia.
    rewrite decide_False by (unfold CInt.INT_MIN; nia). simpl.
    rewrite Z.rem_mod_nonneg by nia.
    replace raw with ((raw - q * k) + q * k) at 1 by lia.
    rewrite Z.mod_add by lia. rewrite Z.mod_small by lia.
    rewrite wrap_id by (unfold CInt.in_int, CInt.INT_MIN, CInt.INT_MAX; lia).
    reflexivity. }
  split.
  - rewrite Hdraw by lia. f_equal. lia.
  - intros raw Hraw Hres. rewrite Hdraw in Hres by exact Hraw.
    injection Hres as Hres. lia.
Qed.

Lemma div_step (x d : Z) :
  0 < d -> (x + 1) / d = x / d + (if decide ((x + 1) mod d = 0) then 1 else 0).
Proof.
  intros Hd.
  pose proof (Z.div_mod (x + 1) d ltac:(lia)).
  pose proof (Z.div_mod x d ltac:(lia)).
  pose proof (Z.mod_pos_bound x d Hd).
  pose proof (Z.mod_pos_bound (x + 1) d Hd).
  case_decide; nia.
Qed.

Lemma mod_shift (r k d : Z) :
  0 <= k < d -> (r mod d = k <-> (r - k) mod d = 0).
Proof.
  intros Hk. split; intros H.
  - rewrite <- H. rewrite Zminus_mod_idemp_r, Z.sub_diag. apply Z.mod_0_l. lia.
  - replace r with ((r - k) + k) at 1 by lia.
    rewrite <- Zplus_mod_idemp_l, H. simpl. apply Z.mod_small. lia.
Qed.

Lemma div_window (y len d : Z) :
  0 < d -> 0 <= len ->
  len / d <= (y + len) / d - y / d <= len / d + 1.
Proof.
  intros Hd Hl.
  pose proof (Z.div_mod (y + len) d ltac:(lia)).
  pose proof (Z.div_mod y d ltac:(lia)).
  pose proof (Z.div_mod len d ltac:(lia)).
  pose proof (Z.mod_pos_bound y d Hd).
  pose proof (Z.mod_pos_bound (y + len) d Hd).
  pose proof (Z.mod_pos_bound len d Hd). nia.
Qed.

(** On a non-negative raw value the draw is the remainder shifted by the
    lower bound. *)
Lemma draw_interval_mod (raw imin imax : Z) :
  0 <= raw <= CInt.INT_MAX -> CInt.in_int imin -> CInt.in_int imax ->
  imin < imax -> imax - imin <= CInt.INT_MAX ->
  draw_interval raw imin imax = Ok (raw mod (imax - imin) + imin).
Proof.
  unfold CInt.in_int, CInt.INT_MIN, CInt.INT_MAX.
  intros Hraw Hmin Hmax Hlt Hfit.
  pose proof (Z.mod_pos_bound raw (imax - imin) ltac:(lia)) as Hm.
  unfold draw_interval, CInt.sub, CInt.add, int_rem.
  rewrite (wrap_id raw) by (unfold CInt.in_int, CInt.INT_MIN, CInt.INT_MAX; lia).
  rewrite (wrap_id (imax - imin))
    by (unfold CInt.in_int, CInt.INT_MIN, CInt.INT_MAX; lia).
  rewrite decide_False by lia.
  rewrite decide_False by (unfold CInt.INT_MIN; lia). simpl.
  rewrite Z.rem_mod_nonneg by lia.
  rewrite wrap_id by (unfold CInt.in_int, CInt.INT_MIN, CInt.INT_MAX; lia).
  reflexivity.
Qed.

Lemma count_raws_nat (imin imax v lo : Z) (n : nat) :
  CInt.in_int imin -> CInt.in_int imax -> imin < imax ->
  imax - imin <= CInt.INT_MAX ->
  0 <= lo -> lo + Z.of_nat n - 1 <= CInt.INT_MAX -> imin <= v < imax ->
  Z.of_nat (length (raws_giving imin imax v lo (Z.of_nat n)))
  = (lo + Z.of_nat n - 1 - (v - imin)) / (imax - imin)
    - (lo - 1 - (v - imin)) / (imax - imin).
Proof.
  intros Hmin Hmax Hlt Hfit Hlo Hhi Hv. unfold raws_giving.
  induction n as [|n IH].
  - rewrite seqZ_nil by lia. simpl. rewrite Z.add_0_r. lia.
  - rewrite seqZ_S, filter_app, length_app, Nat2Z.inj_add, IH by lia.
    rewrite (filter_singleton _ _ []).
    rewrite draw_interval_mod by (assumption || lia).
    replace (lo + Z.of_nat (S n) - 1 - (v - imin))
      with (lo + Z.of_nat n - 1 - (v - imin) + 1) by lia.
    rewrite (div_step (lo + Z.of_nat n - 1 - (v - imin))) by lia.
    pose proof (mod_shift (lo + Z.of_nat n) (v - imin) (imax - imin)
                  ltac:(lia)) as Hs.
    replace (lo + Z.of_nat n - 1 - (v - imin) + 1)
      with (lo + Z.of_nat n - (v - imin)) by lia.
    destruct (decide (Ok ((lo + Z.of_nat n) mod (imax - imin) + imin) = Ok v))
      as [He|He].
    + injection He as He. rewrite decide_True by (apply Hs; lia). simpl. lia.
    + rewrite decide_False.
      * simpl. lia.
      * intros Hz. apply Hs in Hz. apply He. f_equal. lia.
Qed.

(** How many of the [len] raw values from [lo] give the interval [v]. *)
Lemma count_raws (imin imax v lo len : Z) :
  CInt.in_int imin -> CInt.in_int imax -> imin < imax ->
  imax - imin <= CInt.INT_MAX ->
  0 <= lo -> 0 <= len -> lo + len - 1 <= CInt.INT_MAX -> imin <= v < imax ->
  Z.of_nat (length (raws_giving imin imax v lo len))
  = (lo + len - 1 - (v - imin)) / (imax - imin)
    - (lo - 1 - (v - imin)) / (imax - imin).
Proof.
  intros Hmin Hmax Hlt Hfit Hlo Hlen Hhi Hv.
  rewrite <- (Z2Nat.id len Hlen) at 1 2.
  apply count_raws_nat; try assumption.
  rewrite Z2Nat.id by exact Hlen. exact Hhi.
Qed.

Lemma raws_giving_near_even (imin imax lo len v1 v2 : Z) :
  CInt.in_int imin -> CInt.in_int imax -> imin < imax ->
  imax - imin <= CInt.INT_MAX ->
  0 <= lo -> 0 <= len -> lo + len - 1 <= CInt.INT_MAX ->
  imin <= v1 < imax -> imin <= v2 < imax ->
  Z.abs (Z.of_nat (length (raws_giving imin imax v1 lo len))
         - Z.of_nat (length (raws_giving imin imax v2 lo len))) <= 1.
Proof.
  intros Hmin Hmax Hlt Hfit Hlo Hlen Hhi Hv1 Hv2.
  rewrite !count_raws by assumption.
  pose proof (div_window (lo - 1 - (v1 - imin)) len (imax - imin)
                ltac:(lia) Hlen) as H1.
  pose proof (div_window (lo - 1 - (v2 - imin)) len (imax - imin)
                ltac:(lia) Hlen) as H2.
  replace (lo - 1 - (v1 - imin) + len) with (lo + len - 1 - (v1 - imin))
    in H1 by lia.
  replace (lo - 1 - (v2 - imin) + len) with (lo + len - 1 - (v2 - imin))
    in H2 by lia.
  lia.
Qed.

(** C6 (as amended). Let the engine's raw values be non-negative [int]s
    and [interval_min < interval_max]. Whenever [add_object] returns for a
    batch of lights, it has appended one light per row and advanced the
    engine by exactly one call per light; the interval of the [j]-th new
    light is the function [draw_interval] of the [j]-th raw value alone and
    lies in [interval_min, interval_max). That function is a remainder, not
    a uniform draw: inside every block of [interval_max - interval_min]
    consecutive raw values each interval of the range is hit exactly once,
    and over any run of consecutive raw values the numbers of raw values
    that give two intervals differ by at most one. *)
Theorem light_interval_drawn_once (s s' : state) (n : Z) (linear_buffer : list Z) :
  (forall e : Engine, 0 <= (engine_call e).1 <= CInt.INT_MAX) ->
  CInt.in_int (interval_min s) -> CInt.in_int (interval_max s) ->
  interval_min s < interval_max s ->
  add_object s (-2) n "custom" linear_buffer = Ok s' ->
  exists new,
    lights s' = lights s ++ new /\
    length new = Z.to_nat n /\
    random_engine s' = Nat.iter (Z.to_nat n) advance (random_engine s) /\
    (forall j l, new !! j = Some l ->
       draw_interval (nth_raw (random_engine s) j) (interval_min s)
         (interval_max s) = Ok (light_interval l) /\
       interval_min s <= light_interval l < interval_max s) /\
    (forall q v,
       interval_max s - interval_min s <= CInt.INT_MAX -> 0 <= q ->
       (q + 1) * (interval_max s - interval_min s) - 1 <= CInt.INT_MAX ->
       interval_min s <= v < interval_max s ->
       exists raw,
         q * (interval_max s - interval_min s) <= raw
           < (q + 1) * (interval_max s - interval_min s) /\
         draw_interval raw (interval_min s) (interval_max s) = Ok v /\
         forall raw',
           q * (interval_max s - interval_min s) <= raw'
             < (q + 1) * (interval_max s - interval_min s) ->
           draw_interval raw' (interval_min s) (interval_max s) = Ok v ->
           raw' = raw) /\
    (forall lo len v1 v2,
       interval_max s - interval_min s <= CInt.INT_MAX ->
       0 <= lo -> 0 <= len -> lo + len - 1 <= CInt.INT_MAX ->
       interval_min s <= v1 < interval_max s ->
       interval_min s <= v2 < interval_max s ->
       Z.abs
         (Z.of_nat
            (length (raws_giving (interval_min s) (interval_max s) v1 lo len))
          - Z.of_nat
              (length (raws_giving (interval_min s) (interval_max s) v2 lo len)))
       <= 1).
Proof.
  intros Heng Hmin Hmax Hlt Hrun. unfold add_object in Hrun.
  rewrite decide_False in Hrun by lia.
  rewrite decide_True in Hrun by reflexivity.
  rewrite decide_True in Hrun by reflexivity.
  destruct (add_light_loop _ _ _ _ Hrun) as (new & Hlen & Hl & _ & _ & Hre & Hdraw).
  exists new. split; [exact Hl|]. split; [exact Hlen|].
  split; [rewrite <- Hlen; exact Hre|]. split; [|split].
  - intros j l Hj. specialize (Hdraw j l Hj). split; [exact Hdraw|].
    destruct (draw_interval_range (nth_raw (random_engine s) j)
                (interval_min s) (interval_max s)) as (v & Hv & Hrange);
      [apply Heng|exact Hmin|exact Hmax|exact Hlt|].
    rewrite Hdraw in Hv. injection Hv as <-. exact Hrange.
  - intros q v Hfit Hq Hblock Hv.
    destruct (draw_interval_block (interval_min s) (interval_max s) q v
                Hmin Hmax Hlt Hfit Hq Hblock Hv) as [Hhit Huniq].
    exists (q * (interval_max s - interval_min s) + (v - interval_min s)).
    split; [nia|]. split; [exact Hhit|]. exact Huniq.
  - intros lo len v1 v2 Hfit Hlo Hlen0 Hhi Hv1 Hv2.
    apply raws_giving_near_even; assumption.
Qed.

Lemma add_exact (a b : Z) : CInt.in_int (a + b) -> CInt.add a b = a + b.
Proof. apply wrap_id. Qed.

Lemma mul_exact (a b : Z) : CInt.in_int (a * b) -> CInt.mul a b = a * b.
Proof. apply wrap_id. Qed.

Lemma get_embedding_frame (a : Agent) (count : nat) :
  forall (b b' : list float) (off : Z) (k : nat),
    get_embedding_from a b off k count = Ok b' ->
    forall j, j < off + Z.of_nat k \/ off + Z.of_nat k + Z.of_nat count <= j ->
      buf_read b' j = buf_read b j.
Proof.
  induction count as [|count IH]; intros b b' off k H j Hj.
  - simpl in H. injection H as <-. reflexivity.
  - simpl in H. apply bind_Ok in H as (b1 & Hw & H).
    rewrite (IH b1 b' off (S k) H j) by lia.
    apply (buf_write_read_ne _ _ _ _ _ Hw). lia.
Qed.

Lemma observe_agent_spec (s : state) (i : Z) (view feat view' feat' : list float) :
  let fs := embedding_size s + ACT_NUM + 1 + 2 in
  0 <= embedding_size s -> 0 <= ACT_NUM -> 0 <= i ->
  (i + 1) * fs <= CInt.INT_MAX ->
  (forall q b, q ∈ agents s -> objs (heap s) !! q = Some b ->
     0 <= agent_action b < ACT_NUM) ->
  observe_agent s fs i (view, feat) = Ok (view', feat') ->
  exists p a, agents s !! Z.to_nat i = Some p /\ objs (heap s) !! p = Some a /\
    (forall j, j < i * fs \/ (i + 1) * fs <= j ->
       buf_read feat' j = buf_read feat j) /\
    goal_entries s feat' i a.
Proof.
  intros fs He Ha Hi Hfit Hact H. unfold observe_agent in H.
  apply bind_Ok in H as (p & Hp & H).
  apply bind_Ok in H as (a & Hget & H).
  apply bind_Ok in H as (v1 & _ & H).
  apply bind_Ok in H as (f1 & Hemb & H).
  apply bind_Ok in H as (f2 & Hw2 & H).
  apply bind_Ok in H as (f3 & Hw3 & H).
  apply bind_Ok in H as (f4 & Hw4 & H).
  apply bind_Ok in H as (f5 & Hw5 & H).
  injection H as <- <-.
  unfold buf_read in Hp. rewrite decide_True in Hp by lia.
  destruct (agents s !! Z.to_nat i) as [p'|] eqn:Hlk; [|discriminate].
  injection Hp as ->.
  unfold heap_get in Hget.
  destruct (objs (heap s) !! p) as [a'|] eqn:Hobj; [|discriminate].
  injection Hget as ->.
  specialize (Hact p a (list_elem_of_lookup_2 _ _ _ Hlk) Hobj).
  assert (Hfs : 3 <= fs <= 2147483647)
    by (unfold fs, CInt.INT_MAX in *; nia).
  assert (Hrow : 0 <= i * fs /\ (i + 1) * fs <= 2147483647)
    by (unfold CInt.INT_MAX in *; nia).
  assert (Hin : forall z, 0 <= z <= 2147483647 -> CInt.in_int z)
    by (intros z Hz; unfold CInt.in_int, CInt.INT_MIN, CInt.INT_MAX; lia).
  rewrite mul_exact in Hemb by (apply Hin; nia).
  rewrite (add_exact (embedding_size s) (agent_action a)) in Hw2
    by (apply Hin; unfold fs in *; lia).
  rewrite (add_exact (embedding_size s) ACT_NUM) in Hw3, Hw4, Hw5
    by (apply Hin; unfold fs in *; lia).
  rewrite (add_exact (embedding_size s + ACT_NUM) 1) in Hw4
    by (apply Hin; unfold fs in *; lia).
  rewrite (add_exact (embedding_size s + ACT_NUM) 2) in Hw5
    by (apply Hin; unfold fs in *; lia).
  rewrite index2_exact in Hw2 by (unfold fs in *; lia || exact Hfit).
  rewrite index2_exact in Hw3 by (unfold fs in *; lia || exact Hfit).
  rewrite index2_exact in Hw4 by (unfold fs in *; lia || exact Hfit).
  rewrite index2_exact in Hw5 by (unfold fs in *; lia || exact Hfit).
  unfold get_embedding in Hemb.
  pose proof (get_embedding_frame _ _ _ _ _ _ Hemb) as Hf1.
  exists p, a. split; [reflexivity|]. split; [exact Hobj|]. split.
  - intros j Hj.
    rewrite (buf_write_read_ne _ _ _ _ _ Hw5) by (unfold fs in *; nia).
    rewrite (buf_write_read_ne _ _ _ _ _ Hw4) by (unfold fs in *; nia).
    rewrite (buf_write_read_ne _ _ _ _ _ Hw3) by (unfold fs in *; nia).
    rewrite (buf_write_read_ne _ _ _ _ _ Hw2) by (unfold fs in *; nia).
    apply Hf1. unfold fs in *. nia.
  - unfold goal_entries. fold fs. split; [|split].
    + rewrite (buf_write_read_ne _ _ _ _ _ Hw5) by lia.
      rewrite (buf_write_read_ne _ _ _ _ _ Hw4) by lia.
      replace (i * fs + embedding_size s + ACT_NUM)
        with (i * fs + (embedding_size s + ACT_NUM)) by lia.
      exact (buf_write_read_eq _ _ _ _ Hw3).
    + rewrite (buf_write_read_ne _ _ _ _ _ Hw5) by lia.
      replace ((i + 1) * fs - 2)
        with (i * fs + (embedding_size s + ACT_NUM + 1)) by (unfold fs; lia).
      exact (buf_write_read_eq _ _ _ _ Hw4).
    + replace ((i + 1) * fs - 1)
        with (i * fs + (embedding_size s + ACT_NUM + 2)) by (unfold fs; lia).
      exact (buf_write_read_eq _ _ _ _ Hw5).
Qed.

(** C5 (as amended). Let the sizes be non-negative, every flat index of the
    feature buffer fit an [int], and every agent hold an action of the
    enumeration. Whenever [get_observation] returns, the slice of agent
    [i] (every agent of the vector, dead-flagged or not) has, right after
    the one-hot of the action, the last reward, and then as its last two
    cells [posX - goalX] and [posY - goalY]: position minus goal. *)
Theorem goal_difference_is_pos_minus_goal (s : state) (group : Z)
    (view feat view' feat' : list float) (i : nat) (p : loc) (a : Agent) :
  0 <= embedding_size s -> 0 <= ACT_NUM ->
  Z.of_nat (length (agents s)) * (embedding_size s + ACT_NUM + 1 + 2)
    <= CInt.INT_MAX ->
  (forall q b, q ∈ agents s -> objs (heap s) !! q = Some b ->
     0 <= agent_action b < ACT_NUM) ->
  get_observation s group view feat = Ok (view', feat') ->
  agents s !! i = Some p -> objs (heap s) !! p = Some a ->
  goal_entries s feat' (Z.of_nat i) a.
Proof.
  intros He Ha Hfit Hact Hrun Hp Hobj.
  set (fs := embedding_size s + ACT_NUM + 1 + 2) in *.
  pose proof (lookup_lt_Some _ _ _ Hp) as Hi.
  assert (Hfs : get_feature_size_ s group = fs).
  { apply feature_size_exact; [|exact Ha|fold fs; unfold CInt.INT_MAX in *; nia].
    unfold CInt.in_int, CInt.INT_MIN, CInt.INT_MAX in *. unfold fs in *. nia. }
  unfold get_observation in Hrun. rewrite Hfs in Hrun.
  apply bind_Ok in Hrun as (view0 & _ & Hrun).
  apply bind_Ok in Hrun as (feat0 & _ & Hrun).
  pose proof (for_loop_invariant
    (fun k (bufs : list float * list float) =>
       forall i' q b, (i' < k)%nat -> agents s !! i' = Some q ->
         objs (heap s) !! q = Some b -> goal_entries s bufs.2 (Z.of_nat i') b)
    (observe_agent s fs) (length (agents s)) 0 (view0, feat0) (view', feat'))
    as Hloop.
  refine (Hloop ltac:(simpl; intros; exfalso; lia) _ Hrun i p a Hi Hp Hobj).
  clear Hloop Hrun. intros k [v1 f1] [v2 f2] Hk Hprev Hbody.
  apply observe_agent_spec in Hbody as (pk & ak & Hpk & Hak & Hframe & Hrow);
    [|exact He|exact Ha|lia|fold fs; unfold CInt.INT_MAX in *; nia|exact Hact].
  replace (Z.to_nat (0 + Z.of_nat k)) with k in Hpk by lia.
  replace (0 + Z.of_nat k) with (Z.of_nat k) in Hframe, Hrow by lia.
  intros i' q b Hi' Hq Hb. simpl.
  destruct (decide (i' = k)) as [->|Hne].
  - assert (q = pk) as -> by congruence. assert (b = ak) as -> by congruence.
    exact Hrow.
  - specialize (Hprev i' q b ltac:(lia) Hq Hb). simpl in Hprev.
    unfold goal_entries in *. fold fs in Hprev, Hframe |- *.
    destruct Hprev as (H1 & H2 & H3).
    assert (Hlt : (Z.of_nat i' + 1) * fs <= Z.of_nat k * fs) by nia.
    rewrite !Hframe by (left; unfold fs in *; lia). auto.
Qed.

Lemma reset_agents (s s' : state) : reset s = Ok s' -> agents s' = agents s.
Proof.
  unfold reset. intros H.
  apply bind_Ok in H as (m & _ & H). apply bind_Ok in H as (h & _ & H).
  injection H as <-. reflexivity.
Qed.

Lemma add_wall_row_records (buf : NDPointer Z) (i : Z) (s s' : state) :
  add_wall_row buf i s = Ok s' ->
  exists v, walls s' = walls s ++ [mkPosition v 0].
Proof.
  unfold add_wall_row. intros H.
  apply bind_Ok in H as (x & _ & H). apply bind_Ok in H as (y & _ & H).
  apply bind_Ok in H as (m & _ & H). apply bind_Ok in H as (k & _ & H).
  apply bind_Ok in H as (v & _ & H). injection H as <-.
  exists v. reflexivity.
Qed.

End EngineFacts.

(** ** The engine on the concrete city *)

(** C3 (counterexample). On a city with one traffic light whose only car is
    dead, so that "all agents dead" holds, [step] with [done = 0] neither
    changes the state nor the flag. *)
Lemma step_does_not_tick :
  exists s : city,
    light_and_dead_car = Ok s /\
    lights s <> [] /\
    agents s <> [] /\
    (forall p, p ∈ agents s ->
       exists a, heap_get (heap s) p = Ok a /\ is_dead a = true) /\
    ~ (exists s' done', step s 0 = Ok (s', done') /\ (s' <> s \/ done' <> 0)).
Proof.
  eexists. split; [vm_compute; reflexivity|].
  split; [discriminate|]. split; [discriminate|]. split.
  - intros p Hp. apply list_elem_of_singleton in Hp. subst p.
    eexists. split; vm_compute; reflexivity.
  - intros (s' & done' & Hstep & Hchg). unfold step in Hstep.
    injection Hstep as <- <-. destruct Hchg as [Hchg|Hchg]; apply Hchg; reflexivity.
Qed.

(** C5 (counterexample). One car at (3, 1) with goal (5, 7), on the
    sixteen-component embedding and five actions: the last two cells of its
    24-cell slice hold 3 - 5 and 1 - 7, not 5 - 3 and 7 - 1. *)
Lemma goal_difference_sign :
  exists (s : city) (a : Agent) (view feat : list float),
    car_with_goal = Ok s /\
    heap_get (heap s) 0%nat = Ok a /\
    get_observation (Hdr := city_headers 0) s 0
      (replicate 36 float_zero) (replicate 24 float_zero) = Ok (view, feat) /\
    buf_read feat 22 = Ok (float_of_int (-2)) /\
    buf_read feat 23 = Ok (float_of_int (-6)) /\
    buf_read feat 22
      <> Ok (float_of_int (pos_x (agent_goal a) - pos_x (agent_pos a))) /\
    buf_read feat 23
      <> Ok (float_of_int (pos_y (agent_goal a) - pos_y (agent_pos a))).
Proof.
  eexists. eexists. eexists. eexists.
  split; [vm_compute; reflexivity|]. split; [vm_compute; reflexivity|].
  split; [vm_compute; reflexivity|].
  split; [vm_compute; reflexivity|]. split; [vm_compute; reflexivity|].
  split; vm_compute; discriminate.
Qed.

(** C1 (counterexample). An id is handed out twice. The first car gets id
    0; it is flagged dead and compacted away, the engine is reset, which
    puts [id_counter] back to 0, and a second car is injected. Every call
    returns, the second car is another object than the first, and its id
    is 0 again. *)
Lemma ids_reused_after_reset :
  exists (s1 s2 : city) (a b : Agent),
    first_car = Ok s1 /\ agents s1 = [0%nat] /\
    objs (heap s1) !! 0%nat = Some a /\
    second_car = Ok s2 /\ agents s2 = [1%nat] /\
    objs (heap s2) !! 1%nat = Some b /\
    population_valid s2 /\
    agent_id a = 0 /\ agent_id b = 0 /\
    ~ agent_id b <> agent_id a.
Proof.
  eexists. eexists. eexists. eexists.
  split; [vm_compute; reflexivity|]. split; [vm_compute; reflexivity|].
  split; [vm_compute; reflexivity|]. split; [vm_compute; reflexivity|].
  split; [vm_compute; reflexivity|]. split; [vm_compute; reflexivity|].
  split.
  - split.
    + refine (bool_decide_unpack _ _). vm_compute. exact I.
    + intros p Hp. apply list_elem_of_singleton in Hp. subst p.
      eexists. vm_compute. reflexivity.
  - split; [reflexivity|]. split; [reflexivity|].
    intros Hne. apply Hne. reflexivity.
Qed.

(** The raw values of [std::minstd_rand0] stay between [min()] and [max()],
    and each of them is the next value of exactly one state of the engine:
    over the states of the engine the raw value is spread evenly. *)
Lemma minstd_rand0_range (e : minstd_rand0) :
  1 <= e <= 2147483646 ->
  minstd_rand0_min <= (engine_call e).1 <= minstd_rand0_max /\
  1 <= (engine_call e).2 <= 2147483646.
Proof.
  intros He. simpl. unfold minstd_rand0_min, minstd_rand0_max.
  pose proof (Z.mod_pos_bound (16807 * e) 2147483647 ltac:(lia)) as Hm.
  assert (Hnz : (16807 * e) mod 2147483647 <> 0).
  { intros Hz. apply Z.mod_divide in Hz; [|lia].
    apply Z.gauss in Hz; [|reflexivity].
    destruct Hz as [q Hq]. nia. }
  lia.
Qed.

Lemma minstd_rand0_one_state_per_raw (raw : Z) :
  minstd_rand0_min <= raw <= minstd_rand0_max ->
  exists e : minstd_rand0,
    1 <= e <= 2147483646 /\ (engine_call e).1 = raw /\
    forall e' : minstd_rand0,
      1 <= e' <= 2147483646 -> (engine_call e').1 = raw -> e' = e.
Proof.
  unfold minstd_rand0_min, minstd_rand0_max. intros Hraw.
  assert (Hinv : forall x, 0 <= x < 2147483647 ->
            (1407677000 * ((16807 * x) mod 2147483647)) mod 2147483647 = x).
  { intros x Hx. rewrite Z.mul_mod_idemp_r by lia.
    replace (1407677000 * (16807 * x)) with (x + 11017 * x * 2147483647) by lia.
    rewrite Z.mod_add by lia. apply Z.mod_small. exact Hx. }
  assert (Hfwd : forall y, 0 <= y < 2147483647 ->
            (16807 * ((1407677000 * y) mod 2147483647)) mod 2147483647 = y).
  { intros y Hy. rewrite Z.mul_mod_idemp_r by lia.
    replace (16807 * (1407677000 * y)) with (y + 11017 * y * 2147483647) by lia.
    rewrite Z.mod_add by lia. apply Z.mod_small. exact Hy. }
  exists ((1407677000 * raw) mod 2147483647).
  pose proof (Z.mod_pos_bound (1407677000 * raw) 2147483647 ltac:(lia)) as Hm.
  split; [|split].
  - assert ((1407677000 * raw) mod 2147483647 <> 0); [|lia].
    intros Hz. pose proof (Hfwd raw ltac:(lia)) as Hf. rewrite Hz in Hf.
    rewrite Z.mul_0_r, Z.mod_0_l in Hf by lia. lia.
  - simpl. apply Hfwd. lia.
  - intros e' He' Hcall. simpl in Hcall. rewrite <- Hcall. symmetry.
    apply Hinv. lia.
Qed.

Lemma filter_fmap_length {A B} (f : A -> B) (P : B -> Prop)
    `{!forall x, Decision (P x)} (l : list A) :
  length (filter (fun x => P (f x)) l) = length (filter P (f <$> l)).
Proof.
  induction l as [|x l IH]; [reflexivity|].
  rewrite fmap_cons, !filter_cons. destruct (decide (P (f x))); simpl; lia.
Qed.

(** One call of the engine permutes its states. *)
Lemma minstd_rand0_permutes :
  (fun e : minstd_rand0 => (engine_call e).1) <$> seqZ 1 2147483646
  ≡ₚ seqZ 1 2147483646.
Proof.
  apply NoDup_Permutation.
  - apply NoDup_fmap_2_strong; [|apply NoDup_seqZ].
    intros e1 e2 H1 H2 Heq. apply elem_of_seqZ in H1, H2.
    destruct (minstd_rand0_one_state_per_raw ((engine_call e1).1))
      as (e & _ & _ & Huniq).
    { apply minstd_rand0_range. lia. }
    rewrite (Huniq e1) by (lia || reflexivity).
    rewrite (Huniq e2) by (lia || (symmetry; exact Heq)). reflexivity.
  - apply NoDup_seqZ.
  - intros raw. rewrite list_elem_of_fmap. setoid_rewrite elem_of_seqZ. split.
    + intros (e & -> & He).
      pose proof (minstd_rand0_range e ltac:(lia)) as [Hr _].
      unfold minstd_rand0_min, minstd_rand0_max in Hr. lia.
    + intros Hraw.
      destruct (minstd_rand0_one_state_per_raw raw) as (e & He & Hcall & _).
      { unfold minstd_rand0_min, minstd_rand0_max. lia. }
      exists e. split; [symmetry; exact Hcall|lia].
Qed.

(** As many states give an interval as raw values do. *)
Lemma states_giving_count (imin imax v : Z) :
  length (states_giving imin imax v)
  = length (raws_giving imin imax v 1 2147483646).
Proof.
  unfold states_giving, raws_giving.
  etransitivity;
    [exact (filter_fmap_length (fun e : minstd_rand0 => (engine_call e).1)
              (fun raw => draw_interval raw imin imax = Ok v) _)|].
  apply Permutation_length. apply filter_Permutation.
  exact minstd_rand0_permutes.
Qed.

(** C6 (counterexample). With the default bounds 10 and 20 and
    [std::minstd_rand0], the draw is not uniform: of the 2147483646 states
    of the engine, 214748364 give the next light the interval 10 and
    214748365 give it the interval 11; the same holds of the raw values 1
    to 2147483646 that the engine returns. *)
Lemma light_interval_not_uniform :
  Z.of_nat (length (states_giving (interval_min fresh_city)
                      (interval_max fresh_city) 10)) = 214748364 /\
  Z.of_nat (length (states_giving (interval_min fresh_city)
                      (interval_max fresh_city) 11)) = 214748365 /\
  ~ evenly_drawn (interval_min fresh_city) (interval_max fresh_city)
      minstd_rand0_min (minstd_rand0_max - minstd_rand0_min + 1).
Proof.
  assert (Emin : interval_min fresh_city = 10) by (vm_compute; reflexivity).
  assert (Emax : interval_max fresh_city = 20) by (vm_compute; reflexivity).
  rewrite Emin, Emax. unfold minstd_rand0_min, minstd_rand0_max.
  change (2147483646 - 1 + 1) with 2147483646.
  assert (H10 : Z.of_nat (length (raws_giving 10 20 10 1 2147483646))
                = 214748364).
  { rewrite count_raws
      by (unfold CInt.in_int, CInt.INT_MIN, CInt.INT_MAX; lia).
    reflexivity. }
  assert (H11 : Z.of_nat (length (raws_giving 10 20 11 1 2147483646))
                = 214748365).
  { rewrite count_raws
      by (unfold CInt.in_int, CInt.INT_MIN, CInt.INT_MAX; lia).
    reflexivity. }
  split; [rewrite states_giving_count; exact H10|].
  split; [rewrite states_giving_count; exact H11|].
  intros Heven. specialize (Heven 10 11 ltac:(lia) ltac:(lia)).
  rewrite Heven in H10. rewrite H10 in H11. discriminate H11.
Qed.

(** C2 (the code at the failing input). Two cars are created and the engine
    is reset: [get_info(car, "num")] still reports 2, and a bulk read over
    the vector dereferences deleted agents. In general [reset] returns the
    vector it was given. *)
Theorem reset_keeps_agent_vector :
  (s ← two_cars; s ← reset s;
   get_info (Hdr := city_headers 0) s 0 "num" [IntCell 0]) = Ok [IntCell 2] /\
  (s ← two_cars; s ← reset s; get_reward s 0 [float_zero; float_zero])
    = Undefined /\
  (forall s s' : city, reset s = Ok s' -> agents s' = agents s).
Proof.
  split; [vm_compute; reflexivity|]. split; [vm_compute; reflexivity|].
  exact reset_agents.
Qed.

(** C8 (the code at the failing input). One wall at (3, 1) is injected with
    the "custom" method on the fresh city: the map marks cell (3, 1), the
    recorded wall list receives (1, 0), whatever the stray dimension is. In
    general every row that is recorded is recorded with [y = 0]. *)
Theorem recorded_wall_differs (d : Z) :
  (s ← city0;
   s ← add_object (Hdr := city_headers d) s (-1) 1 "custom" [3; 1];
   Ok (walls s, cells (map s) !! (3, 1), cells (map s) !! (1, 0)))
  = Ok ([mkPosition 1 0], Some TagWall, None) /\
  (forall (buf : NDPointer Z) (i : Z) (s s' : city),
     add_wall_row (Hdr := city_headers d) buf i s = Ok s' ->
     exists v, walls s' = walls s ++ [mkPosition v 0]).
Proof.
  split; [vm_compute; reflexivity|].
  exact (add_wall_row_records (Hdr := city_headers d)).
Qed.

(** ** The general results at work on the concrete city *)

Lemma minstd_rand0_fits_int (e : minstd_rand0) :
  0 <= (engine_call e).1 <= CInt.INT_MAX.
Proof.
  simpl. unfold CInt.INT_MAX.
  pose proof (Z.mod_pos_bound (16807 * e) 2147483647 ltac:(lia)). lia.
Qed.

Lemma mixed_city_valid : population_valid mixed_city.
Proof.
  split.
  - refine (bool_decide_unpack _ _). vm_compute. exact I.
  - intros p Hp. repeat (apply elem_of_cons in Hp as [->|Hp]);
      [eexists; vm_compute; reflexivity ..|apply elem_of_nil in Hp; destruct Hp].
Qed.

Lemma mixed_city_ids : ids_wellformed mixed_city.
Proof.
  split; [exact mixed_city_valid|]. split; [vm_compute; split; discriminate|].
  split; [|split].
  - intros p Hp. repeat (apply elem_of_cons in Hp as [->|Hp]);
      [vm_compute; lia ..|apply elem_of_nil in Hp; destruct Hp].
  - intros p a Hp Ha. repeat (apply elem_of_cons in Hp as [->|Hp]);
      [vm_compute in Ha; injection Ha as <-; vm_compute; reflexivity ..
      |apply elem_of_nil in Hp; destruct Hp].
  - intros p q a b Hp Hq Ha Hb Hid.
    repeat (apply elem_of_cons in Hp as [->|Hp]);
      [..|apply elem_of_nil in Hp; destruct Hp];
      (repeat (apply elem_of_cons in Hq as [->|Hq]);
        [..|apply elem_of_nil in Hq; destruct Hq]);
      vm_compute in Ha, Hb; injection Ha as <-; injection Hb as <-;
      first [reflexivity|discriminate Hid].
Qed.

(** Witness of C1: from the two-car city with a dead car, through a
    compaction, a new car and a wall. *)
Lemma ids_unique_and_stable_witness :
  ids_wellformed mixed_city /\
  id_counter mixed_city + cars_requested busy_calls <= CInt.INT_MAX /\
  run (Hdr := city_headers 0) mixed_city busy_calls = Ok busy_city /\
  ids_wellformed busy_city /\
  (forall p q a b, p ∈ agents busy_city -> q ∈ agents busy_city -> p <> q ->
     objs (heap busy_city) !! p = Some a -> objs (heap busy_city) !! q = Some b ->
     agent_id a <> agent_id b) /\
  id_counter busy_city = id_counter mixed_city + cars_requested busy_calls /\
  (forall p a', p ∈ agents busy_city -> objs (heap busy_city) !! p = Some a' ->
     (p ∈ agents mixed_city /\
      exists a, objs (heap mixed_city) !! p = Some a /\
                agent_id a' = agent_id a /\
                agent_id a' < id_counter mixed_city) \/
     id_counter mixed_city <= agent_id a' < id_counter busy_city).
Proof.
  assert (H1 : ids_wellformed mixed_city) by exact mixed_city_ids.
  assert (H2 : id_counter mixed_city + cars_requested busy_calls <= CInt.INT_MAX)
    by (vm_compute; discriminate).
  assert (H3 : run (Hdr := city_headers 0) mixed_city busy_calls = Ok busy_city)
    by (vm_compute; reflexivity).
  split; [exact H1|]. split; [exact H2|]. split; [exact H3|].
  exact (ids_unique_and_stable (Hdr := city_headers 0)
           mixed_city busy_city busy_calls H1 H2 H3).
Defined.

(** Witness of C4: compaction of the two-car city with a dead car. *)
Lemma clear_dead_compacts_witness :
  population_valid mixed_city /\
  Z.of_nat (length (agents mixed_city)) <= CInt.INT_MAX /\
  exists s', clear_dead mixed_city = Ok s' /\
    agents s' = filter (fun p => survives (heap mixed_city) p) (agents mixed_city) /\
    (forall p, p ∈ agents mixed_city -> dead_at (heap mixed_city) p ->
       objs (heap s') !! p = None) /\
    (forall p, p ∈ agents s' ->
       exists a, objs (heap mixed_city) !! p = Some a /\
                 objs (heap s') !! p = Some (init_reward a) /\
                 agent_reward (init_reward a) = float_zero) /\
    length (agents s') = (length (agents mixed_city) - dead_count mixed_city)%nat /\
    get_info (Hdr := city_headers 0) s' 0 "num" [IntCell 7] =
      Ok [IntCell (Z.of_nat (length (agents mixed_city))
                   - Z.of_nat (dead_count mixed_city))].
Proof.
  assert (H1 : population_valid mixed_city) by exact mixed_city_valid.
  assert (H2 : Z.of_nat (length (agents mixed_city)) <= CInt.INT_MAX)
    by (vm_compute; discriminate).
  split; [exact H1|]. split; [exact H2|].
  exact (clear_dead_compacts (Hdr := city_headers 0) mixed_city (IntCell 7) [] H1 H2).
Defined.

(** Witness of C10: the same city, whose vector of two holds one live car. *)
Lemma num_counts_the_vector_witness :
  population_valid mixed_city /\
  Z.of_nat (length (agents mixed_city)) <= CInt.INT_MAX /\
  get_info (Hdr := city_headers 0) mixed_city 0 "num" [IntCell 7] =
    Ok [IntCell (Z.of_nat (length (agents mixed_city)))] /\
  length (agents mixed_city) = (live_count mixed_city + dead_count mixed_city)%nat /\
  ((exists p, p ∈ agents mixed_city /\ dead_at (heap mixed_city) p) ->
     (live_count mixed_city < length (agents mixed_city))%nat) /\
  exists s', clear_dead mixed_city = Ok s' /\
    get_info (Hdr := city_headers 0) s' 0 "num" [IntCell 7]
      = Ok [IntCell (Z.of_nat (live_count mixed_city))] /\
    live_count s' = live_count mixed_city /\
    live_count s' = length (agents s').
Proof.
  assert (H1 : population_valid mixed_city) by exact mixed_city_valid.
  assert (H2 : Z.of_nat (length (agents mixed_city)) <= CInt.INT_MAX)
    by (vm_compute; discriminate).
  split; [exact H1|]. split; [exact H2|].
  exact (num_counts_the_vector (Hdr := city_headers 0) mixed_city (IntCell 7) [] H1 H2).
Defined.

(** Witness of C5 (as amended): the car at (3, 1) with goal (5, 7). *)
Lemma goal_difference_is_pos_minus_goal_witness :
  0 <= embedding_size goal_city /\
  0 <= ACT_NUM (Headers := city_headers 0) /\
  Z.of_nat (length (agents goal_city))
    * (embedding_size goal_city + ACT_NUM (Headers := city_headers 0) + 1 + 2)
    <= CInt.INT_MAX /\
  (forall q b, q ∈ agents goal_city -> objs (heap goal_city) !! q = Some b ->
     0 <= agent_action b < ACT_NUM (Headers := city_headers 0)) /\
  get_observation (Hdr := city_headers 0) goal_city 0
    (replicate 36 float_zero) (replicate 24 float_zero)
    = Ok (goal_observation.1, goal_observation.2) /\
  agents goal_city !! 0%nat = Some 0%nat /\
  objs (heap goal_city) !! 0%nat
    = Some (mkAgent 0 (mkPosition 3 1) (mkPosition 5 7) 0 float_zero float_zero false) /\
  goal_entries (H := city_headers 0) goal_city goal_observation.2 0
    (mkAgent 0 (mkPosition 3 1) (mkPosition 5 7) 0 float_zero float_zero false).
Proof.
  assert (H1 : 0 <= embedding_size goal_city) by (vm_compute; discriminate).
  assert (H2 : 0 <= ACT_NUM (Headers := city_headers 0))
    by (vm_compute; discriminate).
  assert (H3 : Z.of_nat (length (agents goal_city))
               * (embedding_size goal_city
                  + ACT_NUM (Headers := city_headers 0) + 1 + 2)
               <= CInt.INT_MAX) by (vm_compute; discriminate).
  assert (H4 : forall q b, q ∈ agents goal_city ->
                 objs (heap goal_city) !! q = Some b ->
                 0 <= agent_action b < ACT_NUM (Headers := city_headers 0)).
  { intros q b Hq Hb. repeat (apply elem_of_cons in Hq as [->|Hq]);
      [vm_compute in Hb; injection Hb as <-; vm_compute; split;
         [discriminate|reflexivity] ..
      |apply elem_of_nil in Hq; destruct Hq]. }
  assert (H5 : get_observation (Hdr := city_headers 0) goal_city 0
                 (replicate 36 float_zero) (replicate 24 float_zero)
               = Ok (goal_observation.1, goal_observation.2))
    by (vm_compute; reflexivity).
  assert (H6 : agents goal_city !! 0%nat = Some 0%nat) by (vm_compute; reflexivity).
  assert (H7 : objs (heap goal_city) !! 0%nat
               = Some (mkAgent 0 (mkPosition 3 1) (mkPosition 5 7) 0 float_zero
                         float_zero false)) by (vm_compute; reflexivity).
  split; [exact H1|]. split; [exact H2|]. split; [exact H3|].
  split; [exact H4|]. split; [exact H5|]. split; [exact H6|]. split; [exact H7|].
  exact (goal_difference_is_pos_minus_goal (Hdr := city_headers 0) goal_city 0
           _ _ _ _ 0%nat 0%nat _ H1 H2 H3 H4 H5 H6 H7).
Defined.

(** Witness of C6 (as amended): two lights on the fresh city, drawn with
    [std::minstd_rand0] from the default bounds 10 and 20. *)
Lemma light_interval_drawn_once_witness :
  (forall e : minstd_rand0, 0 <= (engine_call e).1 <= CInt.INT_MAX) /\
  CInt.in_int (interval_min fresh_city) /\
  CInt.in_int (interval_max fresh_city) /\
  interval_min fresh_city < interval_max fresh_city /\
  add_object (Hdr := city_headers 0) fresh_city (-2) 2 "custom" two_lights
    = Ok lit_city /\
  exists new,
    lights lit_city = lights fresh_city ++ new /\
    length new = Z.to_nat 2 /\
    random_engine lit_city
      = Nat.iter (Z.to_nat 2) advance (random_engine fresh_city) /\
    (forall j l, new !! j = Some l ->
       draw_interval (nth_raw (random_engine fresh_city) j)
         (interval_min fresh_city) (interval_max fresh_city)
         = Ok (light_interval l) /\
       interval_min fresh_city <= light_interval l < interval_max fresh_city) /\
    (forall q v,
       interval_max fresh_city - interval_min fresh_city <= CInt.INT_MAX ->
       0 <= q ->
       (q + 1) * (interval_max fresh_city - interval_min fresh_city) - 1
         <= CInt.INT_MAX ->
       interval_min fresh_city <= v < interval_max fresh_city ->
       exists raw,
         q * (interval_max fresh_city - interval_min fresh_city) <= raw
           < (q + 1) * (interval_max fresh_city - interval_min fresh_city) /\
         draw_interval raw (interval_min fresh_city) (interval_max fresh_city)
           = Ok v /\
         forall raw',
           q * (interval_max fresh_city - interval_min fresh_city) <= raw'
             < (q + 1) * (interval_max fresh_city - interval_min fresh_city) ->
           draw_interval raw' (interval_min fresh_city) (interval_max fresh_city)
             = Ok v ->
           raw' = raw) /\
    (forall lo len v1 v2,
       interval_max fresh_city - interval_min fresh_city <= CInt.INT_MAX ->
       0 <= lo -> 0 <= len -> lo + len - 1 <= CInt.INT_MAX ->
       interval_min fresh_city <= v1 < interval_max fresh_city ->
       interval_min fresh_city <= v2 < interval_max fresh_city ->
       Z.abs
         (Z.of_nat
            (length (raws_giving (interval_min fresh_city)
                       (interval_max fresh_city) v1 lo len))
          - Z.of_nat
              (length (raws_giving (interval_min fresh_city)
                         (interval_max fresh_city) v2 lo len)))
       <= 1).
Proof.
  assert (H1 : forall e : minstd_rand0, 0 <= (engine_call e).1 <= CInt.INT_MAX)
    by exact minstd_rand0_fits_int.
  assert (H2 : CInt.in_int (interval_min fresh_city))
    by (vm_compute; split; discriminate).
  assert (H3 : CInt.in_int (interval_max fresh_city))
    by (vm_compute; split; discriminate).
  assert (H4 : interval_min fresh_city < interval_max fresh_city)
    by (vm_compute; reflexivity).
  assert (H5 : add_object (Hdr := city_headers 0) fresh_city (-2) 2 "custom"
                 two_lights = Ok lit_city) by (vm_compute; reflexivity).
  split; [exact H1|]. split; [exact H2|]. split; [exact H3|].
  split; [exact H4|]. split; [exact H5|].
  exact (light_interval_drawn_once (Hdr := city_headers 0) fresh_city lit_city 2
           two_lights H1 H2 H3 H4 H5).
Defined.

(** * Further properties of the engine *)

Section ConfigFacts.

Context `{Hdr : Headers} {Map Engine : Type}.
Context `{EO : !EngineOps Engine} `{MO : !MapOps Map Engine}.

Local Abbreviation state := (TransCity.state Map Engine).

Lemma byte_val_of_Z (z : Z) : byte_val (byte_of_Z z) = z mod 256.
Proof.
  unfold byte_val, byte_of_Z.
  pose proof (Z.mod_pos_bound z 256 ltac:(lia)) as Hz.
  destruct (Byte.of_N (Z.to_N (z mod 256))) as [b|] eqn:Hb.
  - apply Byte.to_of_N in Hb. rewrite Hb. lia.
  - apply Byte.of_N_None_iff in Hb. lia.
Qed.

Lemma wrap_mod (z : Z) : CInt.wrap (z mod 4294967296) = CInt.wrap z.
Proof.
  unfold CInt.wrap. rewrite Zplus_mod_idemp_l. reflexivity.
Qed.

(** An [int] read back from its object representation. *)
Lemma read_int_bytes_of_int (z : Z) :
  read_int (bytes_of_int z) = Ok (CInt.wrap z).
Proof.
  unfold read_int, read_bytes, bytes_of_int, int_of_bytes. simpl.
  rewrite !byte_val_of_Z. f_equal. rewrite <- (wrap_mod z). f_equal.
  pose proof (Z.div_mod z 256 ltac:(lia)).
  pose proof (Z.div_mod (z / 256) 256 ltac:(lia)).
  pose proof (Z.div_mod (z / 256 / 256) 256 ltac:(lia)).
  pose proof (Z.mod_pos_bound z 256 ltac:(lia)).
  pose proof (Z.mod_pos_bound (z / 256) 256 ltac:(lia)).
  pose proof (Z.mod_pos_bound (z / 256 / 256) 256 ltac:(lia)).
  pose proof (Z.mod_pos_bound (z / 256 / 256 / 256) 256 ltac:(lia)).
  pose proof (Z.div_mod (z / 256 / 256 / 256) 256 ltac:(lia)).
  replace (z / 65536) with (z / 256 / 256)
    by (rewrite Z.div_div by lia; reflexivity).
  replace (z / 16777216) with (z / 256 / 256 / 256)
    by (rewrite !Z.div_div by lia; reflexivity).
  apply (Z.mod_unique_pos _ _ (z / 256 / 256 / 256 / 256)); lia.
Qed.

Lemma c_string_terminated (p : list Byte.byte) :
  (exists b, b ∈ p /\ byte_val b = 0) -> exists str, c_string p = Ok str.
Proof.
  induction p as [|b p IH]; intros (b0 & Hin & Hz).
  - apply elem_of_nil in Hin. destruct Hin.
  - simpl. case_decide as Hb; [eexists; reflexivity|].
    apply elem_of_cons in Hin as [->|Hin]; [contradiction|].
    destruct IH as (str & ->); [exists b0; split; assumption|].
    eexists. reflexivity.
Qed.

(** X1. [set_config] reads four bytes at [p_value] before it looks at the
    key: on a shorter object every call, known key or not, reads past the
    caller's object. On an object of four bytes or more it returns normally
    for each of its nine keys (for "render_dir", when the object holds a
    terminated string) and aborts with the key in the message for every
    other key. *)
Theorem set_config_known_or_fatal (s : state) (key : string)
    (p_value : list Byte.byte) :
  ((length p_value < 4)%nat -> set_config s key p_value = Undefined) /\
  ((4 <= length p_value)%nat ->
     (key ∈ config_keys ->
      (key = "render_dir" -> exists b, b ∈ p_value /\ byte_val b = 0) ->
      exists s', set_config s key p_value = Ok s') /\
     (key ∉ config_keys ->
      set_config s key p_value =
      Fatal (String.append "invalid argument in TransCity::set_config: " key))).
Proof.
  split.
  - intros Hshort. unfold set_config, read_bytes.
    destruct (decide (4 <= length p_value)%nat); [lia|reflexivity].
  - intros Hlong. unfold set_config, read_int, read_bytes.
    destruct (decide (4 <= length p_value)%nat); [|lia].
    destruct (decide (1 <= length p_value)%nat); [|lia].
    cbn [mbind result_bind]. split.
    + intros Hin Hstr.
      repeat (case_decide; [eexists; reflexivity|]).
      case_decide as Hdir.
      { destruct (c_string_terminated p_value (Hstr Hdir)) as (str & ->).
        eexists. reflexivity. }
      case_decide; [eexists; reflexivity|].
      exfalso. unfold config_keys in Hin.
      repeat (apply elem_of_cons in Hin as [Hin|Hin]; [congruence|]).
      apply elem_of_nil in Hin. exact Hin.
    + intros Hout.
      assert (Hne : forall k, k ∈ config_keys -> key <> k)
        by (intros k Hk ->; exact (Hout Hk)).
      rewrite !decide_False
        by (apply Hne; unfold config_keys; rewrite !elem_of_cons; auto 20).
      reflexivity.
Qed.

(** X2. What [set_config] stores is what [get_info] reports: the view size
    passed as [int]s under "view_height" and "view_width" comes back from
    "view_space" as height, width, channels; the embedding size passed
    under "embedding_size" comes back from "feature_space" with the action
    count and the three scalar cells added in [int] arithmetic. ([h], [w]
    and [e] stand for the [int]s with these low 32 bits: [CInt.wrap] is the
    identity on an [int].) *)
Theorem set_config_then_get_info (s : state) (group h w e : Z)
    (c0 c1 c2 : info_cell) (rest : list info_cell) :
  (s1 ← set_config s "view_height" (bytes_of_int h);
   s2 ← set_config s1 "view_width" (bytes_of_int w);
   get_info s2 group "view_space" (c0 :: c1 :: c2 :: rest))
  = Ok (IntCell (CInt.wrap h) :: IntCell (CInt.wrap w)
        :: IntCell CHANNEL_NUM :: rest) /\
  (s1 ← set_config s "embedding_size" (bytes_of_int e);
   get_info s1 group "feature_space" (c0 :: rest))
  = Ok (IntCell (CInt.add (CInt.add (CInt.add (CInt.wrap e) ACT_NUM) 1) 2)
        :: rest).
Proof.
  assert (H4 : forall z, read_bytes (bytes_of_int z) 4 = Ok (bytes_of_int z))
    by reflexivity.
  assert (H1 : forall z, read_bytes (bytes_of_int z) 1 = Ok [byte_of_Z z])
    by reflexivity.
  split; unfold set_config;
    rewrite ?H4, ?H1, ?read_int_bytes_of_int; cbn [mbind result_bind];
    repeat first
      [ rewrite decide_False by discriminate
      | rewrite decide_True by reflexivity ];
    cbn [mbind result_bind];
    rewrite ?H4, ?H1, ?read_int_bytes_of_int; cbn [mbind result_bind];
    repeat first
      [ rewrite decide_False by discriminate
      | rewrite decide_True by reflexivity ];
    cbn [mbind result_bind];
    unfold get_info, buf_write;
    repeat first
      [ rewrite decide_False by discriminate
      | rewrite decide_True by (reflexivity || (simpl; lia))
      | progress simpl ];
    reflexivity.
Qed.

(** X3. Whatever the key and the object passed, a [set_config] that
    returns leaves the agents, the heap, the id counter, the map, the four
    registries and the render flag as they were, and only the key "seed"
    touches the random engine. *)
Theorem set_config_keeps_the_scenario (s s' : state) (key : string)
    (p_value : list Byte.byte) :
  set_config s key p_value = Ok s' ->
  population s' = population s /\ scenery s' = scenery s /\
  map s' = map s /\ first_render s' = first_render s /\
  (key <> "seed" -> random_engine s' = random_engine s).
Proof.
  unfold set_config. intros Hrun.
  apply bind_Ok in Hrun as (b4 & _ & Hrun).
  apply bind_Ok in Hrun as (ivalue & _ & Hrun).
  apply bind_Ok in Hrun as (b1 & _ & Hrun). revert Hrun.
  repeat case_decide; intros Hrun;
    try (apply bind_Ok in Hrun as (str & _ & Hrun));
    try discriminate; injection Hrun as <-;
    repeat split; try reflexivity; intros Hk; contradiction.
Qed.

(** X4. The corner cases of [get_info]: an unknown name aborts with the
    name in the message; "num" answers 0 for the wall group and writes
    nothing at all for any group other than car and wall; "num" on an
    empty buffer writes out of bounds. *)
Theorem get_info_names_and_groups (s : state) (group : Z) (name : string)
    (c : info_cell) (rest buffer : list info_cell) :
  (name ∉ info_names ->
     get_info s group name buffer =
     Fatal (String.append "unsupported info name in TransCity::get_info : " name)) /\
  get_info s (-1) "num" (c :: rest) = Ok (IntCell 0 :: rest) /\
  (group <> 0 -> group <> -1 -> get_info s group "num" buffer = Ok buffer) /\
  get_info s 0 "num" [] = Undefined.
Proof.
  split; [|split; [|split]].
  - intros Hout. unfold get_info.
    assert (Hne : forall k, k ∈ info_names -> name <> k)
      by (intros k Hk ->; exact (Hout Hk)).
    rewrite !decide_False
      by (apply Hne; unfold info_names; rewrite !elem_of_cons; auto 20).
    reflexivity.
  - reflexivity.
  - intros H0 H1. unfold get_info.
    rewrite decide_False by discriminate. rewrite decide_True by reflexivity.
    rewrite !decide_False by assumption. reflexivity.
  - reflexivity.
Qed.

(** X5. A sequence of [render] calls configures the renderer at most once:
    [k + 1] calls in a row emit [gen_config(width, height)] first if and
    only if the flag [first_render] was set, then exactly [k + 1] frames
    of the unchanged vectors, and leave the flag cleared. *)
Theorem render_configures_once (s : state) (k : nat) :
  render_times (S k) s =
  (with_first_render s false,
   (if first_render s then [GenConfig (width s) (height s)] else [])
   ++ replicate (S k)
        (RenderFrame (agents s) (walls s) (lights s) (parks s) (buildings s))).
Proof.
  assert (Hlater : forall (n : nat) (t : state), first_render t = false ->
            render_times n t =
            (t, replicate n (RenderFrame (agents t) (walls t) (lights t)
                               (parks t) (buildings t)))).
  { induction n as [|n IH]; intros t Ht; [reflexivity|].
    simpl. unfold render. rewrite Ht. rewrite (IH t Ht). reflexivity. }
  simpl. unfold render. destruct (first_render s) eqn:Hf.
  - rewrite Hlater by reflexivity. reflexivity.
  - rewrite Hlater by exact Hf. destruct s. simpl in *. subst. reflexivity.
Qed.

End ConfigFacts.

Section PopulationFacts.

Context `{Hdr : Headers} {Map Engine : Type}.
Context `{EO : !EngineOps Engine} `{MO : !MapOps Map Engine}.

Local Abbreviation state := (TransCity.state Map Engine).

Lemma delete_all_spec (l : list loc) :
  forall h : Heap,
    NoDup l -> (forall p, p ∈ l -> is_Some (objs h !! p)) ->
    exists h', delete_all h l = Ok h' /\ next_loc h' = next_loc h /\
      forall p, objs h' !! p = if decide (p ∈ l) then None else objs h !! p.
Proof.
  induction l as [|q l IH]; intros h Hnd Hlive.
  - exists h. split; [reflexivity|]. split; [reflexivity|]. intros p.
    destruct (decide (p ∈ [])) as [Hin|_]; [|reflexivity].
    apply elem_of_nil in Hin. destruct Hin.
  - apply NoDup_cons in Hnd as [Hq Hnd].
    destruct (Hlive q ltac:(left)) as [a Ha].
    simpl. unfold heap_delete. rewrite Ha. simpl.
    destruct (IH (mkHeap (delete q (objs h)) (next_loc h)) Hnd)
      as (h' & Hrun & Hnext & Hobj).
    { intros p Hp. simpl. rewrite lookup_delete_ne by (intros ->; contradiction).
      apply Hlive. right. exact Hp. }
    exists h'. split; [exact Hrun|]. split; [exact Hnext|]. intros p.
    rewrite Hobj. simpl. destruct (decide (p = q)) as [->|Hne].
    + rewrite (decide_False (P := q ∈ l)) by exact Hq.
      rewrite lookup_delete_eq.
      rewrite (decide_True (P := q ∈ q :: l)) by left. reflexivity.
    + rewrite lookup_delete_ne by congruence.
      destruct (decide (p ∈ l)) as [Hin|Hnin].
      * rewrite (decide_True (P := p ∈ q :: l)) by (right; exact Hin).
        reflexivity.
      * rewrite (decide_False (P := p ∈ q :: l)); [reflexivity|].
        intros [Heq|Hin]%elem_of_cons; contradiction.
Qed.

Lemma delete_all_dangling (l : list loc) :
  forall (h : Heap) (p : loc),
    p ∈ l -> objs h !! p = None -> delete_all h l = Undefined.
Proof.
  induction l as [|q l IH]; intros h p Hp Hnone.
  - apply elem_of_nil in Hp. destruct Hp.
  - simpl. unfold heap_delete. destruct (objs h !! q) as [a|] eqn:Ha;
      [|reflexivity].
    simpl. apply elem_of_cons in Hp as [->|Hp]; [congruence|].
    apply (IH _ p Hp). simpl. destruct (decide (p = q)) as [->|Hne].
    + apply lookup_delete_eq.
    + rewrite lookup_delete_ne by congruence. exact Hnone.
Qed.

Lemma reset_dangles (s s' : state) :
  population_valid s -> reset s = Ok s' ->
  forall p, p ∈ agents s -> objs (heap s') !! p = None.
Proof.
  intros [Hnd Hlive] Hrun p Hp. unfold reset in Hrun.
  apply bind_Ok in Hrun as (m & _ & Hrun).
  apply bind_Ok in Hrun as (h & Hdel & Hrun). injection Hrun as <-.
  simpl in *.
  destruct (delete_all_spec (agents s) (heap s) Hnd Hlive) as (h' & Hdel' & _ & Hobj).
  rewrite Hdel in Hdel'. injection Hdel' as <-.
  rewrite Hobj, decide_True by exact Hp. reflexivity.
Qed.

(** X6. On a population of distinct valid pointers the destructor returns,
    having freed the object of every agent of the vector and nothing
    else. *)
Theorem destroy_frees_every_agent (s : state) :
  population_valid s ->
  exists h', destroy s = Ok h' /\
    (forall p, p ∈ agents s -> objs h' !! p = None) /\
    (forall p, p ∉ agents s -> objs h' !! p = objs (heap s) !! p).
Proof.
  intros [Hnd Hlive]. unfold destroy.
  destruct (delete_all_spec (agents s) (heap s) Hnd Hlive) as (h' & Hdel & _ & Hobj).
  exists h'. split; [exact Hdel|]. split.
  - intros p Hp. rewrite Hobj, decide_True by exact Hp. reflexivity.
  - intros p Hp. rewrite Hobj, decide_False by exact Hp. reflexivity.
Qed.

(** X7. When the map accepts the recorded walls, [reset] on a valid
    population returns: the counter is 0, the map is the rebuilt one, every
    agent object is freed, and the agent vector, the walls, the lights, the
    parks and the buildings are the ones it was given. *)
Theorem reset_rebuilds_the_map_only (s : state) (m : Map) :
  population_valid s ->
  map_reset (map s) (walls s) (width s) (height s) = Ok m ->
  exists s', reset s = Ok s' /\
    id_counter s' = 0 /\ map s' = m /\ agents s' = agents s /\
    scenery s' = scenery s /\
    (forall p, p ∈ agents s -> objs (heap s') !! p = None).
Proof.
  intros [Hnd Hlive] Hmap.
  destruct (delete_all_spec (agents s) (heap s) Hnd Hlive) as (h' & Hdel & _ & Hobj).
  exists (with_heap (with_map (with_id_counter s 0) m) h').
  split; [|repeat split].
  - unfold reset. simpl. rewrite Hmap. simpl. rewrite Hdel. reflexivity.
  - intros p Hp. simpl. rewrite Hobj, decide_True by exact Hp. reflexivity.
Qed.

Lemma for_loop_first_fails {St : Type} (body : Z -> St -> result St)
    (from : Z) (n : nat) (x : St) :
  body from x = Undefined -> for_loop from (S n) body x = Undefined.
Proof. intros Hb. simpl. rewrite Hb. reflexivity. Qed.

Lemma buf_zero_cases (b : list float) (n : Z) :
  buf_zero b n = Undefined \/ exists b', buf_zero b n = Ok b'.
Proof. unfold buf_zero. case_decide; [right; eexists; reflexivity|left; reflexivity]. Qed.

Lemma first_pointer (p0 : loc) (l : list loc) : buf_read (p0 :: l) 0 = Ok p0.
Proof. unfold buf_read. rewrite decide_True by lia. reflexivity. Qed.

Lemma heap_get_dangling (h : Heap) (p : loc) :
  objs h !! p = None -> heap_get h p = Undefined.
Proof. intros Hp. unfold heap_get. rewrite Hp. reflexivity. Qed.

(** X8. After [reset] has returned on a valid, non-empty population, the
    vector holds only freed agents: every per-agent call ([get_reward],
    [set_action], [get_info] "id" and "alive", [get_observation],
    [clear_dead]), the destructor and a second [reset] then touch a
    deleted object; none of them returns normally. *)
Theorem after_reset_every_agent_call_is_undefined (s s' : state) (group : Z)
    (buffer view feat : list float) (cells : list info_cell) (actions : list Z) :
  population_valid s -> agents s <> [] -> reset s = Ok s' ->
  get_reward s' group buffer = Undefined /\
  set_action s' group actions = Undefined /\
  get_info s' group "id" cells = Undefined /\
  get_info s' group "alive" cells = Undefined /\
  get_observation s' group view feat = Undefined /\
  clear_dead s' = Undefined /\
  destroy s' = Undefined /\
  (forall s'', reset s' <> Ok s'').
Proof.
  intros Hvalid Hne Hrun.
  pose proof (reset_dangles s s' Hvalid Hrun) as Hdang.
  pose proof (reset_agents s s' Hrun) as Hag.
  destruct (agents s) as [|p0 l] eqn:Hl; [contradiction|].
  assert (Hp0 : heap_get (heap s') p0 = Undefined)
    by (apply heap_get_dangling, Hdang; left).
  assert (Hlen : length (agents s') = S (length l)) by (rewrite Hag; reflexivity).
  repeat split.
  - unfold get_reward. rewrite Hlen. apply for_loop_first_fails.
    rewrite Hag, first_pointer. simpl. rewrite Hp0. reflexivity.
  - unfold set_action. rewrite Hlen. apply for_loop_first_fails.
    rewrite Hag, first_pointer. simpl. rewrite Hp0. reflexivity.
  - unfold get_info. rewrite decide_True by reflexivity.
    rewrite Hlen. apply for_loop_first_fails.
    rewrite Hag, first_pointer. simpl. rewrite Hp0. reflexivity.
  - unfold get_info. rewrite decide_False by discriminate.
    rewrite decide_False by discriminate. rewrite decide_True by reflexivity.
    rewrite Hlen. apply for_loop_first_fails.
    rewrite Hag, first_pointer. simpl. rewrite Hp0. reflexivity.
  - unfold get_observation.
    destruct (buf_zero_cases view
                (Z.of_nat (length (agents s')) * view_height s' * view_width s'
                 * CHANNEL_NUM)) as [->|[v0 ->]]; [reflexivity|].
    cbn [mbind result_bind].
    destruct (buf_zero_cases feat
                (Z.of_nat (length (agents s')) * get_feature_size_ s' group))
      as [->|[f0 ->]]; [reflexivity|].
    cbn [mbind result_bind].
    rewrite Hlen. apply for_loop_first_fails. unfold observe_agent.
    rewrite Hag, first_pointer. simpl. rewrite Hp0. reflexivity.
  - unfold clear_dead. rewrite Hlen.
    rewrite for_loop_first_fails; [reflexivity|].
    unfold clear_dead_body. simpl c_agents. rewrite Hag, first_pointer. simpl.
    rewrite Hp0. reflexivity.
  - unfold destroy. rewrite Hag.
    apply (delete_all_dangling _ _ p0); [left|apply Hdang; left].
  - intros s'' Hagain. unfold reset in Hagain.
    apply bind_Ok in Hagain as (m & _ & Hagain).
    apply bind_Ok in Hagain as (h & Hdel & _). simpl in Hdel.
    rewrite Hag in Hdel.
    rewrite (delete_all_dangling _ _ p0) in Hdel;
      [discriminate|left|apply Hdang; left].
Qed.

Lemma gathered_app {A} (h : Heap) (l1 l2 : list loc) (f : Agent -> A) :
  gathered h (l1 ++ l2) f = gathered h l1 f ++ gathered h l2 f.
Proof. unfold gathered. apply omap_app. Qed.

Lemma length_gathered {A} (h : Heap) (l : list loc) (f : Agent -> A) :
  (forall p, p ∈ l -> is_Some (objs h !! p)) ->
  length (gathered h l f) = length l.
Proof.
  induction l as [|p l IH]; intros Hlive; [reflexivity|].
  destruct (Hlive p ltac:(left)) as [a Ha].
  unfold gathered in *. simpl. rewrite Ha. simpl. f_equal.
  apply IH. intros q Hq. apply Hlive. right. exact Hq.
Qed.

Lemma gathered_lookup {A} (h : Heap) (l : list loc) (f : Agent -> A)
    (i : nat) (p : loc) (a : Agent) :
  (forall q, q ∈ l -> is_Some (objs h !! q)) ->
  l !! i = Some p -> objs h !! p = Some a ->
  gathered h l f !! i = Some (f a).
Proof.
  revert i. induction l as [|q l IH]; intros i Hlive Hi Ha; [discriminate|].
  destruct (Hlive q ltac:(left)) as [b Hb].
  unfold gathered in *. simpl. rewrite Hb. simpl.
  destruct i as [|i]; simpl in *.
  - injection Hi as ->. congruence.
  - apply IH; [|exact Hi|exact Ha]. intros r Hr. apply Hlive. right. exact Hr.
Qed.

Lemma gather_prefix {A} (h : Heap) (l : list loc) (f : Agent -> A)
    (buffer : list A) (k : nat) :
  (forall p, p ∈ l -> is_Some (objs h !! p)) ->
  (k <= length l)%nat -> (k <= length buffer)%nat ->
  for_loop 0 k
    (fun i b => p ← buf_read l i; agent ← heap_get h p; buf_write b i (f agent))
    buffer
  = Ok (gathered h (take k l) f ++ drop k buffer).
Proof.
  intros Hlive Hkl Hkb.
  destruct (for_loop_total
              (fun j b => b = gathered h (take j l) f ++ drop j buffer)
              (fun i b => p ← buf_read l i; agent ← heap_get h p;
                          buf_write b i (f agent))
              k 0 buffer) as (out & Hrun & Hout).
  - rewrite take_0, drop_0. reflexivity.
  - intros j b Hj ->.
    destruct (lookup_lt_is_Some_2 l j ltac:(lia)) as [p Hp].
    destruct (lookup_lt_is_Some_2 buffer j ltac:(lia)) as [x Hx].
    destruct (Hlive p (list_elem_of_lookup_2 _ _ _ Hp)) as [a Ha].
    assert (Hlen : length (gathered h (take j l) f) = j).
    { rewrite length_gathered.
      - rewrite length_take. lia.
      - intros q (i & Hi & _)%elem_of_take. apply Hlive.
        exact (list_elem_of_lookup_2 _ _ _ Hi). }
    unfold buf_read. rewrite decide_True by lia.
    replace (Z.to_nat (0 + Z.of_nat j)) with j by lia.
    rewrite Hp. cbn [mbind result_bind]. unfold heap_get. rewrite Ha.
    cbn [mbind result_bind]. unfold buf_write.
    rewrite decide_True by (rewrite length_app, Hlen, length_drop; lia).
    replace (Z.to_nat (0 + Z.of_nat j)) with j by lia.
    eexists. split; [reflexivity|].
    rewrite insert_app_r_alt by lia. rewrite Hlen, Nat.sub_diag.
    rewrite (drop_S _ _ _ Hx). simpl.
    rewrite (take_S_r _ _ _ Hp), gathered_app.
    unfold gathered at 2. simpl. rewrite Ha. simpl.
    rewrite <- app_assoc. reflexivity.
  - rewrite Hrun, Hout. reflexivity.
Qed.

Lemma for_loop_app {St : Type} (body : Z -> St -> result St) (m r : nat) :
  forall (from : Z) (x : St),
    for_loop from (m + r) body x =
    for_loop from m body x ≫= for_loop (from + Z.of_nat m) r body.
Proof.
  induction m as [|m IH]; intros from x.
  - simpl. rewrite Z.add_0_r. reflexivity.
  - simpl. destruct (body from x) as [x1| |]; [|reflexivity..].
    cbn [mbind result_bind]. rewrite IH. do 2 f_equal. lia.
Qed.

Lemma gather_short {A} (h : Heap) (l : list loc) (f : Agent -> A)
    (buffer : list A) :
  (forall p, p ∈ l -> is_Some (objs h !! p)) ->
  (length buffer < length l)%nat ->
  for_loop 0 (length l)
    (fun i b => p ← buf_read l i; agent ← heap_get h p; buf_write b i (f agent))
    buffer
  = Undefined.
Proof.
  intros Hlive Hshort.
  replace (length l) with (length buffer + S (length l - length buffer - 1))%nat
    by lia.
  rewrite for_loop_app, gather_prefix by (assumption || lia).
  cbn [mbind result_bind]. apply for_loop_first_fails.
  destruct (lookup_lt_is_Some_2 l (length buffer) Hshort) as [p Hp].
  destruct (Hlive p (list_elem_of_lookup_2 _ _ _ Hp)) as [a Ha].
  unfold buf_read. rewrite decide_True by lia.
  replace (Z.to_nat (0 + Z.of_nat (length buffer))) with (length buffer) by lia.
  rewrite Hp. cbn [mbind result_bind]. unfold heap_get. rewrite Ha.
  cbn [mbind result_bind]. unfold buf_write.
  rewrite decide_False; [reflexivity|].
  rewrite length_app, length_drop, length_gathered.
  - rewrite length_take. lia.
  - intros q (i & Hi & _)%elem_of_take. apply Hlive.
    exact (list_elem_of_lookup_2 _ _ _ Hi).
Qed.

(** X9. On a population of valid pointers and a buffer with room for it,
    [get_info("id")] overwrites the first cells of the buffer with the ids
    of the agents and [get_info("alive")] with the negated dead flags, one
    cell per agent in the order of the vector, and leaves the rest of the
    buffer as it was; on a buffer that is too short both write out of
    bounds. *)
Theorem get_info_id_and_alive (s : state) (group : Z) (cells : list info_cell) :
  (forall p, p ∈ agents s -> is_Some (objs (heap s) !! p)) ->
  ((length (agents s) <= length cells)%nat ->
     get_info s group "id" cells =
       Ok (gathered (heap s) (agents s) (fun a => IntCell (agent_id a))
           ++ drop (length (agents s)) cells) /\
     get_info s group "alive" cells =
       Ok (gathered (heap s) (agents s) (fun a => BoolCell (negb (is_dead a)))
           ++ drop (length (agents s)) cells)) /\
  ((length cells < length (agents s))%nat ->
     get_info s group "id" cells = Undefined /\
     get_info s group "alive" cells = Undefined).
Proof.
  intros Hlive. split; intros Hlen; split; unfold get_info.
  - rewrite decide_True by reflexivity.
    rewrite (gather_prefix _ _ (fun a => IntCell (agent_id a))) by (assumption || lia).
    rewrite take_ge by lia. reflexivity.
  - rewrite !decide_False by discriminate. rewrite decide_True by reflexivity.
    rewrite (gather_prefix _ _ (fun a => BoolCell (negb (is_dead a))))
      by (assumption || lia).
    rewrite take_ge by lia. reflexivity.
  - rewrite decide_True by reflexivity.
    apply (gather_short _ _ (fun a => IntCell (agent_id a))); assumption.
  - rewrite !decide_False by discriminate. rewrite decide_True by reflexivity.
    apply (gather_short _ _ (fun a => BoolCell (negb (is_dead a)))); assumption.
Qed.

(** X10. On a population of valid pointers and a buffer with room for it,
    [get_reward] overwrites the first cells of the buffer with the reward
    accumulators of the agents, in the order of the vector, and leaves the
    rest as it was; on a shorter buffer it writes out of bounds. *)
Theorem get_reward_gathers (s : state) (group : Z) (buffer : list float) :
  (forall p, p ∈ agents s -> is_Some (objs (heap s) !! p)) ->
  ((length (agents s) <= length buffer)%nat ->
     get_reward s group buffer =
       Ok (gathered (heap s) (agents s) agent_reward
           ++ drop (length (agents s)) buffer)) /\
  ((length buffer < length (agents s))%nat ->
     get_reward s group buffer = Undefined).
Proof.
  intros Hlive. split; intros Hlen; unfold get_reward.
  - rewrite (gather_prefix _ _ agent_reward) by (assumption || lia).
    rewrite take_ge by lia. reflexivity.
  - apply (gather_short _ _ agent_reward); assumption.
Qed.

Lemma set_action_loop (s : state) (actions : list Z) (k : nat) :
  population_valid s ->
  (k <= length (agents s))%nat -> (k <= length actions)%nat ->
  exists s1,
    for_loop 0 k (fun i s =>
      p ← buf_read (agents s) i;
      agent ← heap_get (heap s) p;
      act ← buf_read actions i;
      h ← heap_set (heap s) p (Agent_set_action agent act);
      Ok (with_heap s h)) s = Ok s1 /\
    s1 = with_heap s (heap s1) /\
    next_loc (heap s1) = next_loc (heap s) /\
    (forall i p, (i < k)%nat -> agents s !! i = Some p ->
       objs (heap s1) !! p =
       (a ← objs (heap s) !! p; act ← actions !! i;
        Some (Agent_set_action a act))) /\
    (forall p, p ∉ take k (agents s) ->
       objs (heap s1) !! p = objs (heap s) !! p).
Proof.
  intros [Hnd Hlive] Hkl Hka.
  apply (for_loop_total
           (fun j s1 =>
              s1 = with_heap s (heap s1) /\
              next_loc (heap s1) = next_loc (heap s) /\
              (forall i p, (i < j)%nat -> agents s !! i = Some p ->
                 objs (heap s1) !! p =
                 (a ← objs (heap s) !! p; act ← actions !! i;
                  Some (Agent_set_action a act))) /\
              (forall p, p ∉ take j (agents s) ->
                 objs (heap s1) !! p = objs (heap s) !! p))).
  - split; [destruct s; reflexivity|]. split; [reflexivity|]. split.
    + intros i p Hi. lia.
    + intros p _. reflexivity.
  - intros j s1 Hj (Hshape & Hnext & Hdone & Hrest).
    destruct (lookup_lt_is_Some_2 (agents s) j ltac:(lia)) as [p Hp].
    destruct (lookup_lt_is_Some_2 actions j ltac:(lia)) as [act Hact].
    destruct (Hlive p (list_elem_of_lookup_2 _ _ _ Hp)) as [a Ha].
    assert (Hfresh : p ∉ take j (agents s)).
    { intros (i & Hi & Hlt)%elem_of_take.
      pose proof (NoDup_lookup _ i j p Hnd Hi Hp). lia. }
    assert (Hag : agents s1 = agents s) by (rewrite Hshape; reflexivity).
    assert (Hobj : objs (heap s1) !! p = Some a)
      by (rewrite Hrest by exact Hfresh; exact Ha).
    unfold buf_read. rewrite !decide_True by lia.
    replace (Z.to_nat (0 + Z.of_nat j)) with j by lia.
    rewrite Hag, Hp. cbn [mbind result_bind]. unfold heap_get. rewrite Hobj.
    cbn [mbind result_bind]. rewrite Hact. cbn [mbind result_bind].
    unfold heap_set. rewrite Hobj. cbn [mbind result_bind].
    eexists. split; [reflexivity|]. simpl. split; [|split; [exact Hnext|split]].
    + rewrite Hshape. reflexivity.
    + intros i q Hi Hq. destruct (decide (i = j)) as [->|Hne].
      * assert (q = p) as -> by congruence.
        rewrite lookup_insert_eq, Ha, Hact. reflexivity.
      * assert (q <> p).
        { intros ->. pose proof (NoDup_lookup _ i j p Hnd Hq Hp). lia. }
        rewrite lookup_insert_ne by congruence. apply Hdone; [lia|exact Hq].
    + intros q Hq. rewrite (take_S_r _ _ _ Hp) in Hq.
      rewrite lookup_insert_ne.
      * apply Hrest. intros Hin. apply Hq, elem_of_app. left. exact Hin.
      * intros ->. apply Hq, elem_of_app. right. left.
Qed.

(** X11. On a population of distinct valid pointers and an action array
    with one entry per agent, [set_action] returns; agent [i] becomes what
    it was with [actions[i]] as its action, nothing else on the heap moves,
    and everything outside the heap is untouched. A shorter action array
    is read out of bounds. *)
Theorem set_action_assigns_by_index (s : state) (group : Z) (actions : list Z) :
  population_valid s ->
  ((length (agents s) <= length actions)%nat ->
     exists s', set_action s group actions = Ok s' /\
       s' = with_heap s (heap s') /\
       (forall i p a, agents s !! i = Some p -> objs (heap s) !! p = Some a ->
          exists act, actions !! i = Some act /\
            objs (heap s') !! p = Some (Agent_set_action a act)) /\
       (forall p, p ∉ agents s -> objs (heap s') !! p = objs (heap s) !! p)) /\
  ((length actions < length (agents s))%nat ->
     set_action s group actions = Undefined).
Proof.
  intros Hvalid. split; intros Hlen.
  - destruct (set_action_loop s actions (length (agents s)) Hvalid ltac:(lia) Hlen)
      as (s' & Hrun & Hshape & _ & Hdone & Hrest).
    exists s'. split; [exact Hrun|]. split; [exact Hshape|]. split.
    + intros i p a Hp Ha.
      destruct (lookup_lt_is_Some_2 actions i) as [act Hact].
      { pose proof (lookup_lt_Some _ _ _ Hp). lia. }
      exists act. split; [exact Hact|].
      rewrite (Hdone i p (lookup_lt_Some _ _ _ Hp) Hp), Ha, Hact. reflexivity.
    + intros p Hp. apply Hrest. rewrite take_ge by lia. exact Hp.
  - unfold set_action.
    replace (length (agents s))
      with (length actions + S (length (agents s) - length actions - 1))%nat by lia.
    rewrite for_loop_app.
    destruct (set_action_loop s actions (length actions) Hvalid ltac:(lia) ltac:(lia))
      as (s1 & Hrun & Hshape & _ & _ & Hrest).
    rewrite Hrun. cbn [mbind result_bind]. apply for_loop_first_fails.
    destruct (lookup_lt_is_Some_2 (agents s) (length actions) Hlen) as [p Hp].
    destruct Hvalid as [Hnd Hlive].
    destruct (Hlive p (list_elem_of_lookup_2 _ _ _ Hp)) as [a Ha].
    assert (Hag : agents s1 = agents s) by (rewrite Hshape; reflexivity).
    assert (Hobj : objs (heap s1) !! p = Some a).
    { rewrite Hrest; [exact Ha|]. intros (i & Hi & Hlt)%elem_of_take.
      pose proof (NoDup_lookup _ i (length actions) p Hnd Hi Hp). lia. }
    unfold buf_read. rewrite !decide_True by lia.
    replace (Z.to_nat (0 + Z.of_nat (length actions))) with (length actions) by lia.
    rewrite Hag, Hp. cbn [mbind result_bind]. unfold heap_get. rewrite Hobj.
    cbn [mbind result_bind].
    rewrite (lookup_ge_None_2 actions (length actions)) by lia. reflexivity.
Qed.

Lemma clear_dead_shape (s s' : state) :
  clear_dead s = Ok s' -> s' = with_agents (with_heap s (heap s')) (agents s').
Proof.
  unfold clear_dead. intros H. apply bind_Ok in H as (c & _ & H).
  injection H as <-. reflexivity.
Qed.

Lemma clear_dead_valid (s s' : state) :
  population_valid s -> clear_dead s = Ok s' -> population_valid s'.
Proof.
  intros Hvalid Hrun.
  destruct (clear_dead_spec s Hvalid) as (s'' & Hrun' & Hag & _ & _ & Hheap).
  rewrite Hrun in Hrun'. injection Hrun' as <-.
  destruct Hvalid as [Hnd Hlive]. split.
  - rewrite Hag. apply NoDup_filter, Hnd.
  - intros p Hp. rewrite Hag in Hp.
    apply list_elem_of_filter in Hp as [Hs Hp].
    rewrite Hheap, decide_True by exact Hp. unfold survives in Hs.
    destruct (objs (heap s) !! p) as [a|]; [|contradiction]. simpl.
    unfold compacted. destruct (is_dead a); [contradiction|]. eexists. reflexivity.
Qed.

(** X12. A second compaction removes nothing. On the state that a
    compaction of a valid population has returned, [clear_dead] returns
    again: the agent vector is the same, no object has been freed or
    created, nothing outside the heap has changed, and each agent of the
    vector has been passed through [init_reward] once more. *)
Theorem clear_dead_twice (s s' : state) :
  population_valid s -> clear_dead s = Ok s' ->
  exists s'', clear_dead s' = Ok s'' /\
    agents s'' = agents s' /\
    s'' = with_heap s' (heap s'') /\
    (forall p, is_Some (objs (heap s'') !! p) <-> is_Some (objs (heap s') !! p)) /\
    (forall p a, p ∈ agents s' -> objs (heap s') !! p = Some a ->
       objs (heap s'') !! p = Some (init_reward a)) /\
    (forall p, p ∉ agents s' -> objs (heap s'') !! p = objs (heap s') !! p).
Proof.
  intros Hvalid Hrun.
  pose proof (clear_dead_valid s s' Hvalid Hrun) as Hvalid'.
  destruct (clear_dead_spec s Hvalid) as (t & Ht & Hag & _ & _ & Hheap).
  rewrite Hrun in Ht. injection Ht as <-.
  destruct (clear_dead_spec s' Hvalid') as (s'' & Hrun' & Hag' & _ & _ & Hheap').
  assert (Halive : forall p, p ∈ agents s' ->
            exists a, objs (heap s') !! p = Some a /\ is_dead a = false).
  { intros p Hp. rewrite Hag in Hp.
    apply list_elem_of_filter in Hp as [Hs Hp].
    rewrite Hheap, decide_True by exact Hp. unfold survives in Hs.
    destruct (objs (heap s) !! p) as [a|]; [|contradiction]. simpl.
    unfold compacted. destruct (is_dead a) eqn:Hd; [contradiction|].
    exists (init_reward a). split; [reflexivity|]. exact Hd. }
  assert (Hsame_agents : agents s'' = agents s').
  { rewrite Hag'. apply filter_all. intros p Hp.
    destruct (Halive p Hp) as (a & Ha & Hd). unfold survives.
    rewrite Ha, Hd. exact I. }
  exists s''. split; [exact Hrun'|]. split; [exact Hsame_agents|].
  split; [|split; [|split]].
  - rewrite (clear_dead_shape s' s'' Hrun') at 1. rewrite Hsame_agents.
    destruct s'. reflexivity.
  - intros p. rewrite Hheap'. case_decide as Hp; [|reflexivity].
    destruct (Halive p Hp) as (a & Ha & Hd). rewrite Ha. simpl.
    unfold compacted. rewrite Hd. split; intros _; eexists; reflexivity.
  - intros p a Hp Ha. rewrite Hheap', decide_True by exact Hp.
    rewrite Ha. simpl. unfold compacted.
    destruct (Halive p Hp) as (a' & Ha' & Hd).
    assert (a' = a) as -> by congruence. rewrite Hd. reflexivity.
  - intros p Hp. rewrite Hheap', decide_False by exact Hp. reflexivity.
Qed.

(** X13. The two extremes of [clear_dead] on a valid population: when no
    agent is dead-flagged the vector is returned as it is, and when every
    agent is dead-flagged the vector comes back empty. *)
Theorem clear_dead_extremes (s : state) :
  population_valid s ->
  exists s', clear_dead s = Ok s' /\
    ((forall p, p ∈ agents s -> dead_at (heap s) p = false) ->
       agents s' = agents s) /\
    ((forall p, p ∈ agents s -> dead_at (heap s) p = true) ->
       agents s' = []).
Proof.
  intros Hvalid.
  destruct (clear_dead_spec s Hvalid) as (s' & Hrun & Hag & _).
  destruct Hvalid as [Hnd Hlive].
  exists s'. split; [exact Hrun|]. split; intros Hall; rewrite Hag; unfold survivors.
  - apply filter_all. intros p Hp. specialize (Hall p Hp).
    destruct (Hlive p Hp) as [a Ha]. unfold survives, dead_at in *.
    rewrite Ha in *. rewrite Hall. exact I.
  - assert (Hnone : forall l : list loc, (forall p, p ∈ l -> p ∈ agents s) ->
              filter (fun p => survives (heap s) p) l = []).
    { induction l as [|q l IH]; intros Hsub; [reflexivity|].
      rewrite filter_cons_False.
      - apply IH. intros p Hp. apply Hsub. right. exact Hp.
      - specialize (Hall q (Hsub q ltac:(left))).
        destruct (Hlive q (Hsub q ltac:(left))) as [a Ha].
        unfold survives, dead_at in *. rewrite Ha in *. rewrite Hall.
        simpl. tauto. }
    apply Hnone. auto.
Qed.

(** X14. Ids survive compaction in order: after [clear_dead] on a valid
    population, [get_info("id")] lists exactly the ids that the
    non-dead-flagged agents had before, in their old relative order. *)
Theorem ids_after_compaction (s s' : state) (group : Z) (cells : list info_cell) :
  population_valid s -> clear_dead s = Ok s' ->
  (length (agents s') <= length cells)%nat ->
  get_info s' group "id" cells =
    Ok (gathered (heap s) (survivors s) (fun a => IntCell (agent_id a))
        ++ drop (length (survivors s)) cells).
Proof.
  intros Hvalid Hrun Hlen.
  pose proof (clear_dead_valid s s' Hvalid Hrun) as [_ Hlive'].
  destruct (clear_dead_spec s Hvalid) as (t & Ht & Hag & _ & _ & Hheap).
  rewrite Hrun in Ht. injection Ht as <-.
  unfold get_info. rewrite decide_True by reflexivity.
  rewrite (gather_prefix _ _ (fun a => IntCell (agent_id a))) by (assumption || lia).
  rewrite take_ge by lia. rewrite Hag. do 2 f_equal.
  unfold gathered. apply list_omap_ext. apply Forall2_same_length_lookup.
  split; [reflexivity|]. intros i p q Hp Hq.
  assert (q = p) as -> by congruence.
  assert (Hin : p ∈ survivors s) by exact (list_elem_of_lookup_2 _ _ _ Hp).
  apply list_elem_of_filter in Hin as [Hs Hin].
  rewrite Hheap, decide_True by exact Hin. unfold survives in Hs.
  destruct (objs (heap s) !! p) as [a|]; [|contradiction]. simpl.
  unfold compacted. destruct (is_dead a); [contradiction|]. reflexivity.
Qed.

(** X15. Under the id discipline (which [add_object] and [clear_dead]
    preserve), the ids that [get_info("id")] writes are pairwise
    distinct. *)
Theorem get_info_id_has_no_duplicates (s : state) (group : Z)
    (cells : list info_cell) :
  ids_wellformed s -> (length (agents s) <= length cells)%nat ->
  exists out, get_info s group "id" cells = Ok out /\
    NoDup (take (length (agents s)) out).
Proof.
  intros ([Hnd Hlive] & _ & _ & _ & Hinj) Hlen.
  unfold get_info. rewrite decide_True by reflexivity.
  rewrite (gather_prefix _ _ (fun a => IntCell (agent_id a))) by (assumption || lia).
  rewrite take_ge by lia. eexists. split; [reflexivity|].
  pose proof (length_gathered (heap s) (agents s)
                (fun a => IntCell (agent_id a)) Hlive) as Hlg.
  rewrite take_app_length' by (symmetry; exact Hlg).
  apply NoDup_alt. intros i j x Hi Hj.
  destruct (lookup_lt_is_Some_2 (agents s) i) as [p Hp].
  { rewrite <- Hlg. exact (lookup_lt_Some _ _ _ Hi). }
  destruct (lookup_lt_is_Some_2 (agents s) j) as [q Hq].
  { rewrite <- Hlg. exact (lookup_lt_Some _ _ _ Hj). }
  destruct (Hlive p (list_elem_of_lookup_2 _ _ _ Hp)) as [a Ha].
  destruct (Hlive q (list_elem_of_lookup_2 _ _ _ Hq)) as [b Hb].
  rewrite (gathered_lookup _ _ _ _ _ _ Hlive Hp Ha) in Hi.
  rewrite (gathered_lookup _ _ _ _ _ _ Hlive Hq Hb) in Hj.
  assert (Hid : agent_id a = agent_id b) by congruence.
  assert (p = q) as ->
    by exact (Hinj p q a b (list_elem_of_lookup_2 _ _ _ Hp)
                (list_elem_of_lookup_2 _ _ _ Hq) Ha Hb Hid).
  exact (NoDup_lookup _ i j q Hnd Hp Hq).
Qed.

(** X16. On an empty population every bulk call returns at once and moves
    nothing: the observation, reward, id and alive buffers come back as
    they were given, whatever their size, and [set_action] and
    [clear_dead] return the state itself. *)
Theorem empty_population_calls (s : state) (group : Z)
    (view feat buffer : list float) (cells : list info_cell) (actions : list Z) :
  agents s = [] ->
  get_observation s group view feat = Ok (view, feat) /\
  get_reward s group buffer = Ok buffer /\
  get_info s group "id" cells = Ok cells /\
  get_info s group "alive" cells = Ok cells /\
  set_action s group actions = Ok s /\
  clear_dead s = Ok s /\
  destroy s = Ok (heap s).
Proof.
  intros Hag. repeat split.
  - unfold get_observation, buf_zero. rewrite Hag. simpl.
    rewrite !decide_True by lia. reflexivity.
  - unfold get_reward. rewrite Hag. reflexivity.
  - unfold get_info. rewrite decide_True by reflexivity. rewrite Hag. reflexivity.
  - unfold get_info. rewrite !decide_False by discriminate.
    rewrite decide_True by reflexivity. rewrite Hag. reflexivity.
  - unfold set_action. rewrite Hag. reflexivity.
  - unfold clear_dead. rewrite Hag. simpl. destruct s. simpl in *. subst.
    reflexivity.
  - unfold destroy. rewrite Hag. reflexivity.
Qed.

End PopulationFacts.

Section InjectionFacts.

Context `{Hdr : Headers} {Map Engine : Type}.
Context `{EO : !EngineOps Engine} `{MO : !MapOps Map Engine}.

Local Abbreviation state := (TransCity.state Map Engine).

Lemma at2_lookup (buf : list Z) (d0 d1 i j v : Z) :
  0 <= i -> 0 <= j < d1 -> (i + 1) * d1 <= CInt.INT_MAX ->
  at2 (mkND buf [d0; d1]) i j = Ok v ->
  buf !! Z.to_nat (i * d1 + j) = Some v.
Proof.
  intros Hi Hj Hfit. unfold at2. rewrite index2_exact by assumption.
  unfold buf_read. simpl. case_decide; [|discriminate].
  destruct (buf !! Z.to_nat (i * d1 + j)); [|discriminate]. congruence.
Qed.

Lemma for_loop_keeps {V : Type} (view : state -> V)
    (body : Z -> state -> result state) (n : nat) :
  (forall i s1 s2, body i s1 = Ok s2 -> view s2 = view s1) ->
  forall from s s', for_loop from n body s = Ok s' -> view s' = view s.
Proof.
  intros Hbody from s s' Hrun.
  apply (for_loop_invariant (fun _ s1 => view s1 = view s)
           body n from s s'); [reflexivity| |exact Hrun].
  intros k s1 s2 _ H1 Hb. rewrite (Hbody _ _ _ Hb). exact H1.
Qed.

Lemma for_loop_appends {T : Type} (proj : state -> list T)
    (row : Z -> T -> Prop) (body : Z -> state -> result state) (n : nat)
    (s s' : state) :
  (forall i s1 s2, body i s1 = Ok s2 ->
     exists t, proj s2 = proj s1 ++ [t] /\ row i t) ->
  for_loop 0 n body s = Ok s' ->
  exists new, proj s' = proj s ++ new /\ length new = n /\
    forall k t, new !! k = Some t -> row (Z.of_nat k) t.
Proof.
  intros Hbody Hrun.
  apply (for_loop_invariant
           (fun j s1 => exists new, proj s1 = proj s ++ new /\ length new = j /\
              forall k t, new !! k = Some t -> row (Z.of_nat k) t)
           body n 0 s s'); [| |exact Hrun].
  - exists []. rewrite app_nil_r. repeat split. intros k t Hk. discriminate.
  - intros j s1 s2 _ (new & Hnew & Hlen & Hrows) Hb.
    destruct (Hbody _ _ _ Hb) as (t & Ht & Hrow).
    exists (new ++ [t]). rewrite Ht, Hnew, <- app_assoc.
    split; [reflexivity|]. split; [rewrite length_app; simpl; lia|].
    intros k u Hk. destruct (decide (k < length new)%nat) as [Hlt|Hge].
    + rewrite lookup_app_l in Hk by exact Hlt. exact (Hrows k u Hk).
    + rewrite lookup_app_r in Hk by lia.
      destruct (k - length new)%nat as [|m] eqn:Hm; [|destruct m; discriminate].
      injection Hk as <-. replace (Z.of_nat k) with (0 + Z.of_nat j) by lia.
      exact Hrow.
Qed.

(** X17. A one-row wall injection [{x, y}] can only return when [y] is 0
    or 1, because the recorded position is read at flat index [y] of the
    two-cell buffer: for [y = 0] the wall list receives (x, 0), the
    injected cell; for [y = 1] it receives (1, 0); any other [y] reads
    past the buffer. *)
Theorem single_wall_row_is_read_at_y (s s' : state) (x y : Z) :
  CInt.in_int y ->
  add_object s (-1) 1 "custom" [x; y] = Ok s' ->
  (y = 0 /\ walls s' = walls s ++ [mkPosition x 0]) \/
  (y = 1 /\ walls s' = walls s ++ [mkPosition 1 0]).
Proof.
  intros Hy Hrun. unfold add_object in Hrun.
  rewrite decide_True in Hrun by reflexivity.
  rewrite decide_True in Hrun by reflexivity.
  simpl in Hrun. apply bind_Ok in Hrun as (s1 & Hrow & Hrun).
  injection Hrun as <-. unfold add_wall_row in Hrow.
  apply bind_Ok in Hrow as (x0 & _ & Hrow).
  apply bind_Ok in Hrow as (y0 & _ & Hrow).
  apply bind_Ok in Hrow as (m & _ & Hrow).
  apply bind_Ok in Hrow as (k & Hk & Hrow).
  apply bind_Ok in Hrow as (v & Hv & Hrow). injection Hrow as <-. simpl.
  assert (k = y) as ->.
  { unfold at2, index2, buf_read in Hk. simpl in Hk.
    vm_compute in Hk. congruence. }
  unfold at3, index3, nd_dim_at, CInt.add, CInt.mul in Hv. simpl in Hv.
  replace (CInt.wrap
             (CInt.wrap (CInt.wrap (0 * 2) * dim_beyond)
              + CInt.wrap (0 * dim_beyond))) with 0 in Hv.
  2:{ rewrite !Z.mul_0_l. reflexivity. }
  rewrite Z.add_0_l in Hv.
  rewrite (wrap_id y) in Hv by exact Hy.
  unfold buf_read in Hv. case_decide as Hpos; [|discriminate].
  destruct (Z.to_nat y) as [|[|n]] eqn:Hn; simpl in Hv; [| |discriminate].
  - left. injection Hv as <-. split; [lia|reflexivity].
  - right. injection Hv as <-. assert (y = 1) as -> by lia.
    split; reflexivity.
Qed.

(** X18. With [interval_max] equal to [interval_min] the light branch
    divides by zero: an injection of at least one light never returns
    normally. *)
Theorem light_with_empty_interval_range (s s' : state) (n : Z)
    (linear_buffer : list Z) :
  interval_max s = interval_min s -> 1 <= n ->
  add_object s (-2) n "custom" linear_buffer <> Ok s'.
Proof.
  intros Heq Hn Hrun. unfold add_object in Hrun.
  rewrite decide_False in Hrun by lia.
  rewrite decide_True in Hrun by reflexivity.
  rewrite decide_True in Hrun by reflexivity.
  destruct (Z.to_nat n) as [|m] eqn:Hm; [lia|].
  simpl in Hrun. apply bind_Ok in Hrun as (s1 & Hrow & _).
  destruct (add_light_row_spec _ _ _ _ Hrow) as (l & _ & _ & _ & _ & Hdraw).
  unfold draw_interval, CInt.sub, int_rem in Hdraw.
  rewrite Heq, Z.sub_diag in Hdraw. change (CInt.wrap 0) with 0 in Hdraw.
  rewrite decide_True in Hdraw by reflexivity. discriminate.
Qed.

Lemma spawn_custom_spec (buf : NDPointer Z) (i : Z) (s s' : state) :
  spawn s (place_custom buf i) = Ok s' ->
  exists x y,
    at2 buf i 0 = Ok x /\ at2 buf i 1 = Ok y /\
    agents s' = agents s ++ [next_loc (heap s)] /\
    objs (heap s') =
      <[next_loc (heap s) :=
          mkAgent (id_counter s) (mkPosition x y) (mkPosition 0 0) 0
                  float_zero float_zero false]> (objs (heap s)) /\
    next_loc (heap s') = S (next_loc (heap s)).
Proof.
  intros H. unfold spawn in H. simpl in H.
  apply bind_Ok in H as ([pos s1] & Hp & H).
  unfold place_custom in Hp.
  apply bind_Ok in Hp as (x & Hx & Hp). apply bind_Ok in Hp as (y & Hy & Hp).
  injection Hp as <- <-.
  apply bind_Ok in H as (a & Hget & H).
  apply bind_Ok in H as (h & Hset & H).
  apply bind_Ok in H as (m & _ & H). injection H as <-. simpl.
  unfold heap_get in Hget. simpl in Hget.
  rewrite lookup_insert_eq in Hget. injection Hget as <-.
  unfold heap_set in Hset. simpl in Hset.
  rewrite lookup_insert_eq in Hset. injection Hset as <-. simpl.
  exists x, y. rewrite insert_insert_eq. repeat split; assumption.
Qed.

(** X19. Cars injected with the "custom" method stand where the buffer
    says: when the call returns, the vector has grown at its end by [n]
    fresh pointers, in row order, and the [k]-th new agent has the
    position [(buffer[2k], buffer[2k+1])]. *)
Theorem custom_cars_stand_where_told (s s' : state) (n : Z)
    (linear_buffer : list Z) :
  2 * n <= CInt.INT_MAX ->
  add_object s 0 n "custom" linear_buffer = Ok s' ->
  agents s' = agents s ++ seq (next_loc (heap s)) (Z.to_nat n) /\
  forall k, (k < Z.to_nat n)%nat ->
    exists x y a,
      linear_buffer !! (2 * k)%nat = Some x /\
      linear_buffer !! (2 * k + 1)%nat = Some y /\
      objs (heap s') !! (next_loc (heap s) + k)%nat = Some a /\
      agent_pos a = mkPosition x y.
Proof.
  intros Hfit Hrun. unfold add_object in Hrun.
  repeat (rewrite decide_False in Hrun by lia).
  rewrite decide_True in Hrun by reflexivity.
  rewrite decide_False in Hrun by discriminate.
  rewrite decide_True in Hrun by reflexivity.
  pose proof (for_loop_invariant
    (fun j s1 =>
       agents s1 = agents s ++ seq (next_loc (heap s)) j /\
       next_loc (heap s1) = (next_loc (heap s) + j)%nat /\
       forall k, (k < j)%nat ->
         exists x y a,
           linear_buffer !! (2 * k)%nat = Some x /\
           linear_buffer !! (2 * k + 1)%nat = Some y /\
           objs (heap s1) !! (next_loc (heap s) + k)%nat = Some a /\
           agent_pos a = mkPosition x y)
    (fun i s => spawn s (place_custom (mkND linear_buffer [n; 2]) i))
    (Z.to_nat n) 0 s s') as Hloop.
  destruct Hloop as (Hag & _ & Hnew); [| |exact Hrun|split; assumption].
  - rewrite app_nil_r, Nat.add_0_r. repeat split. intros k Hk. lia.
  - intros j s1 s2 Hj (Hag & Hnext & Hnew) Hb.
    destruct (spawn_custom_spec _ _ _ _ Hb) as (x & y & Hx & Hy & Hag2 & Hobj & Hnext2).
    apply at2_lookup in Hx; [|lia|lia|unfold CInt.INT_MAX in *; lia].
    apply at2_lookup in Hy; [|lia|lia|unfold CInt.INT_MAX in *; lia].
    replace (Z.to_nat ((0 + Z.of_nat j) * 2 + 0)) with (2 * j)%nat in Hx by lia.
    replace (Z.to_nat ((0 + Z.of_nat j) * 2 + 1)) with (2 * j + 1)%nat in Hy by lia.
    split; [|split].
    + rewrite Hag2, Hag, Hnext, <- app_assoc, seq_S. reflexivity.
    + rewrite Hnext2, Hnext. lia.
    + intros k Hk. rewrite Hobj, Hnext.
      destruct (decide (k = j)) as [->|Hne].
      * exists x, y. eexists. rewrite lookup_insert_eq.
        repeat split; assumption.
      * destruct (Hnew k ltac:(lia)) as (x' & y' & a & Hx' & Hy' & Ha & Hrest).
        exists x', y', a. rewrite lookup_insert_ne by lia.
        repeat split; tauto.
Qed.

Lemma row4_lookup (buf : list Z) (n : Z) (k : nat) (r0 r1 r2 r3 : Z) :
  4 * n <= CInt.INT_MAX -> (k < Z.to_nat n)%nat ->
  at2 (mkND buf [n; 4]) (Z.of_nat k) 0 = Ok r0 ->
  at2 (mkND buf [n; 4]) (Z.of_nat k) 1 = Ok r1 ->
  at2 (mkND buf [n; 4]) (Z.of_nat k) 2 = Ok r2 ->
  at2 (mkND buf [n; 4]) (Z.of_nat k) 3 = Ok r3 ->
  buf !! (4 * k)%nat = Some r0 /\ buf !! (4 * k + 1)%nat = Some r1 /\
  buf !! (4 * k + 2)%nat = Some r2 /\ buf !! (4 * k + 3)%nat = Some r3.
Proof.
  intros Hfit Hk H0 H1 H2 H3.
  apply at2_lookup in H0; [|lia|lia|unfold CInt.INT_MAX in *; lia].
  apply at2_lookup in H1; [|lia|lia|unfold CInt.INT_MAX in *; lia].
  apply at2_lookup in H2; [|lia|lia|unfold CInt.INT_MAX in *; lia].
  apply at2_lookup in H3; [|lia|lia|unfold CInt.INT_MAX in *; lia].
  replace (Z.to_nat (Z.of_nat k * 4 + 0)) with (4 * k)%nat in H0 by lia.
  replace (Z.to_nat (Z.of_nat k * 4 + 1)) with (4 * k + 1)%nat in H1 by lia.
  replace (Z.to_nat (Z.of_nat k * 4 + 2)) with (4 * k + 2)%nat in H2 by lia.
  replace (Z.to_nat (Z.of_nat k * 4 + 3)) with (4 * k + 3)%nat in H3 by lia.
  repeat split; assumption.
Qed.

Lemma add_park_row_records (buf : NDPointer Z) (i : Z) (s s' : state) :
  add_park_row buf i s = Ok s' ->
  exists t, parks s' = parks s ++ [t] /\
    (at2 buf i 0 = Ok (pos_x (park_pos t)) /\
     at2 buf i 1 = Ok (pos_y (park_pos t)) /\
     at2 buf i 2 = Ok (park_w t) /\ at2 buf i 3 = Ok (park_h t)).
Proof.
  unfold add_park_row. intros H.
  do 3 (apply bind_Ok in H as (? & _ & H)).
  apply bind_Ok in H as (r0 & Hx & H). apply bind_Ok in H as (r1 & Hy & H).
  apply bind_Ok in H as (r2 & Hw & H). apply bind_Ok in H as (r3 & Hh & H).
  injection H as <-. eexists. split; [reflexivity|]. simpl.
  repeat split; assumption.
Qed.

Lemma add_building_row_records (buf : NDPointer Z) (i : Z) (s s' : state) :
  add_building_row buf i s = Ok s' ->
  exists t, buildings s' = buildings s ++ [t] /\
    (at2 buf i 0 = Ok (pos_x (building_pos t)) /\
     at2 buf i 1 = Ok (pos_y (building_pos t)) /\
     at2 buf i 2 = Ok (building_w t) /\ at2 buf i 3 = Ok (building_h t)).
Proof.
  unfold add_building_row. intros H.
  apply bind_Ok in H as (x & Hx & H). apply bind_Ok in H as (y & Hy & H).
  apply bind_Ok in H as (w & Hw & H). apply bind_Ok in H as (h & Hh & H).
  apply bind_Ok in H as (s1 & Hloop & H). injection H as <-.
  assert (Hb : buildings s1 = buildings s).
  { revert Hloop. apply (for_loop_keeps buildings). intros cx s2 s3.
    apply (for_loop_keeps buildings). intros cy s4 s5 Hb.
    apply bind_Ok in Hb as (m & _ & Hb). injection Hb as <-. reflexivity. }
  eexists. simpl. rewrite Hb. split; [reflexivity|]. simpl.
  repeat split; assumption.
Qed.

Lemma add_building_row_walls (buf : NDPointer Z) (i : Z) (s s' : state) :
  add_building_row buf i s = Ok s' -> walls s' = walls s.
Proof.
  unfold add_building_row. intros H.
  do 4 (apply bind_Ok in H as (? & _ & H)).
  apply bind_Ok in H as (s1 & Hloop & H). injection H as <-. simpl.
  revert Hloop. apply (for_loop_keeps walls). intros cx s2 s3.
  apply (for_loop_keeps walls). intros cy s4 s5 Hb.
  apply bind_Ok in Hb as (m & _ & Hb). injection Hb as <-. reflexivity.
Qed.

Lemma add_light_row_records (buf : NDPointer Z) (i : Z) (s s' : state) :
  add_light_row buf i s = Ok s' ->
  exists t, lights s' = lights s ++ [t] /\
    (at2 buf i 0 = Ok (pos_x (light_pos t)) /\
     at2 buf i 1 = Ok (pos_y (light_pos t)) /\
     at2 buf i 2 = Ok (light_orientation t) /\
     at2 buf i 3 = Ok (light_offset t)).
Proof.
  unfold add_light_row. intros H.
  apply bind_Ok in H as (x & Hx & H). apply bind_Ok in H as (y & Hy & H).
  do 3 (apply bind_Ok in H as (? & _ & H)).
  destruct (engine_call _) as [raw e].
  apply bind_Ok in H as (v & _ & H).
  apply bind_Ok in H as (o & Ho & H). apply bind_Ok in H as (f & Hf & H).
  injection H as <-. eexists. split; [reflexivity|]. simpl.
  repeat split; assumption.
Qed.

Lemma add_walls_app (m : Map) (l1 l2 : list Position) :
  add_walls m (l1 ++ l2) = (m' ← add_walls m l1; add_walls m' l2).
Proof.
  revert m. induction l1 as [|p l1 IH]; intros m; [reflexivity|].
  simpl. destruct (map_add_wall m p) as [m1| |]; simpl; [apply IH|reflexivity..].
Qed.

(** The inner loop of the building branch: one column of cells. *)
Lemma wall_column (x : Z) (n : nat) :
  forall (y0 : Z) (s s' : state),
    for_loop y0 n (fun y s =>
      m ← map_add_wall (map s) (mkPosition x y); Ok (with_map s m)) s = Ok s' ->
    s' = with_map s (map s') /\
    add_walls (map s) ((fun y => mkPosition x y) <$> seqZ y0 (Z.of_nat n))
    = Ok (map s').
Proof.
  induction n as [|n IH]; intros y0 s s' Hrun.
  - simpl in Hrun. injection Hrun as <-.
    split; [destruct s; reflexivity|reflexivity].
  - simpl in Hrun. apply bind_Ok in Hrun as (s1 & Hb & Hrun).
    apply bind_Ok in Hb as (m & Hm & Hb). injection Hb as <-.
    destruct (IH _ _ _ Hrun) as [Hshape Hwalls].
    rewrite seqZ_cons by lia. rewrite Nat2Z.inj_succ, Z.pred_succ.
    split; [rewrite Hshape; reflexivity|].
    simpl. rewrite Hm. simpl. exact Hwalls.
Qed.

(** The two nested loops: column after column. *)
Lemma wall_block (y0 : Z) (ny : nat) (nx : nat) :
  forall (x0 : Z) (s s' : state),
    for_loop x0 nx (fun x s =>
      for_loop y0 ny (fun y s =>
        m ← map_add_wall (map s) (mkPosition x y); Ok (with_map s m)) s) s
    = Ok s' ->
    s' = with_map s (map s') /\
    add_walls (map s)
      (x ← seqZ x0 (Z.of_nat nx);
       (fun y => mkPosition x y) <$> seqZ y0 (Z.of_nat ny))
    = Ok (map s').
Proof.
  induction nx as [|nx IH]; intros x0 s s' Hrun.
  - simpl in Hrun. injection Hrun as <-.
    split; [destruct s; reflexivity|reflexivity].
  - simpl in Hrun. apply bind_Ok in Hrun as (s1 & Hcol & Hrun).
    apply wall_column in Hcol as [Hshape1 Hcol].
    destruct (IH _ _ _ Hrun) as [Hshape Hwalls].
    rewrite (seqZ_cons x0) by lia. rewrite Nat2Z.inj_succ, Z.pred_succ.
    split; [rewrite Hshape, Hshape1; reflexivity|].
    rewrite bind_cons, add_walls_app, Hcol. simpl.
    rewrite Hshape1 in Hwalls. exact Hwalls.
Qed.

Lemma seqZ_to_nat (m len : Z) : seqZ m (Z.of_nat (Z.to_nat len)) = seqZ m len.
Proof. unfold seqZ. rewrite Nat2Z.id. reflexivity. Qed.

Lemma add_building_row_map (buf : NDPointer Z) (i : Z) (s s' : state) :
  add_building_row buf i s = Ok s' ->
  exists t, buildings s' = buildings s ++ [t] /\
    (at2 buf i 0 = Ok (pos_x (building_pos t)) /\
     at2 buf i 1 = Ok (pos_y (building_pos t)) /\
     at2 buf i 2 = Ok (building_w t) /\ at2 buf i 3 = Ok (building_h t)) /\
    (CInt.in_int (pos_x (building_pos t) + building_w t) ->
     CInt.in_int (pos_y (building_pos t) + building_h t) ->
     add_walls (map s) (footprint t) = Ok (map s')).
Proof.
  unfold add_building_row. intros H.
  apply bind_Ok in H as (x & Hx & H). apply bind_Ok in H as (y & Hy & H).
  apply bind_Ok in H as (w & Hw & H). apply bind_Ok in H as (h & Hh & H).
  apply bind_Ok in H as (s1 & Hloop & H). injection H as <-.
  apply wall_block in Hloop as [Hshape Hwalls].
  eexists. split; [rewrite Hshape; reflexivity|]. simpl.
  split; [repeat split; assumption|].
  intros Hfx Hfy. unfold footprint. simpl.
  unfold CInt.add in Hwalls. rewrite !wrap_id in Hwalls by assumption.
  replace (x + w - x) with w in Hwalls by lia.
  replace (y + h - y) with h in Hwalls by lia.
  rewrite !seqZ_to_nat in Hwalls. exact Hwalls.
Qed.

(** X20. Parks are recorded as given: when the park branch returns, the
    park list has grown at its end by one park per row, in row order, and
    the [k]-th new park has the position, width and height found in cells
    [4k .. 4k+3] of the buffer. *)
Theorem parks_are_recorded_as_given (s s' : state) (n : Z)
    (linear_buffer : list Z) :
  4 * n <= CInt.INT_MAX ->
  add_object s (-3) n "custom" linear_buffer = Ok s' ->
  exists new, parks s' = parks s ++ new /\ length new = Z.to_nat n /\
    forall k t, new !! k = Some t ->
      linear_buffer !! (4 * k)%nat = Some (pos_x (park_pos t)) /\
      linear_buffer !! (4 * k + 1)%nat = Some (pos_y (park_pos t)) /\
      linear_buffer !! (4 * k + 2)%nat = Some (park_w t) /\
      linear_buffer !! (4 * k + 3)%nat = Some (park_h t).
Proof.
  intros Hfit Hrun. unfold add_object in Hrun.
  repeat (rewrite decide_False in Hrun by lia).
  rewrite decide_True in Hrun by reflexivity.
  rewrite decide_True in Hrun by reflexivity.
  destruct (for_loop_appends parks _ _ _ _ _
              (add_park_row_records (mkND linear_buffer [n; 4])) Hrun)
    as (new & Hnew & Hlen & Hrows).
  exists new. split; [exact Hnew|]. split; [exact Hlen|].
  intros k t Hk. destruct (Hrows k t Hk) as (H0 & H1 & H2 & H3).
  apply (row4_lookup linear_buffer n k); try assumption.
  rewrite <- Hlen. exact (lookup_lt_Some _ _ _ Hk).
Qed.

(** X21. Buildings are recorded as given, and only as buildings. Let no
    corner [x0 + w], [y0 + h] of a row leave the [int] range. When the
    building branch returns, the building list has grown by one building
    per row with the origin, width and height found in cells [4k .. 4k+3]
    of the buffer; the map is the one obtained by [add_wall] on every cell
    of the footprints of the new buildings, building after building and
    column after column; and the recorded wall list, from which [reset]
    rebuilds the map, is unchanged. *)
Theorem buildings_are_recorded_but_not_as_walls (s s' : state) (n : Z)
    (linear_buffer : list Z) :
  4 * n <= CInt.INT_MAX ->
  (forall (k : nat) x0 y0 w h,
     linear_buffer !! (4 * k)%nat = Some x0 ->
     linear_buffer !! (4 * k + 1)%nat = Some y0 ->
     linear_buffer !! (4 * k + 2)%nat = Some w ->
     linear_buffer !! (4 * k + 3)%nat = Some h ->
     CInt.in_int (x0 + w) /\ CInt.in_int (y0 + h)) ->
  add_object s (-4) n "custom" linear_buffer = Ok s' ->
  walls s' = walls s /\
  exists new, buildings s' = buildings s ++ new /\ length new = Z.to_nat n /\
    (forall k t, new !! k = Some t ->
       linear_buffer !! (4 * k)%nat = Some (pos_x (building_pos t)) /\
       linear_buffer !! (4 * k + 1)%nat = Some (pos_y (building_pos t)) /\
       linear_buffer !! (4 * k + 2)%nat = Some (building_w t) /\
       linear_buffer !! (4 * k + 3)%nat = Some (building_h t)) /\
    add_walls (map s) (new ≫= footprint) = Ok (map s').
Proof.
  intros Hfit Hcorner Hrun. unfold add_object in Hrun.
  repeat (rewrite decide_False in Hrun by lia).
  rewrite decide_True in Hrun by reflexivity.
  rewrite decide_True in Hrun by reflexivity.
  split.
  - revert Hrun. apply (for_loop_keeps walls), add_building_row_walls.
  - apply (for_loop_invariant
             (fun j s1 =>
                exists new, buildings s1 = buildings s ++ new /\
                  length new = j /\
                  (forall k t, new !! k = Some t ->
                     linear_buffer !! (4 * k)%nat = Some (pos_x (building_pos t)) /\
                     linear_buffer !! (4 * k + 1)%nat = Some (pos_y (building_pos t)) /\
                     linear_buffer !! (4 * k + 2)%nat = Some (building_w t) /\
                     linear_buffer !! (4 * k + 3)%nat = Some (building_h t)) /\
                  add_walls (map s) (new ≫= footprint) = Ok (map s1))
             (add_building_row (mkND linear_buffer [n; 4])) (Z.to_nat n) 0 s s');
      [| |exact Hrun].
    + exists []. rewrite app_nil_r. split; [reflexivity|].
      split; [reflexivity|]. split; [|reflexivity].
      intros k t Hk. discriminate.
    + intros j s1 s2 Hj (new & Hnew & Hlen & Hrows & Hmap) Hb.
      destruct (add_building_row_map _ _ _ _ Hb) as (t & Ht & (H0 & H1 & H2 & H3) & Hfoot).
      replace (0 + Z.of_nat j) with (Z.of_nat j) in H0, H1, H2, H3 by lia.
      destruct (row4_lookup linear_buffer n j _ _ _ _ Hfit Hj H0 H1 H2 H3)
        as (L0 & L1 & L2 & L3).
      destruct (Hcorner j _ _ _ _ L0 L1 L2 L3) as [Hcx Hcy].
      exists (new ++ [t]). rewrite Ht, Hnew, <- app_assoc.
      split; [reflexivity|]. split; [rewrite length_app; simpl; lia|]. split.
      * intros k u Hk. destruct (decide (k < length new)%nat) as [Hlt|Hge].
        -- rewrite lookup_app_l in Hk by exact Hlt. exact (Hrows k u Hk).
        -- rewrite lookup_app_r in Hk by lia.
           destruct (k - length new)%nat as [|m] eqn:Hm;
             [|destruct m; discriminate].
           injection Hk as <-. assert (k = j) as -> by lia.
           repeat split; assumption.
      * rewrite bind_app, add_walls_app, Hmap. simpl.
        rewrite app_nil_r. exact (Hfoot Hcx Hcy).
Qed.

(** X22. Lights are recorded as given: when the light branch returns, the
    [k]-th new light has the position, orientation and offset found in
    cells [4k .. 4k+3] of the buffer (its interval is the one drawn
    number). *)
Theorem lights_are_recorded_as_given (s s' : state) (n : Z)
    (linear_buffer : list Z) :
  4 * n <= CInt.INT_MAX ->
  add_object s (-2) n "custom" linear_buffer = Ok s' ->
  exists new, lights s' = lights s ++ new /\ length new = Z.to_nat n /\
    forall k t, new !! k = Some t ->
      linear_buffer !! (4 * k)%nat = Some (pos_x (light_pos t)) /\
      linear_buffer !! (4 * k + 1)%nat = Some (pos_y (light_pos t)) /\
      linear_buffer !! (4 * k + 2)%nat = Some (light_orientation t) /\
      linear_buffer !! (4 * k + 3)%nat = Some (light_offset t).
Proof.
  intros Hfit Hrun. unfold add_object in Hrun.
  repeat (rewrite decide_False in Hrun by lia).
  rewrite decide_True in Hrun by reflexivity.
  rewrite decide_True in Hrun by reflexivity.
  destruct (for_loop_appends lights _ _ _ _ _
              (add_light_row_records (mkND linear_buffer [n; 4])) Hrun)
    as (new & Hnew & Hlen & Hrows).
  exists new. split; [exact Hnew|]. split; [exact Hlen|].
  intros k t Hk. destruct (Hrows k t Hk) as (H0 & H1 & H2 & H3).
  apply (row4_lookup linear_buffer n k); try assumption.
  rewrite <- Hlen. exact (lookup_lt_Some _ _ _ Hk).
Qed.

Lemma spawn_keeps_scenery (place : state -> result (Position * state))
    (s s' : state) :
  (forall t pos t1, place t = Ok (pos, t1) ->
     (get_options t1, first_render t1, scenery t1)
     = (get_options t, first_render t, scenery t)) ->
  spawn s place = Ok s' ->
  (get_options s', first_render s', scenery s')
  = (get_options s, first_render s, scenery s).
Proof.
  intros Hplace H. unfold spawn in H. simpl in H.
  apply bind_Ok in H as ([pos s1] & Hp & H). apply Hplace in Hp.
  do 3 (apply bind_Ok in H as (? & _ & H)). injection H as <-.
  exact Hp.
Qed.

(** X23. [add_object] touches the registry of its own category only. A
    call that returns leaves the options and the render flag alone; it
    changes the wall list only in the wall branch, the light list only in
    the light branch, the park list only in the park branch, the building
    list only in the building branch, the agents, heap and id counter only
    in the car branch, and the random engine only in the light and car
    branches. *)
Theorem add_object_touches_one_registry (s s' : state) (obj_id n : Z)
    (method : string) (linear_buffer : list Z) :
  add_object s obj_id n method linear_buffer = Ok s' ->
  get_options s' = get_options s /\ first_render s' = first_render s /\
  (obj_id <> -1 -> walls s' = walls s) /\
  (obj_id <> -2 -> lights s' = lights s) /\
  (obj_id <> -3 -> parks s' = parks s) /\
  (obj_id <> -4 -> buildings s' = buildings s) /\
  (obj_id <> 0 -> population s' = population s) /\
  (obj_id <> -2 -> obj_id <> 0 -> random_engine s' = random_engine s).
Proof.
  intros Hrun.
  unfold add_object in Hrun.
  destruct (decide (obj_id = -1)) as [->|H1].
  { set (v := fun t : state => (get_options t, first_render t, lights t, parks t,
                     buildings t, population t, random_engine t)).
    assert (Hv : v s' = v s).
    { destruct (decide (method = "custom")); [|injection Hrun as <-; reflexivity].
      revert Hrun. apply (for_loop_keeps v). intros i s1 s2 H.
      unfold add_wall_row in H. do 5 (apply bind_Ok in H as (? & _ & H)).
      injection H as <-. reflexivity. }
    unfold v in Hv. cbv beta in Hv. injection Hv. intros.
    repeat split; intros; first [assumption|congruence]. }
  destruct (decide (obj_id = -2)) as [->|H2].
  { set (v := fun t : state => (get_options t, first_render t, walls t, parks t,
                     buildings t, population t)).
    assert (Hv : v s' = v s).
    { destruct (decide (method = "custom")); [|injection Hrun as <-; reflexivity].
      revert Hrun. apply (for_loop_keeps v). intros i s1 s2 H.
      unfold add_light_row in H. do 5 (apply bind_Ok in H as (? & _ & H)).
      destruct (engine_call _) as [raw eng].
      do 3 (apply bind_Ok in H as (? & _ & H)). injection H as <-. reflexivity. }
    unfold v in Hv. cbv beta in Hv. injection Hv. intros.
    repeat split; intros; first [assumption|congruence]. }
  destruct (decide (obj_id = -3)) as [->|H3].
  { set (v := fun t : state => (get_options t, first_render t, walls t, lights t,
                     buildings t, population t, random_engine t)).
    assert (Hv : v s' = v s).
    { destruct (decide (method = "custom")); [|injection Hrun as <-; reflexivity].
      revert Hrun. apply (for_loop_keeps v). intros i s1 s2 H.
      unfold add_park_row in H. do 7 (apply bind_Ok in H as (? & _ & H)).
      injection H as <-. reflexivity. }
    unfold v in Hv. cbv beta in Hv. injection Hv. intros.
    repeat split; intros; first [assumption|congruence]. }
  destruct (decide (obj_id = -4)) as [->|H4].
  { set (v := fun t : state => (get_options t, first_render t, walls t, lights t,
                     parks t, population t, random_engine t)).
    assert (Hv : v s' = v s).
    { destruct (decide (method = "custom")); [|injection Hrun as <-; reflexivity].
      revert Hrun. apply (for_loop_keeps v). intros i s1 s2 H.
      unfold add_building_row in H. do 4 (apply bind_Ok in H as (? & _ & H)).
      apply bind_Ok in H as (s3 & Hloop & H). injection H as <-.
      transitivity (v s3);
        [reflexivity|].
      revert Hloop. apply (for_loop_keeps v). intros cx s4 s5.
      apply (for_loop_keeps v). intros cy s6 s7 Hb.
      apply bind_Ok in Hb as (m & _ & Hb). injection Hb as <-. reflexivity. }
    unfold v in Hv. cbv beta in Hv. injection Hv. intros.
    repeat split; intros; first [assumption|congruence]. }
  destruct (decide (obj_id = 0)) as [->|H0].
  { set (v := fun t : state => (get_options t, first_render t, scenery t)).
    assert (Hv : v s' = v s).
    { destruct (decide (method = "random")).
      - revert Hrun. apply (for_loop_keeps v). intros i s1 s2.
        apply spawn_keeps_scenery. intros t pos t1 Hp. unfold place_random in Hp.
        apply bind_Ok in Hp as ([pos' eng] & _ & Hp). injection Hp as <- <-.
        reflexivity.
      - destruct (decide (method = "custom")); [|discriminate].
        revert Hrun. apply (for_loop_keeps v). intros i s1 s2.
        apply spawn_keeps_scenery. intros t pos t1 Hp. unfold place_custom in Hp.
        do 2 (apply bind_Ok in Hp as (? & _ & Hp)). injection Hp as <- <-.
        reflexivity. }
    unfold v, scenery in Hv. cbv beta in Hv. injection Hv. intros.
    repeat split; intros; first [assumption|congruence]. }
  injection Hrun as <-. repeat split.
Qed.

End InjectionFacts.

Section ObservationFacts.

Context `{Hdr : Headers} {Map Engine : Type}.
Context `{EO : !EngineOps Engine} `{MO : !MapOps Map Engine}.

Local Abbreviation state := (TransCity.state Map Engine).

Lemma get_embedding_values (a : Agent) (count : nat) :
  forall (b b' : list float) (off : Z) (k : nat),
    get_embedding_from a b off k count = Ok b' ->
    forall j, (j < count)%nat ->
      buf_read b' (off + Z.of_nat (k + j))
      = Ok (embedding_component (agent_id a) (k + j)).
Proof.
  induction count as [|count IH]; intros b b' off k H j Hj; [lia|].
  simpl in H. apply bind_Ok in H as (b1 & Hw & H).
  destruct j as [|j].
  - rewrite Nat.add_0_r.
    rewrite (get_embedding_frame _ _ _ _ _ _ H) by lia.
    exact (buf_write_read_eq _ _ _ _ Hw).
  - replace (k + S j)%nat with (S k + j)%nat by lia.
    apply (IH b1 b' off (S k) H j). lia.
Qed.

Lemma observe_agent_row (s : state) (i : Z) (view feat view' feat' : list float) :
  let fs := embedding_size s + ACT_NUM + 1 + 2 in
  0 <= embedding_size s -> 0 <= ACT_NUM -> 0 <= i ->
  (i + 1) * fs <= CInt.INT_MAX ->
  (forall q b, q ∈ agents s -> objs (heap s) !! q = Some b ->
     0 <= agent_action b < ACT_NUM) ->
  (forall c, 0 <= c < fs -> buf_read feat (i * fs + c) = Ok float_zero) ->
  observe_agent s fs i (view, feat) = Ok (view', feat') ->
  exists p a, agents s !! Z.to_nat i = Some p /\ objs (heap s) !! p = Some a /\
    forall c, 0 <= c < fs ->
      buf_read feat' (i * fs + c) = Ok (feature_cell s a c).
Proof.
  intros fs He Ha Hi Hfit Hact Hzero H. unfold observe_agent in H.
  apply bind_Ok in H as (p & Hp & H).
  apply bind_Ok in H as (a & Hget & H).
  apply bind_Ok in H as (v1 & _ & H).
  apply bind_Ok in H as (f1 & Hemb & H).
  apply bind_Ok in H as (f2 & Hw2 & H).
  apply bind_Ok in H as (f3 & Hw3 & H).
  apply bind_Ok in H as (f4 & Hw4 & H).
  apply bind_Ok in H as (f5 & Hw5 & H).
  injection H as <- <-.
  unfold buf_read in Hp. rewrite decide_True in Hp by lia.
  destruct (agents s !! Z.to_nat i) as [p'|] eqn:Hlk; [|discriminate].
  injection Hp as ->.
  unfold heap_get in Hget.
  destruct (objs (heap s) !! p) as [a'|] eqn:Hobj; [|discriminate].
  injection Hget as ->.
  specialize (Hact p a (list_elem_of_lookup_2 _ _ _ Hlk) Hobj).
  assert (Hfs : 3 <= fs <= 2147483647)
    by (unfold fs, CInt.INT_MAX in *; nia).
  assert (Hrow : 0 <= i * fs /\ (i + 1) * fs <= 2147483647)
    by (unfold CInt.INT_MAX in *; nia).
  assert (Hin : forall z, 0 <= z <= 2147483647 -> CInt.in_int z)
    by (intros z Hz; unfold CInt.in_int, CInt.INT_MIN, CInt.INT_MAX; lia).
  rewrite mul_exact in Hemb by (apply Hin; nia).
  rewrite (add_exact (embedding_size s) (agent_action a)) in Hw2
    by (apply Hin; unfold fs in *; lia).
  rewrite (add_exact (embedding_size s) ACT_NUM) in Hw3, Hw4, Hw5
    by (apply Hin; unfold fs in *; lia).
  rewrite (add_exact (embedding_size s + ACT_NUM) 1) in Hw4
    by (apply Hin; unfold fs in *; lia).
  rewrite (add_exact (embedding_size s + ACT_NUM) 2) in Hw5
    by (apply Hin; unfold fs in *; lia).
  rewrite index2_exact in Hw2 by (unfold fs in *; lia || exact Hfit).
  rewrite index2_exact in Hw3 by (unfold fs in *; lia || exact Hfit).
  rewrite index2_exact in Hw4 by (unfold fs in *; lia || exact Hfit).
  rewrite index2_exact in Hw5 by (unfold fs in *; lia || exact Hfit).
  unfold get_embedding in Hemb.
  pose proof (get_embedding_frame _ _ _ _ _ _ Hemb) as Hf1.
  pose proof (get_embedding_values _ _ _ _ _ _ Hemb) as Hv1.
  exists p, a. split; [reflexivity|]. split; [exact Hobj|].
  intros c Hc. unfold feature_cell.
  destruct (decide (c < embedding_size s)) as [Hc1|Hc1].
  - rewrite (buf_write_read_ne _ _ _ _ _ Hw5) by lia.
    rewrite (buf_write_read_ne _ _ _ _ _ Hw4) by lia.
    rewrite (buf_write_read_ne _ _ _ _ _ Hw3) by lia.
    rewrite (buf_write_read_ne _ _ _ _ _ Hw2) by lia.
    specialize (Hv1 (Z.to_nat c) ltac:(lia)).
    replace (i * fs + Z.of_nat (0 + Z.to_nat c)) with (i * fs + c) in Hv1 by lia.
    exact Hv1.
  - destruct (decide (c < embedding_size s + ACT_NUM)) as [Hc2|Hc2].
    + rewrite (buf_write_read_ne _ _ _ _ _ Hw5) by lia.
      rewrite (buf_write_read_ne _ _ _ _ _ Hw4) by lia.
      rewrite (buf_write_read_ne _ _ _ _ _ Hw3) by lia.
      destruct (decide (c = embedding_size s + agent_action a)) as [->|Hc3].
      * exact (buf_write_read_eq _ _ _ _ Hw2).
      * rewrite (buf_write_read_ne _ _ _ _ _ Hw2) by lia.
        rewrite Hf1 by lia. apply Hzero. exact Hc.
    + destruct (decide (c = embedding_size s + ACT_NUM)) as [->|Hc3].
      * rewrite (buf_write_read_ne _ _ _ _ _ Hw5) by lia.
        rewrite (buf_write_read_ne _ _ _ _ _ Hw4) by lia.
        exact (buf_write_read_eq _ _ _ _ Hw3).
      * destruct (decide (c = embedding_size s + ACT_NUM + 1)) as [->|Hc4].
        -- rewrite (buf_write_read_ne _ _ _ _ _ Hw5) by lia.
           exact (buf_write_read_eq _ _ _ _ Hw4).
        -- assert (c = embedding_size s + ACT_NUM + 2) as ->
             by (unfold fs in *; lia).
           exact (buf_write_read_eq _ _ _ _ Hw5).
Qed.

Lemma buf_zero_reads (b b' : list float) (n : Z) :
  buf_zero b n = Ok b' ->
  length b' = length b /\
  (forall j, 0 <= j < n -> buf_read b' j = Ok float_zero) /\
  (forall j, n <= j -> buf_read b' j = buf_read b j).
Proof.
  unfold buf_zero. case_decide as Hn; [|discriminate]. intros [= <-].
  split; [|split].
  - rewrite length_app, length_replicate, length_drop. lia.
  - intros j Hj. unfold buf_read. rewrite decide_True by lia.
    rewrite lookup_app_l by (rewrite length_replicate; lia).
    rewrite lookup_replicate_2 by lia. reflexivity.
  - intros j Hj. unfold buf_read. case_decide; [|reflexivity].
    rewrite lookup_app_r by (rewrite length_replicate; lia).
    rewrite length_replicate, lookup_drop.
    replace (Z.to_nat n + (Z.to_nat j - Z.to_nat n))%nat with (Z.to_nat j) by lia.
    reflexivity.
Qed.

Lemma observation_cells (s : state) (group : Z)
    (view feat view' feat' : list float) (i : nat) (p : loc) (a : Agent) :
  0 <= embedding_size s -> 0 <= ACT_NUM ->
  Z.of_nat (length (agents s)) * (embedding_size s + ACT_NUM + 1 + 2)
    <= CInt.INT_MAX ->
  (forall q b, q ∈ agents s -> objs (heap s) !! q = Some b ->
     0 <= agent_action b < ACT_NUM) ->
  get_observation s group view feat = Ok (view', feat') ->
  agents s !! i = Some p -> objs (heap s) !! p = Some a ->
  forall c, 0 <= c < embedding_size s + ACT_NUM + 1 + 2 ->
    buf_read feat' (Z.of_nat i * (embedding_size s + ACT_NUM + 1 + 2) + c)
    = Ok (feature_cell s a c).
Proof.
  intros He Ha Hfit Hact Hrun Hp Hobj.
  set (fs := embedding_size s + ACT_NUM + 1 + 2) in *.
  set (n := length (agents s)) in *.
  pose proof (lookup_lt_Some _ _ _ Hp) as Hi. fold n in Hi.
  assert (Hfs : get_feature_size_ s group = fs).
  { apply feature_size_exact; [|exact Ha|fold fs; unfold CInt.INT_MAX in *; nia].
    unfold CInt.in_int, CInt.INT_MIN, CInt.INT_MAX in *. unfold fs in *. nia. }
  unfold get_observation in Hrun. rewrite Hfs in Hrun. fold n in Hrun.
  apply bind_Ok in Hrun as (view0 & _ & Hrun).
  apply bind_Ok in Hrun as (feat0 & Hzero & Hrun).
  apply buf_zero_reads in Hzero as (_ & Hzero & _).
  pose proof (for_loop_invariant
    (fun k (bufs : list float * list float) =>
       (forall i' q b c, (i' < k)%nat -> agents s !! i' = Some q ->
          objs (heap s) !! q = Some b -> 0 <= c < fs ->
          buf_read bufs.2 (Z.of_nat i' * fs + c) = Ok (feature_cell s b c)) /\
       (forall j, Z.of_nat k * fs <= j < Z.of_nat n * fs ->
          buf_read bufs.2 j = Ok float_zero))
    (observe_agent s fs) n 0 (view0, feat0) (view', feat')) as Hloop.
  destruct Hloop as [Hdone _];
    [| |exact Hrun|intros c Hc; exact (Hdone i p a c Hi Hp Hobj Hc)].
  - split; [intros; lia|]. intros j Hj. apply Hzero. lia.
  - clear Hrun. intros k [v1 f1] [v2 f2] Hk [Hprev Hblank] Hbody. simpl in *.
    pose proof Hbody as Hbody'.
    apply observe_agent_spec in Hbody' as (pk' & ak' & _ & _ & Hframe & _);
      [|exact He|exact Ha|lia|fold fs; unfold CInt.INT_MAX in *; nia|exact Hact].
    apply observe_agent_row in Hbody as (pk & ak & Hpk & Hak & Hrow);
      [|exact He|exact Ha|lia|fold fs; unfold CInt.INT_MAX in *; nia|exact Hact|].
    2:{ intros c Hc. apply Hblank. fold fs in Hc. nia. }
    replace (Z.to_nat (0 + Z.of_nat k)) with k in Hpk by lia.
    replace (0 + Z.of_nat k) with (Z.of_nat k) in Hframe, Hrow by lia.
    fold fs in Hframe, Hrow. split.
    + intros i' q b c Hi' Hq Hb Hc. destruct (decide (i' = k)) as [->|Hne].
      * assert (q = pk) as -> by congruence. assert (b = ak) as -> by congruence.
        apply Hrow. exact Hc.
      * rewrite Hframe by (left; nia).
        apply (Hprev i' q b c); [lia|assumption..].
    + intros j Hj. rewrite Hframe by (right; lia). apply Hblank. lia.
Qed.

(** X24. The whole feature slice of an agent. Let the sizes be
    non-negative, every flat index fit an [int], and every agent hold an
    action of the enumeration. Whenever [get_observation] returns, cell [c]
    of the slice of agent [i] holds: component [c] of the agent's embedding
    for [c < embedding_size]; then the one-hot of its action (1 at the
    action, 0 elsewhere); then its last reward; then position minus goal
    in x and in y. *)
Theorem observation_slice_layout (s : state) (group : Z)
    (view feat view' feat' : list float) (i : nat) (p : loc) (a : Agent) :
  0 <= embedding_size s -> 0 <= ACT_NUM ->
  Z.of_nat (length (agents s)) * (embedding_size s + ACT_NUM + 1 + 2)
    <= CInt.INT_MAX ->
  (forall q b, q ∈ agents s -> objs (heap s) !! q = Some b ->
     0 <= agent_action b < ACT_NUM) ->
  get_observation s group view feat = Ok (view', feat') ->
  agents s !! i = Some p -> objs (heap s) !! p = Some a ->
  forall c, 0 <= c < embedding_size s + ACT_NUM + 1 + 2 ->
    buf_read feat' (Z.of_nat i * (embedding_size s + ACT_NUM + 1 + 2) + c)
    = Ok (feature_cell s a c).
Proof. exact (observation_cells s group view feat view' feat' i p a). Qed.




(** X26. Actions set are actions observed: after [set_action] on a valid
    population with actions of the enumeration, the next
    [get_observation] shows, in the one-hot part of agent [i]'s slice, 1
    at [actions[i]] and 0 at every other action. *)
Theorem actions_show_in_the_observation (s s1 : state) (group : Z)
    (actions : list Z) (view feat view' feat' : list float)
    (i : nat) (p : loc) (act : Z) :
  population_valid s ->
  0 <= embedding_size s -> 0 <= ACT_NUM ->
  Z.of_nat (length (agents s)) * (embedding_size s + ACT_NUM + 1 + 2)
    <= CInt.INT_MAX ->
  (length (agents s) <= length actions)%nat ->
  (forall j v, actions !! j = Some v -> 0 <= v < ACT_NUM) ->
  set_action s group actions = Ok s1 ->
  get_observation s1 group view feat = Ok (view', feat') ->
  agents s !! i = Some p -> actions !! i = Some act ->
  forall c, 0 <= c < ACT_NUM ->
    buf_read feat'
      (Z.of_nat i * (embedding_size s + ACT_NUM + 1 + 2) + embedding_size s + c)
    = Ok (if decide (c = act) then float_of_int 1 else float_zero).
Proof.
  intros Hvalid He Ha Hfit Hlen Hrange Hset Hobs Hp Hact c Hc.
  destruct (set_action_loop s actions (length (agents s)) Hvalid ltac:(lia) Hlen)
    as (t & Hrun & Hshape & _ & Hdone & _).
  unfold set_action in Hset. rewrite Hrun in Hset. injection Hset as ->.
  assert (Hag : agents s1 = agents s) by (rewrite Hshape; reflexivity).
  assert (Hemb : embedding_size s1 = embedding_size s)
    by (rewrite Hshape; reflexivity).
  destruct Hvalid as [Hnd Hlive].
  assert (Hnew : forall j q, agents s !! j = Some q ->
            exists b v, objs (heap s) !! q = Some b /\ actions !! j = Some v /\
              objs (heap s1) !! q = Some (Agent_set_action b v)).
  { intros j q Hq.
    destruct (Hlive q (list_elem_of_lookup_2 _ _ _ Hq)) as [b Hb].
    destruct (lookup_lt_is_Some_2 actions j) as [v Hv].
    { pose proof (lookup_lt_Some _ _ _ Hq). lia. }
    exists b, v. split; [exact Hb|]. split; [exact Hv|].
    rewrite (Hdone j q (lookup_lt_Some _ _ _ Hq) Hq), Hb, Hv. reflexivity. }
  destruct (Hnew i p Hp) as (a & v & Hobj & Hv & Hobj1).
  assert (v = act) as -> by congruence.
  pose proof (observation_cells s1 group view feat view' feat' i p
                (Agent_set_action a act)) as Hcells.
  rewrite Hag, Hemb in Hcells.
  specialize (Hcells He Ha Hfit).
  assert (Hacts : forall q b, q ∈ agents s -> objs (heap s1) !! q = Some b ->
            0 <= agent_action b < ACT_NUM).
  { intros q b (j & Hq)%list_elem_of_lookup Hb.
    destruct (Hnew j q Hq) as (b0 & v & _ & Hv' & Hb').
    rewrite Hb in Hb'. injection Hb' as ->. simpl. exact (Hrange j v Hv'). }
  specialize (Hcells Hacts Hobs Hp Hobj1 (embedding_size s + c) ltac:(lia)).
  replace (Z.of_nat i * (embedding_size s + ACT_NUM + 1 + 2) + embedding_size s + c)
    with (Z.of_nat i * (embedding_size s + ACT_NUM + 1 + 2) + (embedding_size s + c))
    by lia.
  rewrite Hcells. unfold feature_cell. rewrite Hemb. simpl.
  rewrite decide_False by lia. rewrite decide_True by lia.
  destruct (decide (c = act)) as [->|Hne].
  - rewrite decide_True by reflexivity. reflexivity.
  - rewrite decide_False by lia. reflexivity.
Qed.

End ObservationFacts.

(** ** The further properties at work on the concrete city *)

Lemma mixed_city_live : forall p, p ∈ agents mixed_city ->
  is_Some (objs (heap mixed_city) !! p).
Proof. exact (proj2 mixed_city_valid). Qed.

Lemma goal_city_actions : forall q b, q ∈ agents goal_city ->
  objs (heap goal_city) !! q = Some b ->
  0 <= agent_action b < ACT_NUM (Headers := city_headers 0).
Proof.
  intros q b Hq Hb. repeat (apply elem_of_cons in Hq as [->|Hq]);
    [vm_compute in Hb; injection Hb as <-; vm_compute; split;
       [discriminate|reflexivity] ..
    |apply elem_of_nil in Hq; destruct Hq].
Qed.

Lemma goal_city_valid : population_valid goal_city.
Proof.
  split.
  - refine (bool_decide_unpack _ _). vm_compute. exact I.
  - intros p Hp. repeat (apply elem_of_cons in Hp as [->|Hp]);
      [eexists; vm_compute; reflexivity ..|apply elem_of_nil in Hp; destruct Hp].
Qed.

(** Witness of X1: a two-character directory name, a three-character one,
    and a key that does not exist. *)
Lemma set_config_known_or_fatal_witness :
  (length (bytes_of_string "ab") < 4)%nat /\
  set_config fresh_city "render_dir" (bytes_of_string "ab") = Undefined /\
  (4 <= length (bytes_of_string "out"))%nat /\
  (exists s', set_config fresh_city "render_dir" (bytes_of_string "out") = Ok s') /\
  set_config fresh_city "render_dir" (bytes_of_string "out")
    = Ok (with_options fresh_city
            (mkOptions 100 100 3 3 16 10 20 "out")) /\
  set_config fresh_city "speed" (bytes_of_int 3)
    = Fatal (String.append "invalid argument in TransCity::set_config: " "speed").
Proof.
  assert (H1 : (length (bytes_of_string "ab") < 4)%nat) by (vm_compute; lia).
  assert (H2 : (4 <= length (bytes_of_string "out"))%nat) by (vm_compute; lia).
  assert (H3 : "render_dir" ∈ config_keys)
    by (unfold config_keys; rewrite !elem_of_cons; auto 20).
  assert (H4 : "render_dir" = "render_dir" ->
               exists b, b ∈ bytes_of_string "out" /\ byte_val b = 0).
  { intros _. exists Byte.x00. split; [|reflexivity].
    unfold bytes_of_string. apply elem_of_app. right. left. }
  assert (H5 : (4 <= length (bytes_of_int 3))%nat) by (vm_compute; lia).
  assert (H6 : "speed" ∉ config_keys).
  { unfold config_keys. rewrite !elem_of_cons, elem_of_nil.
    intros Hin. repeat (destruct Hin as [Hin|Hin]; [discriminate|]).
    exact Hin. }
  split; [exact H1|].
  split; [exact (proj1 (set_config_known_or_fatal fresh_city "render_dir"
                          (bytes_of_string "ab")) H1)|].
  split; [exact H2|].
  split; [exact (proj1 (proj2 (set_config_known_or_fatal fresh_city "render_dir"
                                 (bytes_of_string "out")) H2) H3 H4)|].
  split; [vm_compute; reflexivity|].
  exact (proj2 (proj2 (set_config_known_or_fatal fresh_city "speed"
                         (bytes_of_int 3)) H5) H6).
Defined.

(** Witness of X3: the map width set to 50 on the fresh city. *)
Lemma set_config_keeps_the_scenario_witness :
  set_config fresh_city "map_width" (bytes_of_int 50) = Ok wide_city /\
  width wide_city = 50 /\
  population wide_city = population fresh_city /\
  scenery wide_city = scenery fresh_city /\
  map wide_city = map fresh_city /\
  first_render wide_city = first_render fresh_city /\
  ("map_width" <> "seed" -> random_engine wide_city = random_engine fresh_city).
Proof.
  assert (H1 : set_config fresh_city "map_width" (bytes_of_int 50) = Ok wide_city)
    by (vm_compute; reflexivity).
  split; [exact H1|]. split; [vm_compute; reflexivity|].
  exact (set_config_keeps_the_scenario fresh_city wide_city "map_width"
           (bytes_of_int 50) H1).
Defined.

(** Witness of X6: the destructor on the two-car city. *)
Lemma destroy_frees_every_agent_witness :
  population_valid mixed_city /\
  exists h', destroy mixed_city = Ok h' /\
    (forall p, p ∈ agents mixed_city -> objs h' !! p = None) /\
    (forall p, p ∉ agents mixed_city ->
       objs h' !! p = objs (heap mixed_city) !! p).
Proof.
  assert (H1 : population_valid mixed_city) by exact mixed_city_valid.
  split; [exact H1|].
  exact (destroy_frees_every_agent mixed_city H1).
Defined.

(** Witness of X7: [reset] of the two-car city. *)
Lemma reset_rebuilds_the_map_only_witness :
  population_valid mixed_city /\
  map_reset (map mixed_city) (walls mixed_city) (width mixed_city)
    (height mixed_city) = Ok (map mixed_reset) /\
  exists s', reset mixed_city = Ok s' /\
    id_counter s' = 0 /\ map s' = map mixed_reset /\
    agents s' = agents mixed_city /\
    scenery s' = scenery mixed_city /\
    (forall p, p ∈ agents mixed_city -> objs (heap s') !! p = None).
Proof.
  assert (H1 : population_valid mixed_city) by exact mixed_city_valid.
  assert (H2 : map_reset (map mixed_city) (walls mixed_city) (width mixed_city)
                 (height mixed_city) = Ok (map mixed_reset))
    by (vm_compute; reflexivity).
  split; [exact H1|]. split; [exact H2|].
  exact (reset_rebuilds_the_map_only mixed_city (map mixed_reset) H1 H2).
Defined.

(** Witness of X8: the per-agent calls after [reset] of the two-car city. *)
Lemma after_reset_every_agent_call_is_undefined_witness :
  population_valid mixed_city /\ agents mixed_city <> [] /\
  reset mixed_city = Ok mixed_reset /\
  get_reward mixed_reset 0 [float_zero; float_zero] = Undefined /\
  set_action mixed_reset 0 [1; 2] = Undefined /\
  get_info (Hdr := city_headers 0) mixed_reset 0 "id" [IntCell 0; IntCell 0]
    = Undefined /\
  get_info (Hdr := city_headers 0) mixed_reset 0 "alive" [IntCell 0; IntCell 0]
    = Undefined /\
  get_observation (Hdr := city_headers 0) mixed_reset 0
    (replicate 72 float_zero) (replicate 48 float_zero) = Undefined /\
  clear_dead mixed_reset = Undefined /\
  destroy mixed_reset = Undefined /\
  (forall s'', reset mixed_reset <> Ok s'').
Proof.
  assert (H1 : population_valid mixed_city) by exact mixed_city_valid.
  assert (H2 : agents mixed_city <> []) by (vm_compute; discriminate).
  assert (H3 : reset mixed_city = Ok mixed_reset) by (vm_compute; reflexivity).
  split; [exact H1|]. split; [exact H2|]. split; [exact H3|].
  exact (after_reset_every_agent_call_is_undefined (Hdr := city_headers 0)
           mixed_city mixed_reset 0 [float_zero; float_zero]
           (replicate 72 float_zero) (replicate 48 float_zero)
           [IntCell 0; IntCell 0] [1; 2] H1 H2 H3).
Defined.

(** Witness of X9: ids and liveness of the two-car city, into three cells. *)
Lemma get_info_id_and_alive_witness :
  (forall p, p ∈ agents mixed_city -> is_Some (objs (heap mixed_city) !! p)) /\
  (length (agents mixed_city) <= length [IntCell 9; IntCell 9; IntCell 9])%nat /\
  get_info (Hdr := city_headers 0) mixed_city 0 "id"
    [IntCell 9; IntCell 9; IntCell 9] =
    Ok (gathered (heap mixed_city) (agents mixed_city)
          (fun a => IntCell (agent_id a))
        ++ drop (length (agents mixed_city)) [IntCell 9; IntCell 9; IntCell 9]) /\
  get_info (Hdr := city_headers 0) mixed_city 0 "alive"
    [IntCell 9; IntCell 9; IntCell 9] =
    Ok (gathered (heap mixed_city) (agents mixed_city)
          (fun a => BoolCell (negb (is_dead a)))
        ++ drop (length (agents mixed_city)) [IntCell 9; IntCell 9; IntCell 9]).
Proof.
  assert (H1 : forall p, p ∈ agents mixed_city ->
                 is_Some (objs (heap mixed_city) !! p)) by exact mixed_city_live.
  assert (H2 : (length (agents mixed_city)
                <= length [IntCell 9; IntCell 9; IntCell 9])%nat)
    by (vm_compute; lia).
  split; [exact H1|]. split; [exact H2|].
  exact (proj1 (get_info_id_and_alive (Hdr := city_headers 0) mixed_city 0
                  [IntCell 9; IntCell 9; IntCell 9] H1) H2).
Defined.

(** Witness of X10: rewards of the two-car city, into three cells. *)
Lemma get_reward_gathers_witness :
  (forall p, p ∈ agents mixed_city -> is_Some (objs (heap mixed_city) !! p)) /\
  (length (agents mixed_city) <= length (replicate 3 (float_of_int 7)))%nat /\
  get_reward mixed_city 0 (replicate 3 (float_of_int 7)) =
    Ok (gathered (heap mixed_city) (agents mixed_city) agent_reward
        ++ drop (length (agents mixed_city)) (replicate 3 (float_of_int 7))) /\
  get_reward mixed_city 0 (replicate 3 (float_of_int 7)) =
    Ok [float_zero; float_of_int 3; float_of_int 7].
Proof.
  assert (H1 : forall p, p ∈ agents mixed_city ->
                 is_Some (objs (heap mixed_city) !! p)) by exact mixed_city_live.
  assert (H2 : (length (agents mixed_city)
                <= length (replicate 3 (float_of_int 7)))%nat)
    by (vm_compute; lia).
  split; [exact H1|]. split; [exact H2|].
  split; [|vm_compute; reflexivity].
  exact (proj1 (get_reward_gathers mixed_city 0 (replicate 3 (float_of_int 7)) H1) H2).
Defined.

(** Witness of X11: two actions for the two cars. *)
Lemma set_action_assigns_by_index_witness :
  population_valid mixed_city /\
  (length (agents mixed_city) <= length [1; 2])%nat /\
  exists s', set_action mixed_city 0 [1; 2] = Ok s' /\
    s' = with_heap mixed_city (heap s') /\
    (forall i p a, agents mixed_city !! i = Some p ->
       objs (heap mixed_city) !! p = Some a ->
       exists act, [1; 2] !! i = Some act /\
         objs (heap s') !! p = Some (Agent_set_action a act)) /\
    (forall p, p ∉ agents mixed_city ->
       objs (heap s') !! p = objs (heap mixed_city) !! p).
Proof.
  assert (H1 : population_valid mixed_city) by exact mixed_city_valid.
  assert (H2 : (length (agents mixed_city) <= length [1; 2])%nat)
    by (vm_compute; lia).
  split; [exact H1|]. split; [exact H2|].
  exact (proj1 (set_action_assigns_by_index mixed_city 0 [1; 2] H1) H2).
Defined.

(** Witness of X12: compacting the two-car city twice. *)
Lemma clear_dead_twice_witness :
  population_valid mixed_city /\
  clear_dead mixed_city = Ok mixed_compacted /\
  exists s'', clear_dead mixed_compacted = Ok s'' /\
    agents s'' = agents mixed_compacted /\
    s'' = with_heap mixed_compacted (heap s'') /\
    (forall p, is_Some (objs (heap s'') !! p)
               <-> is_Some (objs (heap mixed_compacted) !! p)) /\
    (forall p a, p ∈ agents mixed_compacted ->
       objs (heap mixed_compacted) !! p = Some a ->
       objs (heap s'') !! p = Some (init_reward a)) /\
    (forall p, p ∉ agents mixed_compacted ->
       objs (heap s'') !! p = objs (heap mixed_compacted) !! p).
Proof.
  assert (H1 : population_valid mixed_city) by exact mixed_city_valid.
  assert (H2 : clear_dead mixed_city = Ok mixed_compacted)
    by (vm_compute; reflexivity).
  split; [exact H1|]. split; [exact H2|].
  exact (clear_dead_twice mixed_city mixed_compacted H1 H2).
Defined.

(** Witness of X13: the two-car city before any car is flagged. *)
Lemma clear_dead_extremes_witness :
  population_valid two_car_city /\
  (forall p, p ∈ agents two_car_city -> dead_at (heap two_car_city) p = false) /\
  exists s', clear_dead two_car_city = Ok s' /\ agents s' = agents two_car_city.
Proof.
  assert (H1 : population_valid two_car_city).
  { split.
    - refine (bool_decide_unpack _ _). vm_compute. exact I.
    - intros p Hp. repeat (apply elem_of_cons in Hp as [->|Hp]);
        [eexists; vm_compute; reflexivity ..
        |apply elem_of_nil in Hp; destruct Hp]. }
  assert (H2 : forall p, p ∈ agents two_car_city ->
                 dead_at (heap two_car_city) p = false).
  { intros p Hp. repeat (apply elem_of_cons in Hp as [->|Hp]);
      [vm_compute; reflexivity ..|apply elem_of_nil in Hp; destruct Hp]. }
  split; [exact H1|]. split; [exact H2|].
  destruct (clear_dead_extremes two_car_city H1) as (s' & Hrun & Hnone & _).
  exists s'. split; [exact Hrun|exact (Hnone H2)].
Defined.

(** Witness of X14: the ids listed after compacting the two-car city. *)
Lemma ids_after_compaction_witness :
  population_valid mixed_city /\
  clear_dead mixed_city = Ok mixed_compacted /\
  (length (agents mixed_compacted) <= length [IntCell 9; IntCell 9])%nat /\
  get_info (Hdr := city_headers 0) mixed_compacted 0 "id" [IntCell 9; IntCell 9] =
    Ok (gathered (heap mixed_city) (survivors mixed_city)
          (fun a => IntCell (agent_id a))
        ++ drop (length (survivors mixed_city)) [IntCell 9; IntCell 9]).
Proof.
  assert (H1 : population_valid mixed_city) by exact mixed_city_valid.
  assert (H2 : clear_dead mixed_city = Ok mixed_compacted)
    by (vm_compute; reflexivity).
  assert (H3 : (length (agents mixed_compacted)
                <= length [IntCell 9; IntCell 9])%nat) by (vm_compute; lia).
  split; [exact H1|]. split; [exact H2|]. split; [exact H3|].
  exact (ids_after_compaction (Hdr := city_headers 0) mixed_city mixed_compacted 0
           [IntCell 9; IntCell 9] H1 H2 H3).
Defined.

(** Witness of X15: the ids of the two-car city. *)
Lemma get_info_id_has_no_duplicates_witness :
  ids_wellformed mixed_city /\
  (length (agents mixed_city) <= length [IntCell 9; IntCell 9])%nat /\
  exists out,
    get_info (Hdr := city_headers 0) mixed_city 0 "id" [IntCell 9; IntCell 9]
      = Ok out /\
    NoDup (take (length (agents mixed_city)) out).
Proof.
  assert (H1 : ids_wellformed mixed_city) by exact mixed_city_ids.
  assert (H2 : (length (agents mixed_city)
                <= length [IntCell 9; IntCell 9])%nat) by (vm_compute; lia).
  split; [exact H1|]. split; [exact H2|].
  exact (get_info_id_has_no_duplicates (Hdr := city_headers 0) mixed_city 0
           [IntCell 9; IntCell 9] H1 H2).
Defined.

(** Witness of X16: the bulk calls on the fresh city. *)
Lemma empty_population_calls_witness :
  agents fresh_city = [] /\
  get_observation (Hdr := city_headers 0) fresh_city 0 [float_of_int 7] []
    = Ok ([float_of_int 7], []) /\
  get_reward fresh_city 0 [float_of_int 7] = Ok [float_of_int 7] /\
  get_info (Hdr := city_headers 0) fresh_city 0 "id" [IntCell 9] = Ok [IntCell 9] /\
  get_info (Hdr := city_headers 0) fresh_city 0 "alive" [IntCell 9]
    = Ok [IntCell 9] /\
  set_action fresh_city 0 [1] = Ok fresh_city /\
  clear_dead fresh_city = Ok fresh_city /\
  destroy fresh_city = Ok (heap fresh_city).
Proof.
  assert (H1 : agents fresh_city = []) by (vm_compute; reflexivity).
  split; [exact H1|].
  exact (empty_population_calls (Hdr := city_headers 0) fresh_city 0
           [float_of_int 7] [] [float_of_int 7] [IntCell 9] [1] H1).
Defined.

(** Witness of X17: the wall (3, 0), the one kind of row that is recorded
    as injected. *)
Lemma single_wall_row_is_read_at_y_witness :
  CInt.in_int 0 /\
  add_object (Hdr := city_headers 0) fresh_city (-1) 1 "custom" [3; 0]
    = Ok walled_city /\
  ((0 = 0 /\ walls walled_city = walls fresh_city ++ [mkPosition 3 0]) \/
   (0 = 1 /\ walls walled_city = walls fresh_city ++ [mkPosition 1 0])).
Proof.
  assert (H1 : CInt.in_int 0) by (vm_compute; split; discriminate).
  assert (H2 : add_object (Hdr := city_headers 0) fresh_city (-1) 1 "custom"
                 [3; 0] = Ok walled_city) by (vm_compute; reflexivity).
  split; [exact H1|]. split; [exact H2|].
  exact (single_wall_row_is_read_at_y (Hdr := city_headers 0)
           fresh_city walled_city 3 0 H1 H2).
Defined.

(** Witness of X18: one light on a city whose interval bounds are both 10. *)
Lemma light_with_empty_interval_range_witness :
  interval_max flat_city = interval_min flat_city /\ 1 <= 1 /\
  add_object (Hdr := city_headers 0) flat_city (-2) 1 "custom" [1; 1; 0; 0]
    <> Ok flat_city /\
  add_object (Hdr := city_headers 0) flat_city (-2) 1 "custom" [1; 1; 0; 0]
    = Undefined.
Proof.
  assert (H1 : interval_max flat_city = interval_min flat_city)
    by (vm_compute; reflexivity).
  assert (H2 : 1 <= 1) by lia.
  split; [exact H1|]. split; [exact H2|]. split; [|vm_compute; reflexivity].
  exact (light_with_empty_interval_range (Hdr := city_headers 0)
           flat_city flat_city 1 [1; 1; 0; 0] H1 H2).
Defined.

(** Witness of X19: the two cars at (3, 1) and (4, 4). *)
Lemma custom_cars_stand_where_told_witness :
  2 * 2 <= CInt.INT_MAX /\
  add_object (Hdr := city_headers 0) fresh_city 0 2 "custom" [3; 1; 4; 4]
    = Ok two_car_city /\
  agents two_car_city
    = agents fresh_city ++ seq (next_loc (heap fresh_city)) (Z.to_nat 2) /\
  forall k, (k < Z.to_nat 2)%nat ->
    exists x y a,
      [3; 1; 4; 4] !! (2 * k)%nat = Some x /\
      [3; 1; 4; 4] !! (2 * k + 1)%nat = Some y /\
      objs (heap two_car_city) !! (next_loc (heap fresh_city) + k)%nat = Some a /\
      agent_pos a = mkPosition x y.
Proof.
  assert (H1 : 2 * 2 <= CInt.INT_MAX) by (vm_compute; discriminate).
  assert (H2 : add_object (Hdr := city_headers 0) fresh_city 0 2 "custom"
                 [3; 1; 4; 4] = Ok two_car_city) by (vm_compute; reflexivity).
  split; [exact H1|]. split; [exact H2|].
  exact (custom_cars_stand_where_told (Hdr := city_headers 0)
           fresh_city two_car_city 2 [3; 1; 4; 4] H1 H2).
Defined.

(** Witness of X20: one park at (5, 5), 2 wide and 3 high. *)
Lemma parks_are_recorded_as_given_witness :
  4 * 1 <= CInt.INT_MAX /\
  add_object (Hdr := city_headers 0) fresh_city (-3) 1 "custom" [5; 5; 2; 3]
    = Ok park_city /\
  exists new, parks park_city = parks fresh_city ++ new /\
    length new = Z.to_nat 1 /\
    forall k t, new !! k = Some t ->
      [5; 5; 2; 3] !! (4 * k)%nat = Some (pos_x (park_pos t)) /\
      [5; 5; 2; 3] !! (4 * k + 1)%nat = Some (pos_y (park_pos t)) /\
      [5; 5; 2; 3] !! (4 * k + 2)%nat = Some (park_w t) /\
      [5; 5; 2; 3] !! (4 * k + 3)%nat = Some (park_h t).
Proof.
  assert (H1 : 4 * 1 <= CInt.INT_MAX) by (vm_compute; discriminate).
  assert (H2 : add_object (Hdr := city_headers 0) fresh_city (-3) 1 "custom"
                 [5; 5; 2; 3] = Ok park_city) by (vm_compute; reflexivity).
  split; [exact H1|]. split; [exact H2|].
  exact (parks_are_recorded_as_given (Hdr := city_headers 0)
           fresh_city park_city 1 [5; 5; 2; 3] H1 H2).
Defined.

(** Witness of X21: one 2 x 2 building at (6, 6). *)
Lemma buildings_are_recorded_but_not_as_walls_witness :
  4 * 1 <= CInt.INT_MAX /\
  (forall (k : nat) x0 y0 w h,
     [6; 6; 2; 2] !! (4 * k)%nat = Some x0 ->
     [6; 6; 2; 2] !! (4 * k + 1)%nat = Some y0 ->
     [6; 6; 2; 2] !! (4 * k + 2)%nat = Some w ->
     [6; 6; 2; 2] !! (4 * k + 3)%nat = Some h ->
     CInt.in_int (x0 + w) /\ CInt.in_int (y0 + h)) /\
  add_object (Hdr := city_headers 0) fresh_city (-4) 1 "custom" [6; 6; 2; 2]
    = Ok built_city /\
  footprint (mkBuilding (mkPosition 6 6) 2 2)
    = [mkPosition 6 6; mkPosition 6 7; mkPosition 7 6; mkPosition 7 7] /\
  walls built_city = walls fresh_city /\
  exists new, buildings built_city = buildings fresh_city ++ new /\
    length new = Z.to_nat 1 /\
    (forall k t, new !! k = Some t ->
       [6; 6; 2; 2] !! (4 * k)%nat = Some (pos_x (building_pos t)) /\
       [6; 6; 2; 2] !! (4 * k + 1)%nat = Some (pos_y (building_pos t)) /\
       [6; 6; 2; 2] !! (4 * k + 2)%nat = Some (building_w t) /\
       [6; 6; 2; 2] !! (4 * k + 3)%nat = Some (building_h t)) /\
    add_walls (map fresh_city) (new ≫= footprint) = Ok (map built_city).
Proof.
  assert (H1 : 4 * 1 <= CInt.INT_MAX) by (vm_compute; discriminate).
  assert (H2 : forall (k : nat) x0 y0 w h,
            [6; 6; 2; 2] !! (4 * k)%nat = Some x0 ->
            [6; 6; 2; 2] !! (4 * k + 1)%nat = Some y0 ->
            [6; 6; 2; 2] !! (4 * k + 2)%nat = Some w ->
            [6; 6; 2; 2] !! (4 * k + 3)%nat = Some h ->
            CInt.in_int (x0 + w) /\ CInt.in_int (y0 + h)).
  { intros k x0 y0 w h L0 L1 L2 L3.
    assert (k = 0%nat) as ->
      by (apply lookup_lt_Some in L0; simpl in L0; lia).
    simpl in L0, L1, L2, L3.
    injection L0 as <-. injection L1 as <-. injection L2 as <-.
    injection L3 as <-. split; vm_compute; split; discriminate. }
  assert (H3 : add_object (Hdr := city_headers 0) fresh_city (-4) 1 "custom"
                 [6; 6; 2; 2] = Ok built_city) by (vm_compute; reflexivity).
  split; [exact H1|]. split; [exact H2|]. split; [exact H3|].
  split; [vm_compute; reflexivity|].
  exact (buildings_are_recorded_but_not_as_walls (Hdr := city_headers 0)
           fresh_city built_city 1 [6; 6; 2; 2] H1 H2 H3).
Defined.

(** Witness of X22: the two lights of the lit city. *)
Lemma lights_are_recorded_as_given_witness :
  4 * 2 <= CInt.INT_MAX /\
  add_object (Hdr := city_headers 0) fresh_city (-2) 2 "custom" two_lights
    = Ok lit_city /\
  exists new, lights lit_city = lights fresh_city ++ new /\
    length new = Z.to_nat 2 /\
    forall k t, new !! k = Some t ->
      two_lights !! (4 * k)%nat = Some (pos_x (light_pos t)) /\
      two_lights !! (4 * k + 1)%nat = Some (pos_y (light_pos t)) /\
      two_lights !! (4 * k + 2)%nat = Some (light_orientation t) /\
      two_lights !! (4 * k + 3)%nat = Some (light_offset t).
Proof.
  assert (H1 : 4 * 2 <= CInt.INT_MAX) by (vm_compute; discriminate).
  assert (H2 : add_object (Hdr := city_headers 0) fresh_city (-2) 2 "custom"
                 two_lights = Ok lit_city) by (vm_compute; reflexivity).
  split; [exact H1|]. split; [exact H2|].
  exact (lights_are_recorded_as_given (Hdr := city_headers 0)
           fresh_city lit_city 2 two_lights H1 H2).
Defined.

(** Witness of X23: the light injection touches the lights and the engine. *)
Lemma add_object_touches_one_registry_witness :
  add_object (Hdr := city_headers 0) fresh_city (-2) 2 "custom" two_lights
    = Ok lit_city /\
  get_options lit_city = get_options fresh_city /\
  first_render lit_city = first_render fresh_city /\
  (-2 <> -1 -> walls lit_city = walls fresh_city) /\
  (-2 <> -2 -> lights lit_city = lights fresh_city) /\
  (-2 <> -3 -> parks lit_city = parks fresh_city) /\
  (-2 <> -4 -> buildings lit_city = buildings fresh_city) /\
  (-2 <> 0 -> population lit_city = population fresh_city) /\
  (-2 <> -2 -> -2 <> 0 -> random_engine lit_city = random_engine fresh_city).
Proof.
  assert (H1 : add_object (Hdr := city_headers 0) fresh_city (-2) 2 "custom"
                 two_lights = Ok lit_city) by (vm_compute; reflexivity).
  split; [exact H1|].
  exact (add_object_touches_one_registry (Hdr := city_headers 0)
           fresh_city lit_city (-2) 2 "custom" two_lights H1).
Defined.

(** Witness of X24: the slice of the car at (3, 1) with goal (5, 7). *)
Lemma observation_slice_layout_witness :
  0 <= embedding_size goal_city /\
  0 <= ACT_NUM (Headers := city_headers 0) /\
  Z.of_nat (length (agents goal_city))
    * (embedding_size goal_city + ACT_NUM (Headers := city_headers 0) + 1 + 2)
    <= CInt.INT_MAX /\
  (forall q b, q ∈ agents goal_city -> objs (heap goal_city) !! q = Some b ->
     0 <= agent_action b < ACT_NUM (Headers := city_headers 0)) /\
  get_observation (Hdr := city_headers 0) goal_city 0
    (replicate 36 float_zero) (replicate 24 float_zero)
    = Ok (goal_observation.1, goal_observation.2) /\
  agents goal_city !! 0%nat = Some 0%nat /\
  objs (heap goal_city) !! 0%nat
    = Some (mkAgent 0 (mkPosition 3 1) (mkPosition 5 7) 0 float_zero float_zero false) /\
  forall c,
    0 <= c < embedding_size goal_city + ACT_NUM (Headers := city_headers 0) + 1 + 2 ->
    buf_read goal_observation.2
      (Z.of_nat 0
       * (embedding_size goal_city + ACT_NUM (Headers := city_headers 0) + 1 + 2)
       + c)
    = Ok (feature_cell (H := city_headers 0) goal_city
            (mkAgent 0 (mkPosition 3 1) (mkPosition 5 7) 0 float_zero float_zero
               false) c).
Proof.
  assert (H1 : 0 <= embedding_size goal_city) by (vm_compute; discriminate).
  assert (H2 : 0 <= ACT_NUM (Headers := city_headers 0))
    by (vm_compute; discriminate).
  assert (H3 : Z.of_nat (length (agents goal_city))
               * (embedding_size goal_city
                  + ACT_NUM (Headers := city_headers 0) + 1 + 2)
               <= CInt.INT_MAX) by (vm_compute; discriminate).
  assert (H4 := goal_city_actions).
  assert (H5 : get_observation (Hdr := city_headers 0) goal_city 0
                 (replicate 36 float_zero) (replicate 24 float_zero)
               = Ok (goal_observation.1, goal_observation.2))
    by (vm_compute; reflexivity).
  assert (H6 : agents goal_city !! 0%nat = Some 0%nat) by (vm_compute; reflexivity).
  assert (H7 : objs (heap goal_city) !! 0%nat
               = Some (mkAgent 0 (mkPosition 3 1) (mkPosition 5 7) 0 float_zero
                         float_zero false)) by (vm_compute; reflexivity).
  split; [exact H1|]. split; [exact H2|]. split; [exact H3|].
  split; [exact H4|]. split; [exact H5|]. split; [exact H6|]. split; [exact H7|].
  exact (observation_slice_layout (Hdr := city_headers 0) goal_city 0
           _ _ _ _ 0%nat 0%nat _ H1 H2 H3 H4 H5 H6 H7).
Defined.


(** Witness of X26: action 2 is set for the car, then observed. *)
Lemma actions_show_in_the_observation_witness :
  population_valid goal_city /\
  0 <= embedding_size goal_city /\
  0 <= ACT_NUM (Headers := city_headers 0) /\
  Z.of_nat (length (agents goal_city))
    * (embedding_size goal_city + ACT_NUM (Headers := city_headers 0) + 1 + 2)
    <= CInt.INT_MAX /\
  (length (agents goal_city) <= length [2])%nat /\
  (forall j v, [2] !! j = Some v ->
     0 <= v < ACT_NUM (Headers := city_headers 0)) /\
  set_action goal_city 0 [2] = Ok acted_city /\
  get_observation (Hdr := city_headers 0) acted_city 0
    (replicate 36 float_zero) (replicate 24 float_zero)
    = Ok (acted_observation.1, acted_observation.2) /\
  agents goal_city !! 0%nat = Some 0%nat /\ [2] !! 0%nat = Some 2 /\
  forall c, 0 <= c < ACT_NUM (Headers := city_headers 0) ->
    buf_read acted_observation.2
      (Z.of_nat 0
       * (embedding_size goal_city + ACT_NUM (Headers := city_headers 0) + 1 + 2)
       + embedding_size goal_city + c)
    = Ok (if decide (c = 2) then float_of_int 1 else float_zero).
Proof.
  assert (H0 : population_valid goal_city) by exact goal_city_valid.
  assert (H1 : 0 <= embedding_size goal_city) by (vm_compute; discriminate).
  assert (H2 : 0 <= ACT_NUM (Headers := city_headers 0))
    by (vm_compute; discriminate).
  assert (H3 : Z.of_nat (length (agents goal_city))
               * (embedding_size goal_city
                  + ACT_NUM (Headers := city_headers 0) + 1 + 2)
               <= CInt.INT_MAX) by (vm_compute; discriminate).
  assert (H4 : (length (agents goal_city) <= length [2])%nat)
    by (vm_compute; lia).
  assert (H5 : forall j v, [2] !! j = Some v ->
                 0 <= v < ACT_NUM (Headers := city_headers 0)).
  { intros [|[|j]] v Hv; simpl in Hv; try discriminate.
    injection Hv as <-. vm_compute. split; [discriminate|reflexivity]. }
  assert (H6 : set_action goal_city 0 [2] = Ok acted_city)
    by (vm_compute; reflexivity).
  assert (H7 : get_observation (Hdr := city_headers 0) acted_city 0
                 (replicate 36 float_zero) (replicate 24 float_zero)
               = Ok (acted_observation.1, acted_observation.2))
    by (vm_compute; reflexivity).
  assert (H8 : agents goal_city !! 0%nat = Some 0%nat) by (vm_compute; reflexivity).
  assert (H9 : [2] !! 0%nat = Some 2) by reflexivity.
  split; [exact H0|]. split; [exact H1|]. split; [exact H2|]. split; [exact H3|].
  split; [exact H4|]. split; [exact H5|]. split; [exact H6|]. split; [exact H7|].
  split; [exact H8|]. split; [exact H9|].
  exact (actions_show_in_the_observation (Hdr := city_headers 0) goal_city
           acted_city 0 [2] _ _ _ _ 0%nat 0%nat 2
           H0 H1 H2 H3 H4 H5 H6 H7 H8 H9).
Defined.

